(** * metadata-service: aggregate-MDS adapters and the rich filter query

    A shallow embedding of [src/mds/agg_mds/adapters.py], of the filter
    pipeline and the plain search of [src/mds/query.py] and of
    [filter_entries] of [src/mds/populate.py], with the properties the
    specification states about them and further properties of the code.

    Python values are an inductive type, dictionaries are insertion-ordered
    association lists (the order of [dict.items()] and the "later value wins"
    rule of [dict(items)] are both visible to [flatten]), and raising is a
    result type with the exception that was raised. *)

From Stdlib Require Import String Ascii List ZArith Lia Bool Arith.
Import ListNotations.

Open Scope string_scope.
Open Scope list_scope.

(* ================================================================== *)
(** * Python values, exceptions and dictionaries *)
(* ================================================================== *)

Module Py.

(** JSON-shaped Python values.  A float is kept as the 64-bit pattern of
    its IEEE-754 double: the code below stores and passes floats on and
    never computes with one. *)
#[local] Unset Elimination Schemes.
Inductive pyvalue : Type :=
| VNone
| VBool (b : bool)
| VInt (n : Z)
| VFloat (bits : Z)
| VStr (s : string)
| VList (l : list pyvalue)
| VDict (d : list (string * pyvalue)).
#[local] Set Elimination Schemes.

(** The exceptions the modelled code raises or catches. *)
Inductive exn : Type :=
| KeyError (key : pyvalue)
| TypeError
| AttributeError
| ValueError
| IndexError
| JsonPathParseError
| ParseError
| IncompleteParseError
| VisitationError
| RuntimeError
| RecursionError
| DataError
| HTTPException (status_code : nat) (detail : string).

Inductive result (A : Type) : Type :=
| Ok (a : A)
| Raise (e : exn).
Arguments Ok {A} a.
Arguments Raise {A} e.

Definition bind {A B} (m : result A) (k : A -> result B) : result B :=
  match m with
  | Ok a => k a
  | Raise e => Raise e
  end.

Definition is_ok {A} (m : result A) : bool :=
  match m with Ok _ => true | Raise _ => false end.

(** [for x in l: acc = body(acc, x)], stopping at the first exception. *)
Fixpoint for_each {A S} (body : S -> A -> result S) (l : list A) (acc : S)
  : result S :=
  match l with
  | [] => Ok acc
  | x :: rest => bind (body acc x) (for_each body rest)
  end.

(** ** Dictionaries *)

Definition dict (V : Type) : Type := list (string * V).

Fixpoint dict_get {V} (k : string) (d : dict V) : option V :=
  match d with
  | [] => None
  | (k', v) :: rest => if String.eqb k k' then Some v else dict_get k rest
  end.

(** [k in d] *)
Definition dict_in {V} (k : string) (d : dict V) : bool :=
  match dict_get k d with Some _ => true | None => false end.

(** [d[k] = v]: an existing key keeps its position, a new key goes last. *)
Fixpoint dict_set {V} (k : string) (v : V) (d : dict V) : dict V :=
  match d with
  | [] => [(k, v)]
  | (k', v') :: rest =>
      if String.eqb k k' then (k', v) :: rest else (k', v') :: dict_set k v rest
  end.

(** [d.update(other)] *)
Definition dict_update {V} (d other : dict V) : dict V :=
  fold_left (fun acc kv => dict_set (fst kv) (snd kv) acc) other d.

(** [dict(items)] *)
Definition dict_of_items {V} (items : list (string * V)) : dict V :=
  dict_update [] items.

Definition dict_keys {V} (d : dict V) : list string := map fst d.

(** [d[k]], raising [KeyError] *)
Definition dict_item {V} (k : string) (d : dict V) : result V :=
  match dict_get k d with
  | Some v => Ok v
  | None => Raise (KeyError (VStr k))
  end.

(** ** Strings *)

(** [sub in s] for two strings *)
Fixpoint str_in (sub s : string) : bool :=
  String.prefix sub s
  || match s with
     | EmptyString => false
     | String _ rest => str_in sub rest
     end.

(** The scan of [s.split(sep)] for a non-empty [sep]: [skip] counts the
    characters of a separator still to be passed over, [cur] is the piece
    being read. *)
Fixpoint split_scan (sep s : string) (skip : nat) (cur : string)
  : list string :=
  match s with
  | EmptyString => [cur]
  | String c rest =>
      match skip with
      | S n => split_scan sep rest n cur
      | O =>
          if String.prefix sep s
          then cur :: split_scan sep rest (String.length sep - 1) EmptyString
          else split_scan sep rest 0 (cur ++ String c EmptyString)
      end
  end.

(** [s.split(sep)], [sep] not empty *)
Definition split (sep s : string) : list string := split_scan sep s 0 "".

(** [sep.join(parts)] *)
Fixpoint join (sep : string) (parts : list string) : string :=
  match parts with
  | [] => ""
  | [p] => p
  | p :: rest => p ++ sep ++ join sep rest
  end.

(** [s.replace(old, new)] for a non-empty [old]: the pieces between the
    occurrences of [old], glued with [new]. *)
Definition replace (old new s : string) : string := join new (split old s).

(** The characters of a string, each as a one-character string. *)
Fixpoint chars (s : string) : list string :=
  match s with
  | EmptyString => []
  | String c rest => String c EmptyString :: chars rest
  end.

(** ** Protocols on values *)

(** [for x in v]: the elements of a list, the characters of a string, the
    keys of a dict; anything else is not iterable. *)
Definition py_iter (v : pyvalue) : result (list pyvalue) :=
  match v with
  | VList l => Ok l
  | VStr s => Ok (map VStr (chars s))
  | VDict d => Ok (map (fun kv => VStr (fst kv)) d)
  | _ => Raise TypeError
  end.

Definition is_str (needle : string) (v : pyvalue) : bool :=
  match v with
  | VStr s => String.eqb needle s
  | _ => false
  end.

(** [needle in v] for a string [needle]: substring test on a string,
    membership on a list, key test on a dict, [TypeError] otherwise. *)
Definition py_contains (needle : string) (v : pyvalue) : result bool :=
  match v with
  | VStr s => Ok (str_in needle s)
  | VList l => Ok (existsb (is_str needle) l)
  | VDict d => Ok (dict_in needle d)
  | _ => Raise TypeError
  end.

(** [len(v)] *)
Definition py_len (v : pyvalue) : result nat :=
  match v with
  | VStr s => Ok (String.length s)
  | VList l => Ok (List.length l)
  | VDict d => Ok (List.length d)
  | _ => Raise TypeError
  end.

(** [v[i]] for a literal index [i] *)
Definition py_index (v : pyvalue) (i : nat) : result pyvalue :=
  match v with
  | VList l =>
      match nth_error l i with Some x => Ok x | None => Raise IndexError end
  | VStr s =>
      match nth_error (chars s) i with
      | Some c => Ok (VStr c)
      | None => Raise IndexError
      end
  | VDict _ => Raise (KeyError (VInt (Z.of_nat i)))
  | _ => Raise TypeError
  end.

(** [v[k]] for a string key [k] *)
Definition py_subscript (v : pyvalue) (k : string) : result pyvalue :=
  match v with
  | VDict d => dict_item k d
  | _ => Raise TypeError
  end.

(** [v[k] = x] for a string key [k] *)
Definition py_setitem (v : pyvalue) (k : string) (x : pyvalue)
  : result (dict pyvalue) :=
  match v with
  | VDict d => Ok (dict_set k x d)
  | _ => Raise TypeError
  end.

(** An integer operand: [bool] is a subclass of [int]. *)
Definition as_int (v : pyvalue) : result Z :=
  match v with
  | VInt n => Ok n
  | VBool b => Ok (if b then 1 else 0)%Z
  | _ => Raise TypeError
  end.

(** [v == 0] *)
Definition eq_zero (v : pyvalue) : bool :=
  match v with
  | VInt n => Z.eqb n 0
  | VBool b => negb b
  | VFloat bits => Z.eqb bits 0 || Z.eqb bits (2 ^ 63)
  | _ => false
  end.

(** [v.get(k, default)], defined on dicts only *)
Definition py_get (v : pyvalue) (k : string) (default : pyvalue) : result pyvalue :=
  match v with
  | VDict d =>
      Ok (match dict_get k d with Some x => x | None => default end)
  | _ => Raise AttributeError
  end.

End Py.

Export Py.

Declare Scope py_scope.
Delimit Scope py_scope with py.
Notation "x <- m ;; k" := (bind m (fun x => k))
  (at level 61, m at next level, right associativity) : py_scope.
Notation "' pat <- m ;; k" :=
  (bind m (fun x => match x with pat => k end))
  (at level 61, pat pattern, m at next level, right associativity) : py_scope.
Open Scope py_scope.

(* ================================================================== *)
(** * adapters.py *)
(* ================================================================== *)

Module Adapters.

(** A canonical record, [{"_guid_type": ..., "gen3_discovery": {...}}]. *)
Record mds_record : Type := {
  _guid_type : string;
  gen3_discovery : dict pyvalue
}.

(** Keys of a result set: whatever hashable value the identifying field of
    a raw item holds.  [True], [1] and [1.0] are the same key; a float
    that is not a whole number is told apart by its bit pattern. *)
Inductive key : Type :=
| KStr (s : string)
| KInt (n : Z)
| KFloat (bits : Z)
| KNone.

(** Keys as [hash_key] makes them: a number that is a whole number is a
    [KInt] whatever its type, so that two keys of different constructors
    are different keys. *)
Definition key_eqb (a b : key) : bool :=
  match a, b with
  | KStr s, KStr t => String.eqb s t
  | KInt n, KInt m => Z.eqb n m
  | KFloat n, KFloat m => Z.eqb n m
  | KNone, KNone => true
  | _, _ => false
  end.

(** The integer a double is equal to, if it is equal to one: the sign is
    bit 63, the exponent bits 52 to 62 and the fraction bits 0 to 51. *)
Definition float_integer (bits : Z) : option Z :=
  let negative := Z.testbit bits 63 in
  let exponent := Z.land (Z.shiftr bits 52) 2047 in
  let fraction := Z.land bits (2 ^ 52 - 1) in
  let signed := fun n : Z => if negative then (- n)%Z else n in
  if Z.eqb exponent 0 then
    if Z.eqb fraction 0 then Some 0%Z else None
  else if Z.eqb exponent 2047 then None
  else
    let significand := (2 ^ 52 + fraction)%Z in
    if Z.leb 1075 exponent
    then Some (signed (significand * 2 ^ (exponent - 1075))%Z)
    else
      let unit := (2 ^ (1075 - exponent))%Z in
      if Z.eqb (significand mod unit) 0
      then Some (signed (significand / unit)%Z)
      else None.

Definition hash_key (v : pyvalue) : result key :=
  match v with
  | VStr s => Ok (KStr s)
  | VInt n => Ok (KInt n)
  | VBool b => Ok (KInt (if b then 1 else 0))
  | VFloat bits =>
      Ok (match float_integer bits with
          | Some n => KInt n
          | None => KFloat bits
          end)
  | VNone => Ok KNone
  | VList _ | VDict _ => Raise TypeError
  end.

Definition record_set : Type := list (key * mds_record).

Fixpoint rs_get (k : key) (items : record_set) : option mds_record :=
  match items with
  | [] => None
  | (k', r) :: rest => if key_eqb k k' then Some r else rs_get k rest
  end.

Fixpoint rs_set (k : key) (r : mds_record) (items : record_set) : record_set :=
  match items with
  | [] => [(k, r)]
  | (k', r') :: rest =>
      if key_eqb k k' then (k', r) :: rest else (k', r') :: rs_set k r rest
  end.

(** ** flatten *)

(** [str(parent_key) + separator + key if parent_key else key];
    [parent_key] is [False] ([None] here) or a string, and the empty
    string is as false as [False]. *)
Definition new_key (parent_key : option string) (separator key : string)
  : string :=
  match parent_key with
  | Some p =>
      if String.eqb p "" then key else p ++ separator ++ key
  | None => key
  end.

(** [flatten(dictionary, parent_key, separator)] for a dict [dictionary];
    the recursive call is [flatten(value, False, separator)], as in the
    source. *)
Fixpoint flatten (dictionary : pyvalue) (parent_key : option string)
  (separator : string) {struct dictionary} : dict pyvalue :=
  match dictionary with
  | VDict d =>
      dict_of_items
        ((fix items (l : list (string * pyvalue)) : list (string * pyvalue) :=
            match l with
            | [] => []
            | (key, value) :: rest =>
                match value with
                | VDict _ => flatten value None separator ++ items rest
                | _ => (new_key parent_key separator key, value) :: items rest
                end
            end) d)
  | _ => []
  end.

(** A call of [flatten] from outside: [dictionary.items()] needs a dict. *)
Definition flatten_call (dictionary : pyvalue) : result (dict pyvalue) :=
  match dictionary with
  | VDict _ => Ok (flatten dictionary None ".")
  | _ => Raise AttributeError
  end.

(** The loop of [flatten] on its own, over whatever the recursive call
    returns. *)
Fixpoint flatten_items (flat : pyvalue -> dict pyvalue)
  (parent_key : option string) (separator : string)
  (l : list (string * pyvalue)) : list (string * pyvalue) :=
  match l with
  | [] => []
  | (key, value) :: rest =>
      match value with
      | VDict _ => flat value ++ flatten_items flat parent_key separator rest
      | _ =>
          (new_key parent_key separator key, value)
          :: flatten_items flat parent_key separator rest
      end
  end.

Definition is_dict (v : pyvalue) : bool :=
  match v with VDict _ => true | _ => false end.

(** The value reached from [v] by a path of keys. *)
Fixpoint value_at (v : pyvalue) (path : list string) : option pyvalue :=
  match path with
  | [] => Some v
  | k :: rest =>
      match v with
      | VDict d =>
          match dict_get k d with
          | Some x => value_at x rest
          | None => None
          end
      | _ => None
      end
  end.

(** [leaf v key value]: somewhere inside the dict [v], at any depth, the
    entry [key: value] occurs and [value] is not a dict. *)
Inductive leaf : pyvalue -> string -> pyvalue -> Prop :=
| leaf_here d key value :
    In (key, value) d -> is_dict value = false -> leaf (VDict d) key value
| leaf_under d key sub k v :
    In (key, VDict sub) d -> leaf (VDict sub) k v -> leaf (VDict d) k v.

(** The entries of a nested dict whose value is not a dict, at any depth,
    in the order in which they are written. *)
Fixpoint leaves (v : pyvalue) : list (string * pyvalue) :=
  match v with
  | VDict d =>
      (fix each (l : list (string * pyvalue)) : list (string * pyvalue) :=
         match l with
         | [] => []
         | (key, value) :: rest =>
             match value with
             | VDict _ => leaves value ++ each rest
             | _ => (key, value) :: each rest
             end
         end) d
  | _ => []
  end.

(** The value of the last of the entries of a list that has the key. *)
Fixpoint last_value {V} (k : string) (l : list (string * V)) : option V :=
  match l with
  | [] => None
  | (k', v) :: rest =>
      match last_value k rest with
      | Some x => Some x
      | None => if String.eqb k k' then Some v else None
      end
  end.

(** Dot-joined keys: a value that is not a dict, reached by a path of two
    keys or more, is found in the flattened dict under the keys of the
    path joined by dots. *)
Definition flatten_joins_paths : Prop :=
  forall (d : dict pyvalue) (path : list string) (v : pyvalue),
    1 < List.length path ->
    value_at (VDict d) path = Some v ->
    is_dict v = false ->
    dict_get (join "." path) (flatten (VDict d) None ".") = Some v.

Section Libraries.

(** [bleach.clean(s, tags=[], strip=True)] on a string. *)
Variable bleach_clean : string -> string.

(** [jsonpath_ng]: compiled path expressions, [parse] and, for
    [expr.find(item)], the values of the matches in the order found. *)
Variable jsonpath : Type.
Variable parse : pyvalue -> result jsonpath.
Variable find : jsonpath -> pyvalue -> list pyvalue.

(** [str(v)] of a value that is not a string, for f-strings. *)
Variable repr : pyvalue -> string.

Definition format_value (v : pyvalue) : string :=
  match v with
  | VStr s => s
  | _ => repr v
  end.

(** ** Field filters *)

Definition strip_html (s : pyvalue) : result pyvalue :=
  match s with
  | VStr text => Ok (VStr (bleach_clean text))
  | _ => Raise TypeError
  end.

Definition filters : dict (pyvalue -> result pyvalue) :=
  [("strip_html", strip_html)].

(** [FieldFilters.execute(name, value)]; the membership test hashes
    [name], which a list or a dict does not allow. *)
Definition execute (name : pyvalue) (value : pyvalue) : result pyvalue :=
  match name with
  | VList _ | VDict _ => Raise TypeError
  | VStr n =>
      match dict_get n filters with
      | None => Ok value
      | Some f => f value
      end
  | _ => Ok value
  end.

(** ** get_json_path_value *)

Definition get_json_path_value (expression : pyvalue) (item : pyvalue)
  : result pyvalue :=
  match expression with
  | VNone => Ok (VStr "")
  | _ =>
      jsonpath_expr <- parse expression ;;
      let v := find jsonpath_expr item in
      if Nat.eqb (List.length v) 0 then Ok (VStr "")
      else if Nat.eqb (List.length v) 1 then Ok (nth 0 v VNone)
      else Ok (VList v)
  end.

(** ** RemoteMetadataAdapter.mapFields *)

(** The value one mapping entry produces. *)
Definition map_field (item : pyvalue) (value : pyvalue) : result pyvalue :=
  match value with
  | VDict spec =>
      let expression :=
        match dict_get "path" spec with Some e => e | None => VNone end in
      field_value <- get_json_path_value expression item ;;
      let filters :=
        match dict_get "filters" spec with Some f => f | None => VList [] end in
      names <- py_iter filters ;;
      for_each (fun field_value filter => execute filter field_value)
        names field_value
  | _ =>
      has_marker <- py_contains "path:" value ;;
      if has_marker then
        match value with
        | VStr s =>
            match nth_error (split "path:" s) 1 with
            | Some expression => get_json_path_value (VStr expression) item
            | None => Raise IndexError
            end
        | _ => Raise AttributeError
        end
      else Ok value
  end.

Definition mapFields (item : pyvalue) (mappings : dict pyvalue)
  : result (dict pyvalue) :=
  for_each
    (fun results kv =>
       field_value <- map_field item (snd kv) ;;
       Ok (dict_set (fst kv) field_value results))
    mappings [].

(** ** RemoteMetadataAdapter.setPerItemValues *)

Definition set_values (r : mds_record) (values : dict pyvalue) : mds_record :=
  fold_left
    (fun r kv =>
       if dict_in (fst kv) (gen3_discovery r)
       then {| _guid_type := _guid_type r;
               gen3_discovery := dict_set (fst kv) (snd kv) (gen3_discovery r) |}
       else r)
    values r.

Definition setPerItemValues (items : record_set)
  (perItemValues : dict (dict pyvalue)) : record_set :=
  fold_left
    (fun items iv =>
       match rs_get (KStr (fst iv)) items with
       | Some r => rs_set (KStr (fst iv)) (set_values r (snd iv)) items
       | None => items
       end)
    perItemValues items.

(** [touched perItemValues id r r']: [r'] is [r] with some of its fields
    overwritten by values the override map gives for [id]. *)
Definition touched (perItemValues : dict (dict pyvalue))
  (id : key) (r r' : mds_record) : Prop :=
  _guid_type r' = _guid_type r /\
  dict_keys (gen3_discovery r') = dict_keys (gen3_discovery r) /\
  forall k v,
    dict_get k (gen3_discovery r') = Some v ->
    dict_get k (gen3_discovery r) = Some v \/
    exists s values,
      id = KStr s /\ In (s, values) perItemValues /\ In (k, v) values.

(** ** The three adapters *)

(** The first lines of every [addGen3ExpectedFields]: [results] is the
    item itself, updated in place, when the original fields are kept, and
    the mapped fields alone otherwise.  The flag says whether [results]
    and [item] are one object. *)
Definition overlay (item : pyvalue) (mappings : option (dict pyvalue))
  (keepOriginalFields : bool) : result (pyvalue * bool) :=
  match mappings with
  | None => Ok (item, true)
  | Some m =>
      mapped_fields <- mapFields item m ;;
      if keepOriginalFields then
        match item with
        | VDict d => Ok (VDict (dict_update d mapped_fields), true)
        | _ => Raise AttributeError
        end
      else Ok (VDict mapped_fields, false)
  end.

(** What the caller holds after the call: the returned dict and its own
    [item], which is the returned dict when the two are one object. *)
Definition returned (aliased : bool) (results : dict pyvalue) (item : pyvalue)
  : dict pyvalue * pyvalue :=
  (results, if aliased then VDict results else item).

Definition str_elements (l : list pyvalue) : result (list string) :=
  for_each
    (fun acc x =>
       match x with
       | VStr s => Ok (acc ++ [s])
       | _ => Raise TypeError
       end)
    l [].

Definition ISCPSRDublin_buildIdentifier (id : pyvalue) : result string :=
  match id with
  | VStr s => Ok (replace "dc:" "" (replace "http://doi.org/" "" s))
  | _ => Raise AttributeError
  end.

Definition ISCPSRDublin_addGen3ExpectedFields (item : pyvalue)
  (mappings : option (dict pyvalue)) (keepOriginalFields : bool)
  : result (dict pyvalue * pyvalue) :=
  ' (results, aliased) <- overlay item mappings keepOriginalFields ;;
  investigators <- py_subscript results "investigators" ;;
  match investigators with
  | VList l =>
      names <- str_elements l ;;
      results' <- py_setitem results "investigators" (VStr (join "," names)) ;;
      Ok (returned aliased results' item)
  | _ =>
      match results with
      | VDict d => Ok (returned aliased d item)
      | _ => Raise TypeError
      end
  end.

Definition ClinicalTrials_addGen3ExpectedFields (item : pyvalue)
  (mappings : option (dict pyvalue)) (keepOriginalFields : bool)
  : result (dict pyvalue * pyvalue) :=
  ' (results, aliased) <- overlay item mappings keepOriginalFields ;;
  let item := if aliased then results else item in
  has_location <- py_contains "Location" item ;;
  location <-
    (if has_location then
       loc <- py_subscript item "Location" ;;
       n <- py_len loc ;;
       if Nat.ltb 0 n then
         first <- py_index loc 0 ;;
         facility <- py_get first "LocationFacility" (VStr "") ;;
         city <- py_get first "LocationCity" (VStr "") ;;
         state <- py_get first "LocationState" (VStr "") ;;
         Ok (format_value facility ++ ", " ++ format_value city ++ ", "
             ++ format_value state)%string
       else Ok ""
     else Ok "") ;;
  results' <- py_setitem results "location" (VStr location) ;;
  Ok (returned aliased results' item).

(** [results["investigators"].join(", ")]: a list has no [join]. *)
Definition PDAPS_addGen3ExpectedFields (item : pyvalue)
  (mappings : option (dict pyvalue)) (keepOriginalFields : bool)
  : result (dict pyvalue * pyvalue) :=
  ' (results, aliased) <- overlay item mappings keepOriginalFields ;;
  investigators <- py_subscript results "investigators" ;;
  match investigators with
  | VList _ => Raise AttributeError
  | _ =>
      match results with
      | VDict d => Ok (returned aliased d item)
      | _ => Raise TypeError
      end
  end.

Definition discovery_metadata (normalized_item : dict pyvalue) : mds_record :=
  {| _guid_type := "discovery_metadata"; gen3_discovery := normalized_item |}.

Definition apply_perItemValues (results : record_set)
  (perItemValues : option (dict (dict pyvalue))) : record_set :=
  match perItemValues with
  | Some values => setPerItemValues results values
  | None => results
  end.

(** The [dc:] fields of one OAI record, collected into a fresh item. *)
Definition ISCPSRDublin_item (metadata : dict pyvalue) : result pyvalue :=
  item <-
    for_each
      (fun item kv =>
         let key := fst kv in
         let value := snd kv in
         if str_in "dc:" key then
           if str_in "dc:identifier" key then
             second <- py_index value 1 ;;
             identifier <- ISCPSRDublin_buildIdentifier second ;;
             Ok (dict_set "identifier" (VStr identifier) item)
           else Ok (dict_set (replace "dc:" "" key) value item)
         else Ok item)
      metadata [] ;;
  Ok (VDict item).

Definition ISCPSRDublin_normalizeToGen3MDSFields (data : pyvalue)
  (mappings : option (dict pyvalue)) (keepOriginalFields : bool)
  (perItemValues : option (dict (dict pyvalue))) : result record_set :=
  raw <- py_subscript data "results" ;;
  records <- py_iter raw ;;
  results <-
    for_each
      (fun results record =>
         a <- py_subscript record "OAI-PMH" ;;
         b <- py_subscript a "GetRecord" ;;
         c <- py_subscript b "record" ;;
         d <- py_subscript c "metadata" ;;
         dc <- py_subscript d "oai_dc:dc" ;;
         match dc with
         | VDict metadata =>
             item <- ISCPSRDublin_item metadata ;;
             ' (normalized_item, item) <-
               ISCPSRDublin_addGen3ExpectedFields item mappings
                 keepOriginalFields ;;
             id <- py_subscript item "identifier" ;;
             k <- hash_key id ;;
             Ok (rs_set k (discovery_metadata normalized_item) results)
         | _ => Raise AttributeError
         end)
      records [] ;;
  Ok (apply_perItemValues results perItemValues).

Definition ClinicalTrials_normalizeToGen3MDSFields (data : pyvalue)
  (mappings : option (dict pyvalue)) (keepOriginalFields : bool)
  (perItemValues : option (dict (dict pyvalue))) : result record_set :=
  raw <- py_subscript data "results" ;;
  items <- py_iter raw ;;
  results <-
    for_each
      (fun results item =>
         study <- py_subscript item "Study" ;;
         flat <- flatten_call study ;;
         ' (normalized_item, item) <-
           ClinicalTrials_addGen3ExpectedFields (VDict flat) mappings
             keepOriginalFields ;;
         id <- py_subscript item "NCTId" ;;
         k <- hash_key id ;;
         Ok (rs_set k (discovery_metadata normalized_item) results))
      items [] ;;
  Ok (apply_perItemValues results perItemValues).

Definition PDAPS_normalizeToGen3MDSFields (data : pyvalue)
  (mappings : option (dict pyvalue)) (keepOriginalFields : bool)
  (perItemValues : option (dict (dict pyvalue))) : result record_set :=
  raw <- py_subscript data "results" ;;
  items <- py_iter raw ;;
  results <-
    for_each
      (fun results item =>
         ' (normalized_item, item) <-
           PDAPS_addGen3ExpectedFields item mappings keepOriginalFields ;;
         has_id <- py_contains "display_id" item ;;
         if negb has_id then Ok results
         else
           id <- py_subscript item "display_id" ;;
           k <- hash_key id ;;
           Ok (rs_set k (discovery_metadata normalized_item) results))
      items [] ;;
  Ok (apply_perItemValues results perItemValues).

End Libraries.

(** ** ClinicalTrials.getRemoteDataAsJson *)

(** An HTTP response: the status and what [response.json()] gives. *)
Record response : Type := {
  status_code : Z;
  json : result pyvalue
}.

(** [kwargs["filters"]] of the ClinicalTrials adapter; an absent key is
    [None]. *)
Record ct_filters : Type := {
  term : option string;
  batchSize : option Z;
  maxItems : option Z
}.

(** The variables of the paging loop. *)
Record paging : Type := {
  offset : Z;
  remaining : Z;
  limit : Z;
  cap : option Z;
  results : list pyvalue
}.

(** How one turn of the loop ends: the loop goes on, or the function
    returns ([break] and [return results] both return [results]). *)
Inductive control : Type :=
| Next (s : paging)
| Return (results : list pyvalue).

Section Fetch.

(** [httpx.get] of the URL built from the search term and the two ranks,
    [min_rnk] and [max_rnk]. *)
Variable httpx_get : string -> Z -> Z -> response.

Definition loop_body (term : string) (batchSize : Z) (s : paging)
  : result control :=
  let response := httpx_get term (offset s) (offset s + limit s - 1) in
  if Z.eqb (status_code response) 200 then
    data <- json response ;;
    has_key <- py_contains "FullStudiesResponse" data ;;
    if negb has_key then Raise ValueError
    else
      full <- py_subscript data "FullStudiesResponse" ;;
      found <- py_subscript full "NStudiesFound" ;;
      if eq_zero found then Ok (Return (results s))
      else
        ' (remaining, maxItems) <-
          (if Z.eqb (offset s) 1 then
             remaining <- as_int found ;;
             Ok (remaining,
                 match cap s with
                 | Some maxItems =>
                     Some (if Z.ltb maxItems remaining
                           then maxItems else remaining)
                 | None => None
                 end)
           else Ok (remaining s, cap s)) ;;
        returned <- py_subscript full "NStudiesReturned" ;;
        studies <- py_subscript full "FullStudies" ;;
        batch <- py_iter studies ;;
        let results := (results s ++ batch)%list in
        if match maxItems with
           | Some maxItems => Z.geb (Z.of_nat (List.length results)) maxItems
           | None => false
           end
        then Ok (Return results)
        else
          numReturned <- as_int returned ;;
          let remaining := (remaining - numReturned)%Z in
          Ok (Next {| offset := offset s + numReturned;
                      remaining := remaining;
                      limit := Z.min remaining batchSize;
                      cap := maxItems;
                      results := results |})
  else Raise ValueError.

(** [while remaining > 0] inside the [try]: whatever is raised comes out
    as a [ValueError].  [None] when the fuel runs out first. *)
Fixpoint paging_loop (fuel : nat) (term : string) (batchSize : Z) (s : paging)
  : option (result (list pyvalue)) :=
  match fuel with
  | O => None
  | S fuel' =>
      if Z.ltb 0 (remaining s) then
        match loop_body term batchSize s with
        | Raise _ => Some (Raise ValueError)
        | Ok (Return results) => Some (Ok results)
        | Ok (Next s') => paging_loop fuel' term batchSize s'
        end
      else Some (Ok (results s))
  end.

(** The list returned is [results["results"]]. *)
Definition ClinicalTrials_getRemoteDataAsJson (fuel : nat)
  (filters : option ct_filters) : option (result (list pyvalue)) :=
  match filters with
  | None => Some (Ok [])
  | Some f =>
      match term f with
      | None => Some (Raise AttributeError)
      | Some term =>
          let term := replace " " "+" term in
          let batchSize :=
            match batchSize f with Some b => b | None => 100%Z end in
          let limit :=
            match maxItems f with
            | Some maxItems => Z.min maxItems batchSize
            | None => batchSize
            end in
          paging_loop fuel term batchSize
            {| offset := 1; remaining := 1; limit := limit;
               cap := maxItems f; results := [] |}
      end
  end.

End Fetch.

(** A well-behaved server: it holds [studies], ranked from 1, and answers
    a request with the studies whose rank is in the range asked for. *)
Definition page (studies : list pyvalue) (min_rnk max_rnk : Z) : list pyvalue :=
  firstn (Z.to_nat (max_rnk - min_rnk + 1))
    (skipn (Z.to_nat (min_rnk - 1)) studies).

Definition full_studies_server (studies : list pyvalue) (term : string)
  (min_rnk max_rnk : Z) : response :=
  let batch := page studies min_rnk max_rnk in
  {| status_code := 200;
     json :=
       Ok (VDict
             [("FullStudiesResponse",
               VDict
                 [("NStudiesFound", VInt (Z.of_nat (List.length studies)));
                  ("NStudiesReturned", VInt (Z.of_nat (List.length batch)));
                  ("FullStudies", VList batch)])]) |}.

(** The state of the loop after the first [n] studies, the cap being
    [reach]. *)
Definition after (studies : list pyvalue) (batchSize reach : Z) (n : nat)
  : paging :=
  {| offset := 1 + Z.of_nat n;
     remaining := Z.of_nat (List.length studies) - Z.of_nat n;
     limit := Z.min (Z.of_nat (List.length studies) - Z.of_nat n) batchSize;
     cap := Some reach;
     results := firstn n studies |}.

(** The number of studies a fetch with a cap returns, of [found] on the
    server: the cap itself, the smaller of [maxItems] and [found], when
    [maxItems] fits in one batch; otherwise the whole batches that it
    takes to reach the cap, or all the studies when there are no more. *)
Definition fetched (found batchSize maxItems : Z) : Z :=
  let reach := Z.min maxItems found in
  if Z.leb maxItems batchSize then reach
  else Z.min found (batchSize * ((reach + batchSize - 1) / batchSize)).

Definition capped (term : string) (batchSize maxItems : Z) : option ct_filters :=
  Some {| term := Some term;
          batchSize := Some batchSize;
          maxItems := Some maxItems |}.

(** Truncation at the cap: with [maxItems] set, the fetch from a
    well-behaved server returns [maxItems] items at most. *)
Definition truncates_at_cap : Prop :=
  forall (studies : list pyvalue) (term : string) (batchSize maxItems : Z)
         (fuel : nat) (results : list pyvalue),
    ClinicalTrials_getRemoteDataAsJson (full_studies_server studies) fuel
      (capped term batchSize maxItems) = Some (Ok results) ->
    (Z.of_nat (List.length results) <= maxItems)%Z.

End Adapters.

(* ================================================================== *)
(** * query.py: the rich filter *)
(* ================================================================== *)

Module Query.

Declare Scope peg_scope.
Delimit Scope peg_scope with peg.
Notation "x <~ m ;; k" :=
  (match m with Some x => k | None => None end)
  (at level 61, m at next level, right associativity) : peg_scope.
Notation "' pat <~ m ;; k" :=
  (match m with Some pat => k | None => None end)
  (at level 61, pat pattern, m at next level, right associativity) : peg_scope.
Open Scope peg_scope.

(** ** The grammar of [parse_filter]

    Every rule is a function from the text still to be read to the text it
    matched and the text left, or [None] when it does not match there.
    Sequences, ordered choices and greedy repetitions are those of the
    grammar, rule by rule. *)

Definition dquote : ascii := ascii_of_nat 34.

Definition in_range (lo hi : nat) (c : ascii) : bool :=
  Nat.leb lo (nat_of_ascii c) && Nat.leb (nat_of_ascii c) hi.

(** The character classes of [digit] and [digit1to9] *)
Definition is_digit (c : ascii) : bool := in_range 48 57 c.
Definition is_digit1to9 (c : ascii) : bool := in_range 49 57 c.

(** The ASCII characters of the class of [json_key]: letters of either
    case, space, digits, underscore and dot *)
Definition is_ascii_key_char (c : ascii) : bool :=
  in_range 65 90 c || in_range 97 122 c || Ascii.eqb c " "
  || is_digit c || Ascii.eqb c "_" || Ascii.eqb c ".".

(** The length of the first of [letters], the empty string apart, that
    the text starts with. *)
Fixpoint key_letter (letters : list string) (s : string) : option nat :=
  match letters with
  | [] => None
  | l :: rest =>
      if negb (String.eqb l "") && String.prefix l s
      then Some (String.length l)
      else key_letter rest s
  end.

(** The greedy repetition of the class of [json_key]: an ASCII character
    of the class, or one of [letters]; [skip] counts the bytes still to
    take of the letter that was found. *)
Fixpoint key_scan (letters : list string) (s : string) (skip : nat)
  : string * string :=
  match s with
  | EmptyString => (EmptyString, EmptyString)
  | String c rest =>
      match skip with
      | S n => let (m, r) := key_scan letters rest n in (String c m, r)
      | O =>
          if is_ascii_key_char c
          then let (m, r) := key_scan letters rest 0 in (String c m, r)
          else
            match key_letter letters s with
            | Some (S n) =>
                let (m, r) := key_scan letters rest n in (String c m, r)
            | _ => (EmptyString, s)
            end
      end
  end.

Definition matcher : Type := string -> option (string * string).

Fixpoint strip_prefix (t s : string) : option string :=
  match t with
  | EmptyString => Some s
  | String a t' =>
      match s with
      | String b s' => if Ascii.eqb a b then strip_prefix t' s' else None
      | EmptyString => None
      end
  end.

Definition literal (t : string) : matcher :=
  fun s => rest <~ strip_prefix t s ;; Some (t, rest).

Fixpoint take_while (p : ascii -> bool) (s : string) : string * string :=
  match s with
  | String c rest =>
      if p c
      then let (m, r) := take_while p rest in (String c m, r)
      else (EmptyString, s)
  | EmptyString => (EmptyString, EmptyString)
  end.

Definition one_of (p : ascii -> bool) : matcher :=
  fun s =>
    match s with
    | String c rest => if p c then Some (String c EmptyString, rest) else None
    | EmptyString => None
    end.

Definition seq (p q : matcher) : matcher :=
  fun s =>
    ' (a, r) <~ p s ;; ' (b, r') <~ q r ;; Some ((a ++ b)%string, r').

Definition alt (p q : matcher) : matcher :=
  fun s => match p s with Some m => Some m | None => q s end.

Definition optional (p : matcher) : matcher :=
  fun s => match p s with Some m => Some m | None => Some (EmptyString, s) end.

Definition open : matcher := literal "(".
Definition close : matcher := literal ")".
Definition separator : matcher := literal ",".

Section Engine.

(** A string is the UTF-8 encoding of the Python string.  The class of
    [json_key = ~"[A-Z 0-9_.]*"i] ignores case, and so has, beside the
    ASCII characters, the few characters beyond ASCII that the regular
    expression engine folds onto an ASCII letter (U+017F and U+212A; for
    the [re] module U+0130 and U+0131 as well): [key_letters] are their
    encodings. *)
Variable key_letters : list string.

(** [Grammar.parse] recurses on the stack of the interpreter, one rule
    inside the other, and raises a [RecursionError] when the stack is
    used up: [stack_exhausted text] says whether parsing [text] does. *)
Variable stack_exhausted : string -> bool.

Definition json_key : matcher := fun s => Some (key_scan key_letters s 0).

Definition scalar_operator : matcher :=
  alt (literal ":eq") (alt (literal ":ne") (alt (literal ":gte")
    (alt (literal ":gt") (alt (literal ":lte") (alt (literal ":lt")
      (literal ":like")))))).

Definition compound_operator : matcher := alt (literal ":all") (literal ":any").

Definition boolean : matcher := alt (literal "and") (literal "or").

(** [digit+] *)
Definition digits : matcher :=
  fun s =>
    match take_while is_digit s with
    | (EmptyString, _) => None
    | m => Some m
    end.

Definition digit : matcher := one_of is_digit.
Definition digit1to9 : matcher := one_of is_digit1to9.

Definition int : matcher :=
  seq (optional (literal "-")) (alt (seq digit1to9 digits) digit).

Definition frac : matcher := seq (literal ".") digits.

Definition e : matcher :=
  alt (literal "e+") (alt (literal "e-") (alt (literal "e")
    (alt (literal "E+") (alt (literal "E-") (literal "E"))))).

Definition exp : matcher := seq e digits.

Definition number : matcher :=
  alt (seq int (seq frac exp)) (alt (seq int exp) (alt (seq int frac) int)).

Definition true_false_null : matcher :=
  alt (literal "true") (alt (literal "false") (literal "null")).

(** [double_string]: a double quote, any characters but a double quote,
    a double quote *)
Definition double_string : matcher :=
  fun s =>
    match s with
    | String c rest =>
        if Ascii.eqb c dquote then
          let (body, after) := take_while (fun x => negb (Ascii.eqb x dquote)) rest in
          match after with
          | String c' rest' =>
              if Ascii.eqb c' dquote
              then Some (String dquote (body ++ String dquote EmptyString), rest')
              else None
          | EmptyString => None
          end
        else None
    | EmptyString => None
    end.

Definition json_value : matcher :=
  alt double_string (alt true_false_null number).

(** The parse tree, with the text of the leaves the visitor reads. *)
Record scalar_node : Type := {
  node_key : string;
  node_operator : string;
  node_value : string
}.

#[local] Unset Elimination Schemes.
Inductive node : Type :=
| scalar_filter_node (s : scalar_node)
| compound_filter_node (key operator : string) (inner : scalar_node)
| boolean_filter_node (boolean : string) (operands : list node).
#[local] Set Elimination Schemes.

Definition scalar_filter (s : string) : option (scalar_node * string) :=
  ' (_, r1) <~ open s ;;
  ' (k, r2) <~ json_key r1 ;;
  ' (_, r3) <~ separator r2 ;;
  ' (op, r4) <~ scalar_operator r3 ;;
  ' (_, r5) <~ separator r4 ;;
  ' (v, r6) <~ json_value r5 ;;
  ' (_, r7) <~ close r6 ;;
  Some ({| node_key := k; node_operator := op; node_value := v |}, r7).

Definition compound_filter (s : string) : option (node * string) :=
  ' (_, r1) <~ open s ;;
  ' (k, r2) <~ json_key r1 ;;
  ' (_, r3) <~ separator r2 ;;
  ' (op, r4) <~ compound_operator r3 ;;
  ' (_, r5) <~ separator r4 ;;
  ' (inner, r6) <~ scalar_filter r5 ;;
  ' (_, r7) <~ close r6 ;;
  Some (compound_filter_node k op inner, r7).

(** [boolean_operand = separator specific_filter] *)
Definition boolean_operand (specific : string -> option (node * string))
  (s : string) : option (node * string) :=
  ' (_, r) <~ separator s ;; specific r.

(** The greedy repetition of [boolean_operand], at most [n] times. *)
Fixpoint operands_star (specific : string -> option (node * string))
  (n : nat) (s : string) : list node * string :=
  match n with
  | O => ([], s)
  | S n' =>
      match boolean_operand specific s with
      | Some (x, rest) =>
          let (xs, rest') := operands_star specific n' rest in (x :: xs, rest')
      | None => ([], s)
      end
  end.

(** [boolean_operands = boolean_operand+] *)
Definition boolean_operands (specific : string -> option (node * string))
  (n : nat) (s : string) : option (list node * string) :=
  match operands_star specific n s with
  | ([], _) => None
  | found => Some found
  end.

Definition boolean_filter (specific : string -> option (node * string))
  (n : nat) (s : string) : option (node * string) :=
  ' (_, r1) <~ open s ;;
  ' (b, r2) <~ boolean r1 ;;
  ' (operands, r3) <~ boolean_operands specific n r2 ;;
  ' (_, r4) <~ close r3 ;;
  Some (boolean_filter_node b operands, r4).

(** [scalar_filter / compound_filter / boolean_filter], the body of both
    [filter] and [specific_filter]. *)
Definition choice (specific : string -> option (node * string))
  (n : nat) (s : string) : option (node * string) :=
  match scalar_filter s with
  | Some (sc, rest) => Some (scalar_filter_node sc, rest)
  | None =>
      match compound_filter s with
      | Some found => Some found
      | None => boolean_filter specific n s
      end
  end.

(** [fuel] bounds the nesting of boolean filters and the number of
    operands of each; both are below the length of the text. *)
Fixpoint specific_filter (fuel : nat) (s : string) : option (node * string) :=
  match fuel with
  | O => None
  | S fuel' => choice (specific_filter fuel') fuel' s
  end.

Definition filter (fuel : nat) (s : string) : option (node * string) :=
  choice (specific_filter fuel) fuel s.

(** What the grammar makes of a text: the first rule must match, and
    match all the text. *)
Definition grammar_match (text : string) : result node :=
  match filter (String.length text) text with
  | None => Raise ParseError
  | Some (tree, EmptyString) => Ok tree
  | Some (_, String _ _) => Raise IncompleteParseError
  end.

(** [Grammar.parse]: what the grammar makes of the text, when the stack
    holds. *)
Definition grammar_parse (text : string) : result node :=
  if stack_exhausted text then Raise RecursionError else grammar_match text.

(** [parse_filter]: [None] for the empty filter string. *)
Definition parse_filter (filter_string : string) : result (option node) :=
  match filter_string with
  | EmptyString => Ok None
  | _ => tree <- grammar_parse filter_string ;; Ok (Some tree)
  end.

(** ** The filter dict the visitor builds *)

#[local] Unset Elimination Schemes.
Inductive filter_dict : Type :=
| scalar_dict (name op : string) (val : pyvalue)
| compound_dict (name op : string) (val_name val_op : string) (val_val : pyvalue)
| boolean_dict (boolean : string) (operands : list filter_dict).
#[local] Set Elimination Schemes.

(** ** The clause the filter compiles to *)

Inductive comparator : Type := Ceq | Cne | Cgt | Cge | Clt | Cle | Clike.

Inductive quantifier : Type := All | Any.

(** An entry of the [operators] dict: a [sql_comparator], of type text or
    not, or a [sql_clause]. *)
Inductive operator_entry : Type :=
| sql_comparator (text : bool) (c : comparator)
| sql_clause (q : quantifier).

Definition operators : dict operator_entry :=
  [(":eq", sql_comparator false Ceq);
   (":ne", sql_comparator false Cne);
   (":gt", sql_comparator false Cgt);
   (":gte", sql_comparator false Cge);
   (":lt", sql_comparator false Clt);
   (":lte", sql_comparator false Cle);
   (":like", sql_comparator true Clike);
   (":all", sql_clause All);
   (":any", sql_clause Any)].

(** Left operands: [Metadata.data[path]], its [.astext], [column(f.name)]. *)
Inductive column_expr : Type :=
| json_object (path : list string)
| astext (path : list string)
| column_f.

(** Right operands: [cast(v, JSONB)] or the Python value as it is bound. *)
Inductive operand_expr : Type :=
| cast_JSONB (v : pyvalue)
| bound (v : pyvalue).

(** [db.func.jsonb_array_elements] and [db.func.jsonb_array_elements_text] *)
Inductive elements_fn : Type :=
| jsonb_array_elements
| jsonb_array_elements_text.

#[local] Unset Elimination Schemes.
Inductive clause : Type :=
| compare (c : comparator) (l : column_expr) (r : operand_expr)
| exists_select (f : elements_fn) (target : list string) (where_ : clause)
| length_eq_count (target : list string) (f : elements_fn) (where_ : clause)
| and_ (clauses : list clause)
| or_ (clauses : list clause).
#[local] Set Elimination Schemes.

Definition operator (name : string) : result operator_entry :=
  dict_item name operators.

(** ["type" in operators[name] and operators[name]["type"] == "text"] *)
Definition is_text (entry : operator_entry) : bool :=
  match entry with
  | sql_comparator text _ => text
  | sql_clause _ => false
  end.

Definition get_sql_comparator (entry : operator_entry) : result comparator :=
  match entry with
  | sql_comparator _ c => Ok c
  | sql_clause _ => Raise (KeyError (VStr "sql_comparator"))
  end.

Definition get_sql_clause (entry : operator_entry) : result quantifier :=
  match entry with
  | sql_clause q => Ok q
  | sql_comparator _ _ => Raise (KeyError (VStr "sql_clause"))
  end.

(** The part [get_any_sql_clause] and [get_all_sql_clause] share: the
    elements function and the [where] comparison on its column. *)
Definition elements_where (scalar_operator_name : string)
  (scalar_right_operand : pyvalue) : result (elements_fn * clause) :=
  entry <- operator scalar_operator_name ;;
  let (f, operand) :=
    if is_text entry
    then (jsonb_array_elements_text, bound scalar_right_operand)
    else (jsonb_array_elements, cast_JSONB scalar_right_operand) in
  entry' <- operator scalar_operator_name ;;
  c <- get_sql_comparator entry' ;;
  Ok (f, compare c column_f operand).

Definition get_any_sql_clause (target_json_key : list string)
  (scalar_operator_name : string) (scalar_right_operand : pyvalue)
  : result clause :=
  ' (f, w) <- elements_where scalar_operator_name scalar_right_operand ;;
  Ok (exists_select f target_json_key w).

Definition get_all_sql_clause (target_json_key : list string)
  (scalar_operator_name : string) (scalar_right_operand : pyvalue)
  : result clause :=
  ' (f, w) <- elements_where scalar_operator_name scalar_right_operand ;;
  Ok (length_eq_count target_json_key f w).

(** [add_filter] on a scalar right operand *)
Definition add_scalar_filter (target_key operator_name : string)
  (right_operand : pyvalue) : result clause :=
  let path := split "." target_key in
  entry <- operator operator_name ;;
  let (l, r) :=
    if is_text entry
    then (astext path, bound right_operand)
    else (json_object path, cast_JSONB right_operand) in
  entry' <- operator operator_name ;;
  c <- get_sql_comparator entry' ;;
  Ok (compare c l r).

(** [add_filter] on a dict right operand *)
Definition add_compound_filter (target_key operator_name : string)
  (op : string) (val : pyvalue) : result clause :=
  let path := split "." target_key in
  entry <- operator operator_name ;;
  q <- get_sql_clause entry ;;
  match q with
  | All => get_all_sql_clause path op val
  | Any => get_any_sql_clause path op val
  end.

Fixpoint get_sqlalchemy_clause (d : filter_dict) : result clause :=
  match d with
  | boolean_dict boolean operands =>
      let boolean_operand_clauses :=
        (fix each (l : list filter_dict) : result (list clause) :=
           match l with
           | [] => Ok []
           | c :: rest =>
               x <- get_sqlalchemy_clause c ;;
               xs <- each rest ;;
               Ok (x :: xs)
           end) operands in
      if String.eqb boolean "and" then
        cs <- boolean_operand_clauses ;; Ok (and_ cs)
      else if String.eqb boolean "or" then
        cs <- boolean_operand_clauses ;; Ok (or_ cs)
      else Raise RuntimeError
  | scalar_dict name op val => add_scalar_filter name op val
  | compound_dict name op _ val_op val_val =>
      add_compound_filter name op val_op val_val
  end.

(** The operators of the table by kind. *)
Definition is_scalar_operator (name : string) : bool :=
  match operator name with
  | Ok (sql_comparator _ _) => true
  | _ => false
  end.

Definition is_compound_operator (name : string) : bool :=
  match operator name with
  | Ok (sql_clause _) => true
  | _ => false
  end.

Definition is_boolean (name : string) : bool :=
  String.eqb name "and" || String.eqb name "or".

(** The shape the grammar gives a parse tree, and the visitor a filter
    dict: operators of the right kind in their places, [and] or [or] over
    operands of that shape. *)
Fixpoint node_ok (tree : node) : bool :=
  match tree with
  | scalar_filter_node s => is_scalar_operator (node_operator s)
  | compound_filter_node _ operator inner =>
      is_compound_operator operator && is_scalar_operator (node_operator inner)
  | boolean_filter_node boolean operands =>
      is_boolean boolean && forallb node_ok operands
  end.

Fixpoint dict_ok (d : filter_dict) : bool :=
  match d with
  | scalar_dict _ op _ => is_scalar_operator op
  | compound_dict _ op _ val_op _ =>
      is_compound_operator op && is_scalar_operator val_op
  | boolean_dict boolean operands =>
      is_boolean boolean && forallb dict_ok operands
  end.

(** A rule leaves no more text than it was given; a filter rule takes
    some of it; a filter rule gives trees of the right shape. *)
Definition shrinks (p : matcher) : Prop :=
  forall s m r, p s = Some (m, r) -> String.length r <= String.length s.

Definition consumes (f : string -> option (node * string)) : Prop :=
  forall s x r, f s = Some (x, r) -> String.length r < String.length s.

Definition sound (f : string -> option (node * string)) : Prop :=
  forall s x r, f s = Some (x, r) -> node_ok x = true.

(** The query handed to the store. *)
Record query : Type := {
  with_data : bool;
  where_ : option clause;
  query_offset : Z;
  query_limit : Z
}.

Definition invalid_syntax : exn :=
  HTTPException 400 "filter URL query param syntax is invalid".

Section Decoder.

(** [json.loads] on the text of a [json_value] node. *)
Variable json_loads : string -> result pyvalue.

(** A visitor method that raises comes out as a [VisitationError]. *)
Definition visit_json_value (text : string) : result pyvalue :=
  match json_loads text with
  | Ok v => Ok v
  | Raise _ => Raise VisitationError
  end.

Fixpoint visit (tree : node) : result filter_dict :=
  match tree with
  | scalar_filter_node s =>
      v <- visit_json_value (node_value s) ;;
      Ok (scalar_dict (node_key s) (node_operator s) v)
  | compound_filter_node key operator inner =>
      v <- visit_json_value (node_value inner) ;;
      Ok (compound_dict key operator (node_key inner) (node_operator inner) v)
  | boolean_filter_node boolean operands =>
      children <-
        (fix each (l : list node) : result (list filter_dict) :=
           match l with
           | [] => Ok []
           | n :: rest =>
               x <- visit n ;; xs <- each rest ;; Ok (x :: xs)
           end) operands ;;
      Ok (boolean_dict boolean children)
  end.

(** The [try] block: the filter dict, [None] for [{}]. *)
Definition filter_dict_of (filter : string) : result (option filter_dict) :=
  filter_tree <- parse_filter filter ;;
  match filter_tree with
  | Some tree => d <- visit tree ;; Ok (Some d)
  | None => Ok None
  end.

(** [search_metadata_helper] up to the query it awaits. *)
Definition search_metadata_helper (data : bool) (page limit : Z)
  (filter : string) : result query :=
  let limit := Z.min limit 2000 in
  match filter_dict_of filter with
  | Raise IncompleteParseError | Raise ParseError | Raise VisitationError =>
      Raise invalid_syntax
  | Raise other => Raise other
  | Ok filter_dict =>
      where_clause <-
        match filter_dict with
        | Some d => c <- get_sqlalchemy_clause d ;; Ok (Some c)
        | None => Ok None
        end ;;
      Ok {| with_data := data;
            where_ := where_clause;
            query_offset := page * limit;
            query_limit := limit |}
  end.

End Decoder.

End Engine.

(** ** What the store makes of a clause *)

(** SQL values: NULL, a JSONB value, a text, a bound Python value. *)
Inductive sqlval : Type :=
| SNull
| SJsonb (v : pyvalue)
| SText (s : string)
| SBound (v : pyvalue).

Section Store.

(** The [#>] path operator on a document ([None] is NULL), the text of a
    JSONB value ([None] for JSON null) and the comparison operators of
    the store, three-valued. *)
Variable extract_path : pyvalue -> list string -> option pyvalue.
Variable jsonb_text : pyvalue -> option string.
Variable sql_compare : comparator -> sqlval -> sqlval -> option bool.

Definition text_value (v : pyvalue) : sqlval :=
  match jsonb_text v with
  | Some s => SText s
  | None => SNull
  end.

Definition eval_column (doc : pyvalue) (row : sqlval) (l : column_expr)
  : sqlval :=
  match l with
  | json_object path =>
      match extract_path doc path with Some v => SJsonb v | None => SNull end
  | astext path =>
      match extract_path doc path with Some v => text_value v | None => SNull end
  | column_f => row
  end.

Definition eval_operand (r : operand_expr) : sqlval :=
  match r with
  | cast_JSONB v => SJsonb v
  | bound v => SBound v
  end.

(** [jsonb_array_length(target)]: NULL on NULL, an error on a value that
    is not an array. *)
Definition array_length (doc : pyvalue) (target : list string)
  : result (option nat) :=
  match extract_path doc target with
  | None => Ok None
  | Some (VList l) => Ok (Some (List.length l))
  | Some _ => Raise DataError
  end.

(** The rows of [f(target)]: none on NULL. *)
Definition element_rows (f : elements_fn) (doc : pyvalue)
  (target : list string) : result (list sqlval) :=
  match extract_path doc target with
  | None => Ok []
  | Some (VList l) =>
      Ok (map (match f with
               | jsonb_array_elements => SJsonb
               | jsonb_array_elements_text => text_value
               end) l)
  | Some _ => Raise DataError
  end.

Definition is_true (b : option bool) : bool :=
  match b with Some true => true | _ => false end.

Definition is_false (b : option bool) : bool :=
  match b with Some false => true | _ => false end.

Definition is_null (b : option bool) : bool :=
  match b with None => true | _ => false end.

(** Three-valued AND and OR over a list. *)
Definition sql_and (l : list (option bool)) : option bool :=
  if existsb is_false l then Some false
  else if existsb is_null l then None else Some true.

Definition sql_or (l : list (option bool)) : option bool :=
  if existsb is_true l then Some true
  else if existsb is_null l then None else Some false.

Definition sequence {A} (l : list (result A)) : result (list A) :=
  for_each (fun acc m => x <- m ;; Ok (acc ++ [x])) l [].

(** The truth value of a clause on a document; [row] is the current row
    of the elements function inside a sub-select. *)
Fixpoint eval (doc : pyvalue) (row : sqlval) (c : clause)
  : result (option bool) :=
  match c with
  | compare cmp l r =>
      Ok (sql_compare cmp (eval_column doc row l) (eval_operand r))
  | exists_select f target w =>
      rows <- element_rows f doc target ;;
      kept <- sequence (map (fun r => eval doc r w) rows) ;;
      Ok (Some (existsb is_true kept))
  | length_eq_count target f w =>
      count_f <- array_length doc target ;;
      rows <- element_rows f doc target ;;
      kept <- sequence (map (fun r => eval doc r w) rows) ;;
      Ok (match count_f with
          | Some n => Some (Nat.eqb n (List.length (List.filter is_true kept)))
          | None => None
          end)
  | and_ clauses =>
      vs <- sequence (map (eval doc row) clauses) ;;
      Ok (sql_and vs)
  | or_ clauses =>
      vs <- sequence (map (eval doc row) clauses) ;;
      Ok (sql_or vs)
  end.

(** An array element satisfies the scalar comparison [op operand]: the
    comparison a scalar filter with that operator makes, on the element's
    text for an operator of type text and on the element otherwise, is
    true. *)
Definition satisfies (op : string) (operand element : pyvalue) : bool :=
  match operator op with
  | Ok (sql_comparator true c) =>
      is_true (sql_compare c (text_value element) (SBound operand))
  | Ok (sql_comparator false c) =>
      is_true (sql_compare c (SJsonb element) (SJsonb operand))
  | _ => false
  end.

(** Whether a row qualifies for a query: it does when the query has no
    [where] clause, and when its [where] clause is true of the row. *)
Definition qualifies (q : query) (doc : pyvalue) : result bool :=
  match where_ q with
  | None => Ok true
  | Some w => v <- eval doc SNull w ;; Ok (is_true v)
  end.

End Store.

End Query.

(* ================================================================== *)
(** * Small stand-ins for the libraries, to run the code on examples *)
(* ================================================================== *)

Module Samples.

(** ** Path expressions: names joined by dots, each followed by any
    number of [[n]] or [[*]]; blanks around a step are skipped. *)

Inductive step : Type :=
| Child (name : string)
| Index (i : nat)
| Star.

Inductive lex_state : Type := AtStart | InName | AfterStep | InBracket.

Definition is_name_char (c : ascii) : bool :=
  Query.in_range 65 90 c || Query.in_range 97 122 c || Query.is_digit c
  || Ascii.eqb c "_".

Fixpoint nat_of_digits (s : string) (acc : nat) : option nat :=
  match s with
  | EmptyString => Some acc
  | String c rest =>
      if Query.is_digit c
      then nat_of_digits rest (10 * acc + (nat_of_ascii c - 48))
      else None
  end.

Definition bracket (content : string) : option step :=
  match content with
  | EmptyString => None
  | String c EmptyString =>
      if Ascii.eqb c "*" then Some Star
      else option_map Index (nat_of_digits content 0)
  | _ => option_map Index (nat_of_digits content 0)
  end.

Definition push (cur : string) (c : ascii) : string :=
  (cur ++ String c EmptyString)%string.

Fixpoint scan (s : string) (st : lex_state) (cur : string) (acc : list step)
  : option (list step) :=
  match s with
  | EmptyString =>
      match st with
      | InName => Some (acc ++ [Child cur])
      | AfterStep => Some acc
      | _ => None
      end
  | String c rest =>
      match st with
      | AtStart =>
          if Ascii.eqb c " " then scan rest AtStart cur acc
          else if is_name_char c then scan rest InName (push cur c) acc
          else None
      | InName =>
          if is_name_char c then scan rest InName (push cur c) acc
          else if Ascii.eqb c "." then scan rest AtStart "" (acc ++ [Child cur])
          else if Ascii.eqb c "[" then scan rest InBracket "" (acc ++ [Child cur])
          else if Ascii.eqb c " " then scan rest AfterStep "" (acc ++ [Child cur])
          else None
      | AfterStep =>
          if Ascii.eqb c "." then scan rest AtStart "" acc
          else if Ascii.eqb c "[" then scan rest InBracket "" acc
          else if Ascii.eqb c " " then scan rest AfterStep "" acc
          else None
      | InBracket =>
          if Ascii.eqb c "]" then
            match bracket cur with
            | Some found => scan rest AfterStep "" (acc ++ [found])
            | None => None
            end
          else scan rest InBracket (push cur c) acc
      end
  end.

Definition parse (expression : pyvalue) : result (list step) :=
  match expression with
  | VStr s =>
      match scan s AtStart "" [] with
      | Some p => Ok p
      | None => Raise JsonPathParseError
      end
  | _ => Raise TypeError
  end.

Definition matches (s : step) (v : pyvalue) : list pyvalue :=
  match s, v with
  | Child name, VDict d =>
      match dict_get name d with Some x => [x] | None => [] end
  | Index i, VList l =>
      match nth_error l i with Some x => [x] | None => [] end
  | Star, VList l => l
  | Star, VDict d => map snd d
  | _, _ => []
  end.

Definition find (p : list step) (item : pyvalue) : list pyvalue :=
  fold_left (fun found s => flat_map (matches s) found) p [item].

(** ** Markup removal: what is between [<] and [>] goes. *)
Fixpoint strip_tags (in_tag : bool) (s : string) : string :=
  match s with
  | EmptyString => EmptyString
  | String c rest =>
      if in_tag then strip_tags (negb (Ascii.eqb c ">")) rest
      else if Ascii.eqb c "<" then strip_tags true rest
      else String c (strip_tags false rest)
  end.

Definition bleach_clean (s : string) : string := strip_tags false s.

Definition repr (v : pyvalue) : string := "".

(** The adapters over these stand-ins. *)
Definition get_json_path_value : pyvalue -> pyvalue -> result pyvalue :=
  Adapters.get_json_path_value (list step) parse find.

Definition mapFields : pyvalue -> dict pyvalue -> result (dict pyvalue) :=
  Adapters.mapFields bleach_clean (list step) parse find.

(** ** A JSON decoder for [true], [false], [null], unsigned integers and
    strings without a backslash. *)
Definition json_loads (text : string) : result pyvalue :=
  if String.eqb text "true" then Ok (VBool true)
  else if String.eqb text "false" then Ok (VBool false)
  else if String.eqb text "null" then Ok VNone
  else
    match text with
    | String c rest =>
        if Ascii.eqb c Query.dquote then
          let (body, _) :=
            Query.take_while (fun x => negb (Ascii.eqb x Query.dquote)) rest in
          if str_in "\" body then Raise ValueError else Ok (VStr body)
        else
          match nat_of_digits text 0 with
          | Some n => Ok (VInt (Z.of_nat n))
          | None => Raise ValueError
          end
    | EmptyString => Raise ValueError
    end.

(** ** A store of nested objects that compares JSON integers and strings
    for equality and knows no other comparison. *)
Fixpoint extract_path (doc : pyvalue) (path : list string) : option pyvalue :=
  match path with
  | [] => Some doc
  | k :: rest =>
      match doc with
      | VDict d =>
          match dict_get k d with
          | Some v => extract_path v rest
          | None => None
          end
      | _ => None
      end
  end.

Definition jsonb_text (v : pyvalue) : option string :=
  match v with
  | VStr s => Some s
  | _ => None
  end.

Definition sql_compare (c : Query.comparator) (l r : Query.sqlval)
  : option bool :=
  match c, l, r with
  | Query.Ceq, Query.SJsonb (VInt a), Query.SJsonb (VInt b) => Some (Z.eqb a b)
  | Query.Ceq, Query.SJsonb (VStr a), Query.SJsonb (VStr b) =>
      Some (String.eqb a b)
  | Query.Ceq, Query.SJsonb _, Query.SJsonb _ => Some false
  | _, _, _ => None
  end.

Definition eval : pyvalue -> Query.sqlval -> Query.clause -> result (option bool) :=
  Query.eval extract_path jsonb_text sql_compare.

(** ** The key letters beyond ASCII as the [regex] module has them, long
    s (U+017F) and the Kelvin sign (U+212A) in UTF-8, and a stack that
    more than a hundred open parentheses use up. *)
Definition long_s : string :=
  String (ascii_of_nat 197) (String (ascii_of_nat 191) EmptyString).

Definition kelvin_sign : string :=
  String (ascii_of_nat 226)
    (String (ascii_of_nat 132) (String (ascii_of_nat 170) EmptyString)).

Definition key_letters : list string := [long_s; kelvin_sign].

Fixpoint count_open (text : string) : nat :=
  match text with
  | EmptyString => 0
  | String c rest =>
      (if Ascii.eqb c "(" then 1 else 0) + count_open rest
  end.

Definition stack_exhausted (text : string) : bool :=
  Nat.ltb 100 (count_open text).

(** [s * n] *)
Fixpoint times (s : string) (n : nat) : string :=
  match n with
  | O => EmptyString
  | S n' => (s ++ times s n')%string
  end.

Definition search_metadata_helper
  : bool -> Z -> Z -> string -> result Query.query :=
  Query.search_metadata_helper key_letters stack_exhausted json_loads.

End Samples.

(* ================================================================== *)
(** * adapters.py: the fetches of ISCPSRDublin and PDAPS *)
(* ================================================================== *)

Module Fetchers.

Import Adapters.

(** A response read through [response.text]. *)
Record text_response : Type := {
  text_status : Z;
  text : string
}.

Section Http.

(** [httpx.get] of the URL built from one id; [Raise] when the request
    itself fails.  [xmltodict.parse] on the text of a response. *)
Variable httpx_get_json : pyvalue -> result response.
Variable httpx_get_text : pyvalue -> result text_response.
Variable xmltodict_parse : string -> result pyvalue.

(** The [try] of [PDAPS.getRemoteDataAsJson] for one dataset. *)
Definition PDAPS_dataset (id : pyvalue) : result pyvalue :=
  match
    (response <- httpx_get_json id ;;
     if Z.eqb (status_code response) 200 then json response
     else Raise ValueError)
  with
  | Ok body => Ok body
  | Raise _ => Raise ValueError
  end.

Definition PDAPS_getRemoteDataAsJson (filters : option (dict pyvalue))
  : result (list pyvalue) :=
  match filters with
  | None => Ok []
  | Some f =>
      match dict_get "datasets" f with
      | None | Some VNone => Ok []
      | Some datasets =>
          ids <- py_iter datasets ;;
          for_each
            (fun results id => body <- PDAPS_dataset id ;; Ok (results ++ [body]))
            ids []
      end
  end.

(** One turn of the loop of [ISCPSRDublin.getRemoteDataAsJson]. *)
Definition ISCPSRDublin_record (id : pyvalue) : result pyvalue :=
  response <- httpx_get_text id ;;
  if Z.eqb (text_status response) 200 then xmltodict_parse (text response)
  else Raise ValueError.

Definition ISCPSRDublin_getRemoteDataAsJson (filters : option (dict pyvalue))
  : result (list pyvalue) :=
  match filters with
  | None => Ok []
  | Some f =>
      let study_ids :=
        match dict_get "study_ids" f with Some v => v | None => VList [] end in
      n <- py_len study_ids ;;
      if Nat.ltb 0 n then
        ids <- py_iter study_ids ;;
        for_each
          (fun results id =>
             data_dict <- ISCPSRDublin_record id ;; Ok (results ++ [data_dict]))
          ids []
      else Ok []
  end.

End Http.

(** The state of the ClinicalTrials loop after the first [n] studies when
    no cap is set. *)
Definition uncapped (studies : list pyvalue) (batchSize : Z) (n : nat)
  : paging :=
  {| offset := 1 + Z.of_nat n;
     remaining := Z.of_nat (List.length studies) - Z.of_nat n;
     limit := Z.min (Z.of_nat (List.length studies) - Z.of_nat n) batchSize;
     cap := None;
     results := firstn n studies |}.

End Fetchers.

(* ================================================================== *)
(** * query.py: the plain search and the text of a parse tree *)
(* ================================================================== *)

Module Search.

Import Query.

(** ** search_metadata *)

(** [key in {"data", "limit", "offset"}] *)
Definition reserved (key : string) : bool :=
  String.eqb key "data" || String.eqb key "limit" || String.eqb key "offset".

(** [queries.setdefault(key, []).append(value)] over the query parameters
    that are not reserved. *)
Definition queries_of (multi_items : list (string * string))
  : dict (list string) :=
  fold_left
    (fun queries kv =>
       if reserved (fst kv) then queries
       else
         dict_set (fst kv)
           (match dict_get (fst kv) queries with
            | Some values => values ++ [snd kv]
            | None => [snd kv]
            end)
           queries)
    multi_items [].

(** The clause of one [query.where(...)] of [add_filter]. *)
Definition any_of (path : string) (values : list string) : clause :=
  or_ (map (fun v => compare Ceq (astext (split "." path)) (bound (VStr v)))
         values).

(** [add_filter]: one [where] after the other is their conjunction. *)
Definition search_metadata (data : bool) (limit offset : Z)
  (multi_items : list (string * string)) : query :=
  let limit := Z.min limit 2000 in
  let queries := queries_of multi_items in
  {| with_data := data;
     where_ :=
       match queries with
       | [] => None
       | _ => Some (and_ (map (fun pv => any_of (fst pv) (snd pv)) queries))
       end;
     query_offset := offset;
     query_limit := limit |}.

(** The values a list of parameters gives for one key, in order. *)
Definition values_of (key : string) (multi_items : list (string * string))
  : list string :=
  map snd (List.filter (fun kv => String.eqb key (fst kv)) multi_items).

(** ** The text a parse tree stands for *)

Definition scalar_text (s : scalar_node) : string :=
  ("(" ++ node_key s ++ "," ++ node_operator s ++ "," ++ node_value s ++ ")")%string.

Fixpoint tree_text (tree : node) : string :=
  match tree with
  | scalar_filter_node s => scalar_text s
  | compound_filter_node key operator inner =>
      ("(" ++ key ++ "," ++ operator ++ "," ++ scalar_text inner ++ ")")%string
  | boolean_filter_node boolean operands =>
      ("(" ++ boolean
       ++ (fix each (l : list node) : string :=
             match l with
             | [] => EmptyString
             | x :: rest => "," ++ tree_text x ++ each rest
             end) operands
       ++ ")")%string
  end.

(** A rule gives back what it matched and what it left. *)
Definition splits (p : matcher) : Prop :=
  forall s m r, p s = Some (m, r) -> s = (m ++ r)%string.

Definition splits_tree (f : string -> option (node * string)) : Prop :=
  forall s x r, f s = Some (x, r) -> s = (tree_text x ++ r)%string.

End Search.

(* ================================================================== *)
(** * populate.py: filter_entries *)
(* ================================================================== *)

Module Populate.

(** What [filter_entries] reads of [common]. *)
Record select_config : Type := {
  study_data_field : string;
  field_name : string;
  field_value : pyvalue
}.

Section Equality.

(** [a != b] on values is [negb (py_eq a b)]. *)
Variable py_eq : pyvalue -> pyvalue -> bool.

(** Whether the loop keeps an entry. *)
Definition keeps (common : select_config) (entry : pyvalue) : result bool :=
  has_data <- py_contains (study_data_field common) entry ;;
  if negb has_data then Ok false
  else
    study <- py_subscript entry (study_data_field common) ;;
    value <- py_get study (field_name common) VNone ;;
    match value with
    | VNone => Ok false
    | _ => Ok (py_eq (field_value common) value)
    end.

(** [mds_arr] is a list of one-entry dicts, [{key: entry}]. *)
Definition filter_entries (common : select_config)
  (mds_arr : list (string * pyvalue)) : result (list (string * pyvalue)) :=
  for_each
    (fun filtered x =>
       keep <- keeps common (snd x) ;;
       Ok (if keep then filtered ++ [x] else filtered))
    mds_arr [].

(** Whether an entry is one [filter_entries] keeps without raising. *)
Definition kept (common : select_config) (x : string * pyvalue) : bool :=
  match keeps common (snd x) with
  | Ok keep => keep
  | Raise _ => false
  end.

End Equality.

End Populate.

(* ================================================================== *)
(** * adapters.py: what every normalized record has *)
(* ================================================================== *)

Module Invariants.

Import Adapters.

(** Every record of the set is a discovery record that has [field]. *)
Definition canonical (field : string) (rs : record_set) : Prop :=
  forall id r,
    rs_get id rs = Some r ->
    _guid_type r = "discovery_metadata" /\
    dict_in field (gen3_discovery r) = true.

End Invariants.

(* ================================================================== *)
(** * Facts about dictionaries, strings and loops *)
(* ================================================================== *)

Module PyFacts.

Lemma is_ok_bind_raise {A B} (m : result A) (k : A -> result B) :
  is_ok m = false -> is_ok (bind m k) = false.
Proof. destruct m; simpl; congruence. Qed.

(** A loop does not survive an element on which its body always raises. *)
Lemma for_each_raises_at {A S} (body : S -> A -> result S) x :
  (forall acc, is_ok (body acc x) = false) ->
  forall before after acc,
    is_ok (for_each body (before ++ x :: after) acc) = false.
Proof.
  intros Hx before after.
  induction before as [|y before IH]; intros acc; simpl.
  - apply is_ok_bind_raise, Hx.
  - destruct (body acc y) as [acc'|e]; simpl; [apply IH | reflexivity].
Qed.

Lemma for_each_app {A S} (body : S -> A -> result S) (l1 l2 : list A) acc :
  for_each body (l1 ++ l2) acc
  = bind (for_each body l1 acc) (for_each body l2).
Proof.
  revert acc. induction l1 as [|x l1 IH]; intros acc; simpl; [reflexivity|].
  destruct (body acc x); simpl; [apply IH | reflexivity].
Qed.

Lemma split_scan_nonempty sep s skip cur : split_scan sep s skip cur <> [].
Proof.
  revert skip cur.
  induction s as [|c rest IH]; intros skip cur; cbn [split_scan];
    [congruence|].
  destruct skip; [|apply IH].
  destruct (String.prefix sep (String c rest)); [congruence | apply IH].
Qed.

(** When the separator occurs, [split] has a second piece. *)
Lemma split_second sep s :
  sep <> EmptyString -> str_in sep s = true ->
  exists piece, nth_error (split sep s) 1 = Some piece.
Proof.
  intros Hsep. unfold split. generalize EmptyString as cur.
  induction s as [|c rest IH]; intros cur Hin.
  - simpl in Hin. destruct sep; [congruence | discriminate].
  - cbn [split_scan str_in] in Hin |- *.
    destruct (String.prefix sep (String c rest)) eqn:Hp.
    + destruct (split_scan sep rest (String.length sep - 1) EmptyString)
        as [|piece others] eqn:Hs.
      * exfalso. exact (split_scan_nonempty _ _ _ _ Hs).
      * exists piece. reflexivity.
    + simpl in Hin. apply IH, Hin.
Qed.

(** ** Dictionaries *)

Lemma dict_in_cons {V} (k k' : string) (v : V) (d : dict V) :
  dict_in k ((k', v) :: d) = String.eqb k k' || dict_in k d.
Proof. unfold dict_in. simpl. destruct (String.eqb k k'); reflexivity. Qed.

Lemma dict_get_set {V} (k k' : string) (v : V) (d : dict V) :
  dict_get k (dict_set k' v d)
  = if String.eqb k k' then Some v else dict_get k d.
Proof.
  induction d as [|[k0 v0] d IH]; simpl.
  - destruct (String.eqb k k'); reflexivity.
  - destruct (String.eqb k' k0) eqn:E0; simpl.
    + apply String.eqb_eq in E0. subst k0.
      destruct (String.eqb k k'); reflexivity.
    + rewrite IH. destruct (String.eqb k k') eqn:E; [|reflexivity].
      apply String.eqb_eq in E. subst k. rewrite E0. reflexivity.
Qed.

Lemma dict_in_set {V} (k k' : string) (v : V) (d : dict V) :
  dict_in k (dict_set k' v d) = String.eqb k k' || dict_in k d.
Proof.
  unfold dict_in. rewrite dict_get_set.
  destruct (String.eqb k k'); reflexivity.
Qed.

(** A present key is overwritten where it stands. *)
Lemma dict_set_keys {V} (k : string) (v : V) (d : dict V) :
  dict_in k d = true -> dict_keys (dict_set k v d) = dict_keys d.
Proof.
  induction d as [|[k0 v0] d IH]; [discriminate|].
  rewrite dict_in_cons. simpl.
  destruct (String.eqb k k0); simpl; intros H; [reflexivity|].
  f_equal. apply IH, H.
Qed.

Lemma In_dict_set {V} (k k' : string) (v v' : V) (d : dict V) :
  In (k, v) (dict_set k' v' d) -> (k, v) = (k', v') \/ In (k, v) d.
Proof.
  induction d as [|[k0 v0] d IH]; simpl.
  - intros [H|[]]. left. congruence.
  - destruct (String.eqb k' k0) eqn:E; simpl.
    + apply String.eqb_eq in E. subst k0.
      intros [H|H]; [left; congruence | right; right; exact H].
    + intros [H|H]; [right; left; exact H|].
      destruct (IH H) as [H'|H']; [left | right; right]; exact H'.
Qed.

Lemma dict_in_In {V} (k : string) (d : dict V) :
  dict_in k d = true -> exists v, In (k, v) d.
Proof.
  induction d as [|[k0 v0] d IH]; [discriminate|].
  rewrite dict_in_cons.
  destruct (String.eqb k k0) eqn:E; simpl.
  - apply String.eqb_eq in E. subst k0. exists v0. left. reflexivity.
  - intros H. destruct (IH H) as [v Hv]. exists v. right. exact Hv.
Qed.

Lemma In_dict_in {V} (k : string) (v : V) (d : dict V) :
  In (k, v) d -> dict_in k d = true.
Proof.
  induction d as [|[k0 v0] d IH]; [intros []|].
  rewrite dict_in_cons. intros [H|H].
  - injection H as -> ->. rewrite String.eqb_refl. reflexivity.
  - rewrite (IH H). apply orb_true_r.
Qed.

Lemma dict_in_keys {V} (k : string) (d : dict V) :
  dict_in k d = true <-> In k (dict_keys d).
Proof.
  split.
  - intros H. destruct (dict_in_In _ _ H) as [v Hv].
    apply (in_map fst) in Hv. exact Hv.
  - intros H. apply in_map_iff in H. destruct H as [[k0 v] [<- H]].
    apply (In_dict_in _ _ _ H).
Qed.

Lemma In_dict_update {V} (k : string) (v : V) (other d : dict V) :
  In (k, v) (dict_update d other) -> In (k, v) d \/ In (k, v) other.
Proof.
  unfold dict_update. revert d.
  induction other as [|[k0 v0] other IH]; intros d; simpl; [tauto|].
  intros H. destruct (IH _ H) as [H'|H']; [|tauto].
  destruct (In_dict_set _ _ _ _ _ H') as [E|E]; [|tauto].
  right. left. congruence.
Qed.

Lemma dict_in_update {V} (k : string) (other d : dict V) :
  dict_in k d = true \/ dict_in k other = true ->
  dict_in k (dict_update d other) = true.
Proof.
  unfold dict_update. revert d.
  induction other as [|[k0 v0] other IH]; intros d; simpl.
  - intros [H|H]; [exact H | discriminate].
  - rewrite dict_in_cons. intros H. apply IH.
    rewrite dict_in_set.
    destruct (String.eqb k k0); simpl in *; tauto.
Qed.

Lemma In_dict_of_items {V} (k : string) (v : V) (items : list (string * V)) :
  In (k, v) (dict_of_items items) -> In (k, v) items.
Proof.
  intros H. destruct (In_dict_update _ _ _ _ H) as [[]|H']. exact H'.
Qed.

Lemma dict_in_dict_of_items {V} (k : string) (v : V)
  (items : list (string * V)) :
  In (k, v) items -> dict_in k (dict_of_items items) = true.
Proof.
  intros H. apply dict_in_update. right. apply (In_dict_in _ _ _ H).
Qed.

(** ** Induction on values *)

Lemma pyvalue_induction (P : pyvalue -> Prop) :
  P VNone ->
  (forall b, P (VBool b)) ->
  (forall n, P (VInt n)) ->
  (forall bits, P (VFloat bits)) ->
  (forall s, P (VStr s)) ->
  (forall l, Forall P l -> P (VList l)) ->
  (forall d, Forall (fun kv => P (snd kv)) d -> P (VDict d)) ->
  forall v, P v.
Proof.
  intros HNone HBool HInt HFloat HStr HList HDict.
  fix IH 1. intros [| b | n | bits | s | l | d].
  - exact HNone.
  - apply HBool.
  - apply HInt.
  - apply HFloat.
  - apply HStr.
  - apply HList. induction l as [|x l IHl]; constructor; [apply IH | exact IHl].
  - apply HDict. induction d as [|[k x] d IHd]; constructor;
      [apply IH | exact IHd].
Qed.

End PyFacts.

(* ================================================================== *)
(** * More facts about dictionaries *)
(* ================================================================== *)

Module DictFacts.

Import PyFacts.

Lemma dict_set_absent {V} (k : string) (v : V) (d : dict V) :
  dict_in k d = false -> dict_set k v d = d ++ [(k, v)].
Proof.
  induction d as [|[k0 v0] d IH]; [reflexivity|].
  rewrite dict_in_cons. simpl. destruct (String.eqb k k0); simpl;
    [discriminate|]. intros H. rewrite (IH H). reflexivity.
Qed.

Lemma dict_keys_set {V} (k x : string) (v : V) (d : dict V) :
  In x (dict_keys (dict_set k v d)) <-> x = k \/ In x (dict_keys d).
Proof.
  rewrite <- !dict_in_keys, dict_in_set, orb_true_iff, String.eqb_eq.
  reflexivity.
Qed.

Lemma NoDup_dict_set {V} (k : string) (v : V) (d : dict V) :
  NoDup (dict_keys d) -> NoDup (dict_keys (dict_set k v d)).
Proof.
  induction d as [|[k0 v0] d IH]; simpl.
  - intros _. constructor; [intros [] | constructor].
  - intros H. inversion H as [|? ? Hnot Hd]; subst.
    destruct (String.eqb k k0) eqn:E; simpl; [constructor; assumption|].
    constructor; [|apply IH, Hd].
    change (~ In k0 (dict_keys (dict_set k v d))).
    rewrite dict_keys_set. intros [->|Hin]; [|exact (Hnot Hin)].
    rewrite String.eqb_refl in E. discriminate.
Qed.

Lemma NoDup_dict_update {V} (other d : dict V) :
  NoDup (dict_keys d) -> NoDup (dict_keys (dict_update d other)).
Proof.
  unfold dict_update. revert d.
  induction other as [|[k v] other IH]; intros d H; simpl; [exact H|].
  apply IH, NoDup_dict_set, H.
Qed.

(** [dict(items)] never has a key twice. *)
Lemma NoDup_dict_of_items {V} (items : list (string * V)) :
  NoDup (dict_keys (dict_of_items items)).
Proof. apply NoDup_dict_update. constructor. Qed.

Lemma dict_update_fresh {V} (other d : dict V) :
  NoDup (dict_keys (d ++ other)) -> dict_update d other = d ++ other.
Proof.
  unfold dict_update. revert d.
  induction other as [|[k v] other IH]; intros d H; simpl.
  - rewrite app_nil_r. reflexivity.
  - assert (Hk : dict_in k d = false).
    { destruct (dict_in k d) eqn:E; [|reflexivity]. exfalso.
      apply dict_in_keys in E. unfold dict_keys in H. rewrite map_app in H.
      apply NoDup_remove_2 in H. apply H, in_or_app. left. exact E. }
    rewrite (dict_set_absent _ _ _ Hk), IH, <- app_assoc; [reflexivity|].
    rewrite <- app_assoc. exact H.
Qed.

(** A list of pairs without a repeated key is the dict of its items. *)
Lemma dict_of_items_fresh {V} (items : list (string * V)) :
  NoDup (dict_keys items) -> dict_of_items items = items.
Proof. intros H. apply (dict_update_fresh items []). exact H. Qed.

Lemma dict_get_none {V} (k : string) (d : dict V) :
  ~ In k (dict_keys d) -> dict_get k d = None.
Proof.
  intros H. destruct (dict_get k d) eqn:E; [|reflexivity].
  exfalso. apply H, dict_in_keys. unfold dict_in. rewrite E. reflexivity.
Qed.

(** In [d.update(other)] the values of [other] win. *)
Lemma dict_get_update {V} (k : string) (other d : dict V) :
  NoDup (dict_keys other) ->
  dict_get k (dict_update d other)
  = match dict_get k other with
    | Some v => Some v
    | None => dict_get k d
    end.
Proof.
  unfold dict_update. revert d.
  induction other as [|[k0 v0] other IH]; intros d H; simpl; [reflexivity|].
  inversion H as [|? ? Hnot Hd]; subst.
  rewrite (IH _ Hd), dict_get_set.
  destruct (String.eqb k k0) eqn:E; [|reflexivity].
  apply String.eqb_eq in E. subst k0.
  rewrite (dict_get_none _ _ Hnot). reflexivity.
Qed.

Lemma dict_update_app {V} (d a b : dict V) :
  dict_update d (a ++ b) = dict_update (dict_update d a) b.
Proof. unfold dict_update. apply fold_left_app. Qed.

(** Setting a key twice is setting it once. *)
Lemma dict_set_set {V} (k : string) (v v0 : V) (d : dict V) :
  dict_set k v (dict_set k v0 d) = dict_set k v d.
Proof.
  induction d as [|[k0 x] d IH]; simpl.
  - rewrite String.eqb_refl. reflexivity.
  - destruct (String.eqb k k0) eqn:E; simpl; rewrite E; [reflexivity|].
    rewrite IH. reflexivity.
Qed.

(** Setting a key the dict has leaves the order of the keys alone, and
    so commutes with setting another key. *)
Lemma dict_set_comm {V} (k k1 : string) (v v1 : V) (d : dict V) :
  k <> k1 -> dict_in k d = true ->
  dict_set k v (dict_set k1 v1 d) = dict_set k1 v1 (dict_set k v d).
Proof.
  intros Hne. induction d as [|[k0 x] d IH]; [discriminate|].
  rewrite dict_in_cons. intros Hin. simpl.
  destruct (String.eqb k k0) eqn:E, (String.eqb k1 k0) eqn:E1; simpl;
    rewrite ?E, ?E1; try reflexivity.
  - apply String.eqb_eq in E, E1. congruence.
  - rewrite (IH Hin). reflexivity.
Qed.

Lemma dict_update_cons {V} (k : string) (v : V) (other d : dict V) :
  dict_update d ((k, v) :: other) = dict_update (dict_set k v d) other.
Proof. reflexivity. Qed.

Lemma dict_set_update {V} (k : string) (v : V) (other d : dict V) :
  ~ In k (dict_keys other) -> dict_in k d = true ->
  dict_set k v (dict_update d other) = dict_update (dict_set k v d) other.
Proof.
  revert d.
  induction other as [|[k1 v1] other IH]; intros d Hnot Hin; [reflexivity|].
  rewrite !dict_update_cons. simpl in Hnot. rewrite IH.
  - rewrite dict_set_comm; [reflexivity | | exact Hin].
    intros ->. apply Hnot. left. reflexivity.
  - intros H. apply Hnot. right. exact H.
  - rewrite dict_in_set, Hin. apply orb_true_r.
Qed.

(** Updating with a dict in which a key was set is updating with the
    dict and setting the key. *)
Lemma dict_update_set {V} (k : string) (v : V) (other d : dict V) :
  NoDup (dict_keys other) ->
  dict_update d (dict_set k v other) = dict_set k v (dict_update d other).
Proof.
  revert d. induction other as [|[k0 v0] other IH]; intros d Hnd;
    [reflexivity|].
  inversion Hnd as [|? ? Hnot Hrest]; subst. cbn [dict_set].
  destruct (String.eqb_spec k k0) as [->|Hk]; rewrite !dict_update_cons.
  - rewrite (dict_set_update k0 v other (dict_set k0 v0 d) Hnot)
      by (rewrite dict_in_set, String.eqb_refl; reflexivity).
    rewrite dict_set_set. reflexivity.
  - apply IH, Hrest.
Qed.

(** Updating with the dict of a list of items is updating with the
    items. *)
Lemma dict_update_dict_update {V} (items d other : dict V) :
  NoDup (dict_keys other) ->
  dict_update d (dict_update other items)
  = dict_update (dict_update d other) items.
Proof.
  revert other. induction items as [|[k v] items IH]; intros other Hnd;
    [reflexivity|].
  rewrite !dict_update_cons.
  rewrite IH by (apply NoDup_dict_set, Hnd).
  rewrite dict_update_set by exact Hnd. reflexivity.
Qed.

Lemma dict_update_dict_of_items {V} (items d : dict V) :
  dict_update d (dict_of_items items) = dict_update d items.
Proof.
  unfold dict_of_items. rewrite dict_update_dict_update by constructor.
  reflexivity.
Qed.

End DictFacts.

(* ================================================================== *)
(** * adapters.py: the field extractor, the filters and the mapper *)
(* ================================================================== *)

Module AdaptersSpec.

Import Adapters PyFacts.

Section Libraries.

Variable bleach_clean : string -> string.
Variable jsonpath : Type.
Variable parse : pyvalue -> result jsonpath.
Variable find : jsonpath -> pyvalue -> list pyvalue.
Variable repr : pyvalue -> string.

Abbreviation execute := (Adapters.execute bleach_clean).
Abbreviation filters := (Adapters.filters bleach_clean).
Abbreviation get_json_path_value := (Adapters.get_json_path_value jsonpath parse find).
Abbreviation map_field := (Adapters.map_field bleach_clean jsonpath parse find).
Abbreviation mapFields := (Adapters.mapFields bleach_clean jsonpath parse find).
Abbreviation overlay := (Adapters.overlay bleach_clean jsonpath parse find).
Abbreviation PDAPS_addGen3ExpectedFields :=
  (Adapters.PDAPS_addGen3ExpectedFields bleach_clean jsonpath parse find).
Abbreviation PDAPS_normalizeToGen3MDSFields :=
  (Adapters.PDAPS_normalizeToGen3MDSFields bleach_clean jsonpath parse find).
Abbreviation ClinicalTrials_normalizeToGen3MDSFields :=
  (Adapters.ClinicalTrials_normalizeToGen3MDSFields bleach_clean jsonpath
     parse find repr).
Abbreviation ISCPSRDublin_normalizeToGen3MDSFields :=
  (Adapters.ISCPSRDublin_normalizeToGen3MDSFields bleach_clean jsonpath
     parse find).

(** C9: a filter name that is not a key of the registry leaves the value
    as it is, and nothing is raised. *)
Theorem execute_unknown_filter (name : string) (value : pyvalue) :
  dict_in name filters = false -> execute (VStr name) value = Ok value.
Proof.
  unfold Adapters.execute, dict_in.
  destruct (dict_get name filters); [discriminate | reflexivity].
Qed.

(** A name that is no string at all, but can be hashed, is unknown too. *)
Lemma execute_scalar_name (name value : pyvalue) :
  match name with VStr _ | VList _ | VDict _ => False | _ => True end ->
  execute name value = Ok value.
Proof. destruct name; simpl; tauto. Qed.

(** C1: the extractor gives the empty string for a null expression and
    for an expression without a match, the matched value itself for one
    match, and the list of the matched values, in the order [find] gives
    them, for more than one. *)
Theorem get_json_path_value_arity (P : string) (D : pyvalue) (p : jsonpath) :
  parse (VStr P) = Ok p ->
  get_json_path_value VNone D = Ok (VStr "") /\
  (find p D = [] -> get_json_path_value (VStr P) D = Ok (VStr "")) /\
  (forall x, find p D = [x] -> get_json_path_value (VStr P) D = Ok x) /\
  (1 < List.length (find p D) ->
   get_json_path_value (VStr P) D = Ok (VList (find p D))).
Proof.
  intros Hp. unfold Adapters.get_json_path_value. rewrite Hp. simpl.
  split; [reflexivity|]. split; [|split].
  - intros ->. reflexivity.
  - intros x ->. reflexivity.
  - intros Hlen.
    destruct (find p D) as [|a [|b rest]]; simpl in *; try lia. reflexivity.
Qed.

(** The three shapes of a mapping entry. *)
Lemma map_field_dict (item : pyvalue) (spec : dict pyvalue) :
  map_field item (VDict spec) =
  (field_value <-
     get_json_path_value
       (match dict_get "path" spec with Some e => e | None => VNone end) item ;;
   names <-
     py_iter (match dict_get "filters" spec with
              | Some f => f
              | None => VList []
              end) ;;
   for_each (fun v name => execute name v) names field_value).
Proof. reflexivity. Qed.

Lemma map_field_path (item : pyvalue) (s : string) :
  str_in "path:" s = true ->
  exists expression,
    nth_error (split "path:" s) 1 = Some expression /\
    map_field item (VStr s) = get_json_path_value (VStr expression) item.
Proof.
  intros Hin.
  destruct (split_second "path:" s) as [expression He];
    [discriminate | exact Hin |].
  exists expression. split; [exact He|].
  unfold Adapters.map_field, py_contains, bind. rewrite Hin, He. reflexivity.
Qed.

Lemma map_field_literal (item value : pyvalue) :
  py_contains "path:" value = Ok false ->
  match value with VDict _ => False | _ => True end ->
  map_field item value = Ok value.
Proof.
  intros Hc Hd. destruct value; simpl in *; try tauto; try discriminate.
  - injection Hc as ->. reflexivity.
  - injection Hc as ->. reflexivity.
Qed.

(** C5: on a literal that is a number, the membership test for the marker
    raises before the literal branch is reached. *)
Theorem mapFields_number_literal_raises (item : pyvalue) :
  mapFields item [("count", VInt 0)] = Raise TypeError.
Proof. reflexivity. Qed.

(** C10: when the fields after mapping hold a list under "investigators",
    [PDAPS.addGen3ExpectedFields] raises, and so does the normalization of
    any batch with such an item in it. *)
Theorem PDAPS_investigators_list_raises (item : pyvalue)
  (mappings : option (dict pyvalue)) (keepOriginalFields : bool)
  (results : pyvalue) (aliased : bool) (l : list pyvalue) :
  overlay item mappings keepOriginalFields = Ok (results, aliased) ->
  py_subscript results "investigators" = Ok (VList l) ->
  PDAPS_addGen3ExpectedFields item mappings keepOriginalFields
  = Raise AttributeError /\
  forall before after perItemValues,
    is_ok (PDAPS_normalizeToGen3MDSFields
             (VDict [("results", VList (before ++ item :: after))])
             mappings keepOriginalFields perItemValues) = false.
Proof.
  intros Hover Hinv.
  assert (Hraise : PDAPS_addGen3ExpectedFields item mappings keepOriginalFields
                   = Raise AttributeError).
  { unfold Adapters.PDAPS_addGen3ExpectedFields.
    rewrite Hover. simpl. rewrite Hinv. reflexivity. }
  split; [exact Hraise|].
  intros before after perItemValues.
  unfold Adapters.PDAPS_normalizeToGen3MDSFields. simpl.
  apply is_ok_bind_raise, for_each_raises_at.
  intros acc. rewrite Hraise. reflexivity.
Qed.

(** PDAPS leaves out an item that has no "display_id" once its fields are
    mapped, and normalizes the batch as if the item were not there. *)
Lemma PDAPS_skips_missing_id (before after : list pyvalue) (item : pyvalue)
  (mappings : option (dict pyvalue)) (keepOriginalFields : bool)
  (perItemValues : option (dict (dict pyvalue)))
  (normalized_item : dict pyvalue) (item' : pyvalue) :
  PDAPS_addGen3ExpectedFields item mappings keepOriginalFields
  = Ok (normalized_item, item') ->
  py_contains "display_id" item' = Ok false ->
  PDAPS_normalizeToGen3MDSFields
    (VDict [("results", VList (before ++ item :: after))])
    mappings keepOriginalFields perItemValues
  = PDAPS_normalizeToGen3MDSFields
      (VDict [("results", VList (before ++ after))])
      mappings keepOriginalFields perItemValues.
Proof.
  intros Hadd Hid. unfold Adapters.PDAPS_normalizeToGen3MDSFields.
  cbn [py_subscript dict_item dict_get String.eqb Ascii.eqb Bool.eqb bind
       py_iter].
  rewrite !for_each_app. f_equal.
  match goal with
  | |- bind ?m _ = _ => destruct m as [acc|err]; [|reflexivity]
  end.
  cbn [bind for_each]. rewrite Hadd. cbn [bind]. rewrite Hid. reflexivity.
Qed.

(** ClinicalTrials has no such test: a study without "NCTId" among its
    flattened and mapped fields makes the normalization of its batch
    raise. *)
Lemma ClinicalTrials_raises_on_missing_id (before after : list pyvalue)
  (item study : pyvalue) (flat : dict pyvalue)
  (mappings : option (dict pyvalue)) (keepOriginalFields : bool)
  (perItemValues : option (dict (dict pyvalue)))
  (normalized_item : dict pyvalue) (item' : pyvalue) (err : exn) :
  py_subscript item "Study" = Ok study ->
  flatten_call study = Ok flat ->
  Adapters.ClinicalTrials_addGen3ExpectedFields bleach_clean jsonpath parse
    find repr (VDict flat) mappings keepOriginalFields
  = Ok (normalized_item, item') ->
  py_subscript item' "NCTId" = Raise err ->
  is_ok (ClinicalTrials_normalizeToGen3MDSFields
           (VDict [("results", VList (before ++ item :: after))])
           mappings keepOriginalFields perItemValues) = false.
Proof.
  intros Hstudy Hflat Hadd Hid.
  unfold Adapters.ClinicalTrials_normalizeToGen3MDSFields.
  cbn [py_subscript dict_item dict_get String.eqb Ascii.eqb Bool.eqb bind
       py_iter].
  apply is_ok_bind_raise, for_each_raises_at. intros acc.
  fold (py_subscript item "Study"). rewrite Hstudy. cbn [bind].
  rewrite Hflat. cbn [bind]. rewrite Hadd. cbn [bind].
  rewrite Hid. reflexivity.
Qed.

(** C8: an item without its identifying key.  PDAPS skips it and keeps
    the rest of the batch; ClinicalTrials and ISCPSRDublin raise
    [KeyError] and the batch is lost. *)
Theorem normalize_missing_identifier :
  PDAPS_normalizeToGen3MDSFields
    (VDict [("results",
             VList [VDict [("display_id", VStr "p1"); ("investigators", VStr "A")];
                    VDict [("investigators", VStr "B")]])])
    None true None
  = Ok [(KStr "p1",
         discovery_metadata
           [("display_id", VStr "p1"); ("investigators", VStr "A")])] /\
  ClinicalTrials_normalizeToGen3MDSFields
    (VDict [("results",
             VList [VDict [("Study", VDict [("NCTId", VStr "NCT1")])];
                    VDict [("Study", VDict [("BriefTitle", VStr "t")])]])])
    None true None
  = Raise (KeyError (VStr "NCTId")) /\
  ISCPSRDublin_normalizeToGen3MDSFields
    (VDict [("results",
             VList [VDict [("OAI-PMH", VDict [("GetRecord", VDict [("record",
                      VDict [("metadata", VDict [("oai_dc:dc",
                        VDict [("dc:title", VStr "t");
                               ("dc:investigators", VStr "A")])])])])])]])])
    None true None
  = Raise (KeyError (VStr "identifier")).
Proof. repeat split; reflexivity. Qed.

End Libraries.

(** The examples of the specification, run on the stand-ins. *)
Example extract_three_matches :
  Samples.get_json_path_value (VStr "a[*].k")
    (VDict [("a", VList [VDict [("k", VInt 1)]; VDict [("k", VInt 2)];
                         VDict [("k", VInt 3)]])])
  = Ok (VList [VInt 1; VInt 2; VInt 3]).
Proof. reflexivity. Qed.

Example extract_one_match :
  Samples.get_json_path_value (VStr "a[*].k")
    (VDict [("a", VList [VDict [("k", VInt 1)]])]) = Ok (VInt 1).
Proof. reflexivity. Qed.

Example extract_no_match :
  Samples.get_json_path_value (VStr "a[*].k") (VDict [("a", VList [])])
  = Ok (VStr "").
Proof. reflexivity. Qed.

Example mapFields_strip_html :
  Samples.mapFields (VDict [("a", VDict [("b", VStr "<b>hi</b>")])])
    [("x", VDict [("path", VStr "a.b");
                  ("filters", VList [VStr "strip_html"])])]
  = Ok [("x", VStr "hi")].
Proof. reflexivity. Qed.

(** Between two markers only the first piece is the expression. *)
Example mapFields_two_markers :
  Samples.mapFields (VDict [("a", VInt 1)]) [("x", VStr "path:a path:b")]
  = Ok [("x", VInt 1)].
Proof. reflexivity. Qed.

Lemma execute_unknown_filter_witness :
  dict_in "lowercase" (Adapters.filters Samples.bleach_clean) = false /\
  Adapters.execute Samples.bleach_clean (VStr "lowercase") (VInt 7)
  = Ok (VInt 7).
Proof.
  split; [reflexivity|].
  apply (execute_unknown_filter Samples.bleach_clean "lowercase" (VInt 7)).
  reflexivity.
Defined.

Lemma get_json_path_value_arity_witness :
  Samples.parse (VStr "a[*].k")
  = Ok [Samples.Child "a"; Samples.Star; Samples.Child "k"] /\
  Samples.get_json_path_value (VStr "a[*].k")
    (VDict [("a", VList [VDict [("k", VInt 1)]; VDict [("k", VInt 2)]])])
  = Ok (VList [VInt 1; VInt 2]).
Proof.
  split; [reflexivity|].
  destruct (get_json_path_value_arity (list Samples.step) Samples.parse
              Samples.find "a[*].k"
              (VDict [("a", VList [VDict [("k", VInt 1)];
                                   VDict [("k", VInt 2)]])])
              [Samples.Child "a"; Samples.Star; Samples.Child "k"] eq_refl)
    as (_ & _ & _ & Hmany).
  apply Hmany. simpl. lia.
Defined.

Lemma PDAPS_investigators_list_raises_witness :
  Adapters.PDAPS_addGen3ExpectedFields Samples.bleach_clean
    (list Samples.step) Samples.parse Samples.find
    (VDict [("display_id", VStr "p1");
            ("investigators", VList [VStr "A"; VStr "B"])])
    None true
  = Raise AttributeError.
Proof.
  apply (PDAPS_investigators_list_raises Samples.bleach_clean
           (list Samples.step) Samples.parse Samples.find
           (VDict [("display_id", VStr "p1");
                   ("investigators", VList [VStr "A"; VStr "B"])])
           None true
           (VDict [("display_id", VStr "p1");
                   ("investigators", VList [VStr "A"; VStr "B"])])
           true [VStr "A"; VStr "B"]); reflexivity.
Defined.

End AdaptersSpec.

(* ================================================================== *)
(** * adapters.py: flatten *)
(* ================================================================== *)

Module FlattenSpec.

Import Adapters PyFacts DictFacts.

Lemma flatten_unfold (d : dict pyvalue) (parent_key : option string)
  (separator : string) :
  flatten (VDict d) parent_key separator
  = dict_of_items
      (flatten_items (fun v => flatten v None separator) parent_key separator d).
Proof.
  cbn [flatten]. f_equal.
  induction d as [|[k v] rest IH]; [reflexivity|].
  cbn [flatten_items]. rewrite <- IH. reflexivity.
Qed.

(** What the loop collects comes from an entry that is not a dict, under
    its own key, or from the flattening of an entry that is one. *)
Lemma In_flatten_items flat separator k v (d : dict pyvalue) :
  In (k, v) (flatten_items flat None separator d) ->
  (In (k, v) d /\ is_dict v = false) \/
  (exists key sub, In (key, VDict sub) d /\ In (k, v) (flat (VDict sub))).
Proof.
  induction d as [|[key value] rest IH]; [intros []|].
  cbn [flatten_items]. intros H.
  assert (Hrest : In (k, v) (flatten_items flat None separator rest) ->
                  (In (k, v) ((key, value) :: rest) /\ is_dict v = false) \/
                  (exists key' sub, In (key', VDict sub) ((key, value) :: rest)
                                    /\ In (k, v) (flat (VDict sub)))).
  { intros Hr. destruct (IH Hr) as [[Hin Hd]|(key' & sub & Hin & Hf)].
    - left. split; [right; exact Hin | exact Hd].
    - right. exists key', sub. split; [right; exact Hin | exact Hf]. }
  destruct value;
    try (destruct H as [H|H];
         [injection H as <- <-; left; split; [left|]; reflexivity
         | exact (Hrest H)]).
  apply in_app_or in H. destruct H as [H|H]; [|exact (Hrest H)].
  right. exists key, d. split; [left; reflexivity | exact H].
Qed.

Lemma flatten_items_here flat separator k v (d : dict pyvalue) :
  In (k, v) d -> is_dict v = false ->
  In (k, v) (flatten_items flat None separator d).
Proof.
  intros Hin Hd.
  induction d as [|[key value] rest IH]; [destruct Hin|].
  cbn [flatten_items]. destruct Hin as [H|H].
  - injection H as -> ->. destruct v; try discriminate; left; reflexivity.
  - destruct value; try (right; exact (IH H)).
    apply in_or_app. right. exact (IH H).
Qed.

Lemma flatten_items_under flat separator key sub x (d : dict pyvalue) :
  In (key, VDict sub) d -> In x (flat (VDict sub)) ->
  In x (flatten_items flat None separator d).
Proof.
  intros Hin Hx.
  induction d as [|[key' value] rest IH]; [destruct Hin|].
  cbn [flatten_items]. destruct Hin as [H|H].
  - injection H as -> ->. apply in_or_app. left. exact Hx.
  - destruct value; try (right; exact (IH H)).
    apply in_or_app. right. exact (IH H).
Qed.

Lemma flatten_entries_are_leaves (separator : string) (v : pyvalue) :
  forall k x, In (k, x) (flatten v None separator) -> leaf v k x.
Proof.
  induction v as [| | | | | |d IH] using pyvalue_induction;
    try (intros k x []).
  intros k x H. rewrite flatten_unfold in H.
  apply In_dict_of_items, In_flatten_items in H.
  destruct H as [[Hin Hd]|(key & sub & Hin & Hf)].
  - apply leaf_here; assumption.
  - apply (leaf_under d key sub); [exact Hin|].
    rewrite Forall_forall in IH. apply (IH (key, VDict sub) Hin). exact Hf.
Qed.

Lemma leaves_are_flatten_keys (separator : string) (v : pyvalue) k x :
  leaf v k x -> dict_in k (flatten v None separator) = true.
Proof.
  induction 1 as [d key value Hin Hd | d key sub k v Hin Hleaf IH];
    rewrite flatten_unfold.
  - apply (dict_in_dict_of_items key value).
    apply flatten_items_here; assumption.
  - destruct (dict_in_In _ _ IH) as [v' Hv'].
    apply (dict_in_dict_of_items k v').
    apply (flatten_items_under _ _ key sub); assumption.
Qed.

Lemma leaves_unfold (d : dict pyvalue) (separator : string) :
  leaves (VDict d) = flatten_items leaves None separator d.
Proof.
  cbn [leaves].
  induction d as [|[k v] rest IH]; [reflexivity|].
  cbn [flatten_items new_key]. rewrite <- IH. reflexivity.
Qed.

(** The leaves are the entries that [leaf] finds. *)
Lemma leaves_are_leaf (v : pyvalue) :
  forall k x, In (k, x) (leaves v) <-> leaf v k x.
Proof.
  intros k x. split.
  - revert k x.
    induction v as [| | | | | |d IH] using pyvalue_induction;
      try (intros k x []).
    intros k x H. rewrite (leaves_unfold d ".") in H.
    apply In_flatten_items in H.
    destruct H as [[Hin Hd]|(key & sub & Hin & Hf)].
    + apply leaf_here; assumption.
    + apply (leaf_under d key sub); [exact Hin|].
      rewrite Forall_forall in IH. apply (IH (key, VDict sub) Hin). exact Hf.
  - induction 1 as [d key value Hin Hd | d key sub k v Hin Hleaf IH];
      rewrite (leaves_unfold d ".").
    + apply flatten_items_here; assumption.
    + apply (flatten_items_under _ _ key sub); assumption.
Qed.

(** What a dict of items holds under a key is the value of the last item
    with the key. *)
Lemma dict_get_dict_update {V} (k : string) (items d : dict V) :
  dict_get k (dict_update d items)
  = match last_value k items with
    | Some x => Some x
    | None => dict_get k d
    end.
Proof.
  revert d. induction items as [|[k' v] items IH]; intros d; [reflexivity|].
  rewrite dict_update_cons, IH. cbn [last_value].
  destruct (last_value k items); [reflexivity|].
  rewrite dict_get_set. destruct (String.eqb k k'); reflexivity.
Qed.

(** Flattening the dicts inside one after the other, or all of them at
    once: the dict of the items is the same. *)
Lemma flatten_items_leaves (separator : string) (d : dict pyvalue) :
  Forall (fun kv =>
            flatten (snd kv) None separator = dict_of_items (leaves (snd kv)))
    d ->
  forall acc,
    dict_update acc
      (flatten_items (fun v => flatten v None separator) None separator d)
    = dict_update acc (flatten_items leaves None separator d).
Proof.
  induction 1 as [|[k v] rest Hv _ IH]; intros acc; [reflexivity|].
  cbn [flatten_items snd] in *.
  destruct v; try (rewrite !dict_update_cons; apply IH).
  rewrite !dict_update_app, Hv, dict_update_dict_of_items. apply IH.
Qed.

Lemma flatten_is_dict_of_leaves (separator : string) (v : pyvalue) :
  flatten v None separator = dict_of_items (leaves v).
Proof.
  induction v as [| | | | | |d IH] using pyvalue_induction;
    try reflexivity.
  rewrite flatten_unfold, (leaves_unfold d separator).
  apply (flatten_items_leaves separator d IH []).
Qed.

(** C7, as the code has it: the flattened dict is the dict of the entries
    of the nested dict, at any depth, whose value is not a dict, each
    under its own key with no prefix, in the order in which they are
    written: where a key comes more than once, the flattened dict holds
    the value of the last entry with that key.  So every entry of the
    flattened dict is such an entry, and every key of such an entry is a
    key of the flattened dict. *)
Theorem flatten_keeps_leaf_keys (d : dict pyvalue) :
  flatten (VDict d) None "." = dict_of_items (leaves (VDict d)) /\
  (forall k,
     dict_get k (flatten (VDict d) None ".")
     = last_value k (leaves (VDict d))) /\
  (forall k v, In (k, v) (leaves (VDict d)) <-> leaf (VDict d) k v) /\
  (forall k v, In (k, v) (flatten (VDict d) None ".") -> leaf (VDict d) k v) /\
  (forall k v, leaf (VDict d) k v ->
               dict_in k (flatten (VDict d) None ".") = true).
Proof.
  split; [apply flatten_is_dict_of_leaves|]. split.
  - intros k. rewrite flatten_is_dict_of_leaves. unfold dict_of_items.
    rewrite dict_get_dict_update.
    destruct (last_value k (leaves (VDict d))); reflexivity.
  - split; [apply leaves_are_leaf|]. split.
    + apply flatten_entries_are_leaves.
    + intros k v. apply leaves_are_flatten_keys.
Qed.

(** C7, as stated, fails on [{"a": {"b": 1}}]: the flattened dict is
    [{"b": 1}] and has no key ["a.b"]. *)
Lemma flatten_joins_paths_fails : ~ flatten_joins_paths.
Proof.
  intros claim.
  specialize (claim [("a", VDict [("b", VInt 1)])] ["a"; "b"] (VInt 1)).
  simpl in claim. specialize (claim ltac:(lia) eq_refl eq_refl).
  discriminate claim.
Qed.

(** Of two entries with one key the later one stays, in the place of the
    earlier one. *)
Example flatten_collision :
  flatten (VDict [("a", VDict [("k", VInt 1)]); ("b", VInt 0); ("k", VInt 2)])
    None "."
  = [("k", VInt 2); ("b", VInt 0)].
Proof. reflexivity. Qed.

Example flatten_nested :
  flatten (VDict [("a", VDict [("b", VInt 1); ("c", VDict [("d", VInt 2)])]);
                  ("b", VInt 3)]) None "."
  = [("b", VInt 3); ("d", VInt 2)].
Proof. reflexivity. Qed.

End FlattenSpec.

(* ================================================================== *)
(** * adapters.py: setPerItemValues *)
(* ================================================================== *)

Module OverrideSpec.

Import Adapters PyFacts.

Lemma key_eqb_eq (a b : key) : key_eqb a b = true <-> a = b.
Proof.
  destruct a, b; simpl; split; intros H; try discriminate; try reflexivity;
    try (apply String.eqb_eq in H; congruence);
    try (apply Z.eqb_eq in H; congruence);
    try (injection H as ->; apply String.eqb_refl);
    try (injection H as ->; apply Z.eqb_refl).
Qed.

Lemma key_eqb_refl (a : key) : key_eqb a a = true.
Proof. apply key_eqb_eq. reflexivity. Qed.

(** [1], [True] and [1.0] are one key, [2.5] is another. *)
Example hash_key_numbers :
  hash_key (VInt 1) = Ok (KInt 1) /\
  hash_key (VBool true) = Ok (KInt 1) /\
  hash_key (VFloat 4607182418800017408) = Ok (KInt 1) /\
  hash_key (VFloat 4612811918334230528) = Ok (KFloat 4612811918334230528).
Proof. repeat split. Qed.

Lemma rs_get_set (id k : key) (r : mds_record) (items : record_set) :
  rs_get id (rs_set k r items)
  = if key_eqb id k then Some r else rs_get id items.
Proof.
  induction items as [|[k0 r0] items IH]; simpl.
  - destruct (key_eqb id k); reflexivity.
  - destruct (key_eqb k k0) eqn:E0; simpl.
    + apply key_eqb_eq in E0. subst k0. destruct (key_eqb id k); reflexivity.
    + rewrite IH. destruct (key_eqb id k) eqn:E; [|reflexivity].
      apply key_eqb_eq in E. subst id. rewrite E0. reflexivity.
Qed.

Lemma rs_set_keys (k : key) (r r0 : mds_record) (items : record_set) :
  rs_get k items = Some r0 -> map fst (rs_set k r items) = map fst items.
Proof.
  induction items as [|[k1 r1] items IH]; [discriminate|]. simpl.
  destruct (key_eqb k k1); simpl; intros H; [reflexivity|].
  f_equal. apply IH, H.
Qed.

(** ** The inner loop on one record *)

Lemma set_values_guid_type (values : dict pyvalue) (r : mds_record) :
  _guid_type (set_values r values) = _guid_type r.
Proof.
  unfold set_values. revert r.
  induction values as [|[k v] values IH]; intros r; simpl; [reflexivity|].
  rewrite IH. destruct (dict_in k (gen3_discovery r)); reflexivity.
Qed.

Lemma set_values_keys (values : dict pyvalue) (r : mds_record) :
  dict_keys (gen3_discovery (set_values r values))
  = dict_keys (gen3_discovery r).
Proof.
  unfold set_values. revert r.
  induction values as [|[k v] values IH]; intros r; simpl; [reflexivity|].
  rewrite IH. destruct (dict_in k (gen3_discovery r)) eqn:E; [|reflexivity].
  simpl. apply dict_set_keys, E.
Qed.

Lemma set_values_origin (values : dict pyvalue) (r : mds_record) k v :
  dict_get k (gen3_discovery (set_values r values)) = Some v ->
  dict_get k (gen3_discovery r) = Some v \/ In (k, v) values.
Proof.
  unfold set_values. revert r.
  induction values as [|[k0 v0] values IH]; intros r; simpl; [tauto|].
  intros H. destruct (IH _ H) as [H'|H']; [|tauto].
  destruct (dict_in k0 (gen3_discovery r)); [|tauto].
  simpl in H'. rewrite dict_get_set in H'.
  destruct (String.eqb k k0) eqn:E; [|tauto].
  apply String.eqb_eq in E. subst k0. injection H' as <-. tauto.
Qed.

(** ** The outer loop *)

Lemma touched_refl perItemValues id r : touched perItemValues id r r.
Proof. repeat split. intros k v H. left. exact H. Qed.

Lemma setPerItemValues_touches (perItemValues : dict (dict pyvalue)) :
  forall items : record_set,
    map fst (setPerItemValues items perItemValues) = map fst items /\
    forall id r',
      rs_get id (setPerItemValues items perItemValues) = Some r' ->
      exists r, rs_get id items = Some r /\ touched perItemValues id r r'.
Proof.
  unfold setPerItemValues.
  induction perItemValues as [|[s values] rest IH]; intros items.
  - simpl. split; [reflexivity|]. intros id r' H. exists r'.
    split; [exact H | apply touched_refl].
  - cbn [fold_left fst snd].
    set (items1 := match rs_get (KStr s) items with
                   | Some r => rs_set (KStr s) (set_values r values) items
                   | None => items
                   end).
    destruct (IH items1) as [Hkeys Hrec].
    assert (Hstep_keys : map fst items1 = map fst items).
    { unfold items1. destruct (rs_get (KStr s) items) eqn:E; [|reflexivity].
      apply (rs_set_keys _ _ _ _ E). }
    split; [congruence|].
    intros id r' H. destruct (Hrec id r' H) as (r1 & Hr1 & Ht1 & Hk1 & Ho1).
    assert (Hstep : exists r, rs_get id items = Some r /\
                      touched ((s, values) :: rest) id r r1).
    { unfold items1 in Hr1.
      destruct (rs_get (KStr s) items) as [r0|] eqn:E.
      - rewrite rs_get_set in Hr1.
        destruct (key_eqb id (KStr s)) eqn:Eid.
        + apply key_eqb_eq in Eid. subst id. injection Hr1 as <-.
          exists r0. split; [exact E|]. split; [|split].
          * apply set_values_guid_type.
          * apply set_values_keys.
          * intros k v Hv.
            destruct (set_values_origin _ _ _ _ Hv) as [Hv'|Hv']; [tauto|].
            right. exists s, values. split; [reflexivity|].
            split; [left; reflexivity | exact Hv'].
        + exists r1. split; [exact Hr1 | apply touched_refl].
      - exists r1. split; [exact Hr1 | apply touched_refl]. }
    destruct Hstep as (r & Hr & Ht & Hk & Ho).
    exists r. split; [exact Hr|]. split; [congruence|]. split; [congruence|].
    intros k v Hv. destruct (Ho1 k v Hv) as [Hv1|(s' & values' & -> & Hin & Hkv)].
    + apply Ho, Hv1.
    + right. exists s', values'. split; [reflexivity|].
      split; [right; exact Hin | exact Hkv].
Qed.

Lemma setPerItemValues_elsewhere (perItemValues : dict (dict pyvalue)) id :
  (forall s, id = KStr s -> dict_in s perItemValues = false) ->
  forall items : record_set,
    rs_get id (setPerItemValues items perItemValues) = rs_get id items.
Proof.
  unfold setPerItemValues.
  induction perItemValues as [|[s values] rest IH]; intros Habs items;
    [reflexivity|].
  cbn [fold_left fst snd]. rewrite IH.
  - destruct (rs_get (KStr s) items) eqn:E; [|reflexivity].
    rewrite rs_get_set. destruct (key_eqb id (KStr s)) eqn:Eid; [|reflexivity].
    apply key_eqb_eq in Eid. specialize (Habs s Eid).
    rewrite dict_in_cons, String.eqb_refl in Habs. discriminate.
  - intros s' Hs'. specialize (Habs s' Hs'). rewrite dict_in_cons in Habs.
    apply orb_false_iff in Habs. apply Habs.
Qed.

(** C4: the override merge keeps the ids of the record set and their
    order; every record keeps its type and exactly the field keys it had,
    a field value being either the one it had or one the override map
    gives for that id and that key; and a record whose id is no key of the
    override map is unchanged. *)
Theorem setPerItemValues_only_existing_keys (items : record_set)
  (perItemValues : dict (dict pyvalue)) :
  map fst (setPerItemValues items perItemValues) = map fst items /\
  (forall id r',
     rs_get id (setPerItemValues items perItemValues) = Some r' ->
     exists r,
       rs_get id items = Some r /\
       _guid_type r' = _guid_type r /\
       dict_keys (gen3_discovery r') = dict_keys (gen3_discovery r) /\
       forall k v,
         dict_get k (gen3_discovery r') = Some v ->
         dict_get k (gen3_discovery r) = Some v \/
         exists s values,
           id = KStr s /\ In (s, values) perItemValues /\ In (k, v) values) /\
  (forall id,
     (forall s, id = KStr s -> dict_in s perItemValues = false) ->
     rs_get id (setPerItemValues items perItemValues) = rs_get id items).
Proof.
  destruct (setPerItemValues_touches perItemValues items) as [Hkeys Hrec].
  split; [exact Hkeys|]. split.
  - intros id r' H. destruct (Hrec id r' H) as (r & Hr & Ht).
    exists r. split; [exact Hr | exact Ht].
  - intros id Habs. apply setPerItemValues_elsewhere, Habs.
Qed.

(** The example of the specification: [newkey] is dropped. *)
Example setPerItemValues_drops_new_key :
  setPerItemValues
    [(KStr "g1", discovery_metadata [("a", VInt 1)]);
     (KStr "g2", discovery_metadata [("a", VInt 5)])]
    [("g1", [("a", VInt 2); ("newkey", VInt 9)]);
     ("g3", [("a", VInt 0)])]
  = [(KStr "g1", discovery_metadata [("a", VInt 2)]);
     (KStr "g2", discovery_metadata [("a", VInt 5)])].
Proof. reflexivity. Qed.

End OverrideSpec.

(* ================================================================== *)
(** * adapters.py: the paging of ClinicalTrials.getRemoteDataAsJson *)
(* ================================================================== *)

Module FetchSpec.

Import Adapters PyFacts.

Lemma firstn_more {A} (a b : nat) (l : list A) :
  (firstn a l ++ firstn b (skipn a l))%list = firstn (a + b) l.
Proof.
  revert l. induction a as [|a IH]; intros l; [reflexivity|].
  destruct l as [|x l]; simpl.
  - rewrite firstn_nil. reflexivity.
  - f_equal. apply IH.
Qed.

Section Paging.

Variable studies : list pyvalue.
Variable term : string.
Variable batchSize reach : Z.
Hypothesis batch_positive : (1 <= batchSize)%Z.

Abbreviation found := (Z.of_nat (List.length studies)).
Abbreviation server := (full_studies_server studies).

(** The page after the first [n] studies. *)
Lemma page_after (n : nat) (limit : Z) :
  page studies (1 + Z.of_nat n) (1 + Z.of_nat n + limit - 1)
  = firstn (Z.to_nat limit) (skipn n studies).
Proof.
  unfold page. f_equal; [f_equal; lia | f_equal; lia].
Qed.

(** A turn of the loop that is not the first one. *)
Lemma loop_body_later (s : paging) :
  (offset s <> 1)%Z -> (found <> 0)%Z -> cap s = Some reach ->
  loop_body server term batchSize s
  = let batch := page studies (offset s) (offset s + limit s - 1) in
    let all := (results s ++ batch)%list in
    Ok (if Z.geb (Z.of_nat (List.length all)) reach then Return all
        else Next {| offset := offset s + Z.of_nat (List.length batch);
                     remaining := remaining s - Z.of_nat (List.length batch);
                     limit := Z.min (remaining s - Z.of_nat (List.length batch))
                                batchSize;
                     cap := Some reach;
                     results := all |}).
Proof.
  intros Hoff Hfound Hcap. unfold loop_body. cbn.
  apply Z.eqb_neq in Hfound. rewrite Hfound.
  apply Z.eqb_neq in Hoff. rewrite Hoff. cbn. rewrite Hcap.
  destruct (Z.geb _ reach); reflexivity.
Qed.

Abbreviation after := (Adapters.after studies batchSize reach).

Hypothesis reach_found : (reach <= found)%Z.

(** From the state after the first [n] studies, short of the cap, the
    loop returns the first studies up to the end of the batch that
    reaches the cap. *)
Lemma paging_loop_after (fuel : nat) :
  forall n : nat,
    1 <= n -> (Z.of_nat n < reach)%Z ->
    Z.to_nat (reach - Z.of_nat n) <= fuel ->
    paging_loop server fuel term batchSize (after n)
    = Some (Ok (firstn
                  (Z.to_nat
                     (Z.min found
                        (Z.of_nat n
                         + batchSize
                           * ((reach - Z.of_nat n + batchSize - 1)
                              / batchSize))))
                  studies)).
Proof.
  induction fuel as [|fuel IH]; intros n Hn Hlt Hfuel; [lia|].
  cbn [paging_loop].
  replace (Z.ltb 0 (remaining (after n))) with true
    by (symmetry; apply Z.ltb_lt; simpl; lia).
  rewrite loop_body_later;
    [| unfold after; cbn [offset]; lia | lia | reflexivity].
  cbv zeta. cbn [after offset limit results remaining cap].
  rewrite page_after.
  set (lim := Z.to_nat (Z.min (found - Z.of_nat n) batchSize)).
  assert (Hlim : 1 <= lim /\ n + lim <= List.length studies /\
                 (Z.of_nat lim <= batchSize)%Z) by (unfold lim; lia).
  rewrite firstn_more.
  assert (Hlen : List.length (firstn (n + lim) studies) = n + lim)
    by (apply firstn_length_le; lia).
  assert (Hbatch : List.length (firstn lim (skipn n studies)) = lim)
    by (rewrite length_firstn, length_skipn; lia).
  cbv zeta. rewrite Hlen, Hbatch.
  destruct (Z.geb (Z.of_nat (n + lim)) reach) eqn:Hge.
  - apply Z.geb_le in Hge. do 3 f_equal.
    replace ((reach - Z.of_nat n + batchSize - 1) / batchSize)%Z with 1%Z
      by (apply (Z.div_unique _ _ 1 (reach - Z.of_nat n - 1)); lia).
    unfold lim. lia.
  - assert (Hlt' : (Z.of_nat (n + lim) < reach)%Z).
    { destruct (Z.geb_spec (Z.of_nat (n + lim)) reach); [discriminate | lia]. }
    assert (Hfull : Z.of_nat lim = batchSize) by (unfold lim; lia).
    replace {| offset := 1 + Z.of_nat n + Z.of_nat lim;
               remaining := found - Z.of_nat n - Z.of_nat lim;
               limit := Z.min (found - Z.of_nat n - Z.of_nat lim) batchSize;
               cap := Some reach;
               results := firstn (n + lim) studies |}
      with (after (n + lim)) by (unfold after; f_equal; lia).
    rewrite IH by lia. do 3 f_equal.
    replace (reach - Z.of_nat n + batchSize - 1)%Z
      with (reach - Z.of_nat (n + lim) + batchSize - 1 + 1 * batchSize)%Z
      by lia.
    rewrite Z.div_add by lia. lia.
Qed.

End Paging.

Lemma firstn_min {A} (k : nat) (l : list A) :
  firstn k l = firstn (Nat.min k (List.length l)) l.
Proof.
  destruct (Nat.le_ge_cases k (List.length l)) as [H|H].
  - rewrite Nat.min_l by exact H. reflexivity.
  - rewrite Nat.min_r by exact H.
    rewrite firstn_all, firstn_all2 by exact H. reflexivity.
Qed.

(** The first turn of the loop. *)
Lemma loop_body_first (studies : list pyvalue) (term : string)
  (batchSize maxItems : Z) (s : paging) :
  let found := Z.of_nat (List.length studies) in
  let reach := Z.min maxItems found in
  let batch := firstn (Z.to_nat (limit s)) studies in
  offset s = 1%Z -> cap s = Some maxItems -> results s = [] ->
  loop_body (full_studies_server studies) term batchSize s
  = if Z.eqb found 0 then Ok (Return [])
    else
      Ok (if Z.geb (Z.of_nat (List.length batch)) reach then Return batch
          else Next {| offset := 1 + Z.of_nat (List.length batch);
                       remaining := found - Z.of_nat (List.length batch);
                       limit := Z.min (found - Z.of_nat (List.length batch))
                                  batchSize;
                       cap := Some reach;
                       results := batch |}).
Proof.
  intros found reach batch Hoff Hcap Hres. unfold loop_body.
  cbn -[Z.add Z.sub Z.min Z.geb Z.ltb Z.of_nat page].
  fold found. rewrite Hres. destruct (Z.eqb found 0); [reflexivity|].
  rewrite Hcap, Hoff. cbn -[Z.add Z.sub Z.min Z.geb Z.ltb Z.of_nat page].
  replace (page studies 1 (1 + limit s - 1)) with batch
    by (unfold page, batch; change (Z.to_nat (1 - 1)) with 0;
        cbn [skipn]; f_equal; lia).
  replace (if Z.ltb maxItems found then maxItems else found) with reach
    by (unfold reach; destruct (Z.ltb_spec maxItems found); lia).
  destruct (Z.geb _ reach); reflexivity.
Qed.

(** C6, as the code has it: from a well-behaved server the fetch returns
    the first studies in rank order and stops at the end of the first
    batch with which their number reaches the cap (the smaller of
    [maxItems] and the number of studies found), without cutting the
    batch down to the cap: it returns the first [fetched] studies, all of
    them.  That number exceeds the cap by less than a batch; it is the
    cap when [maxItems] fits in one batch, and otherwise a whole number
    of batches unless it is all the studies found. *)
Theorem getRemoteDataAsJson_stops_after_cap (studies : list pyvalue)
  (term : string) (batchSize maxItems : Z) :
  (1 <= batchSize)%Z -> (1 <= maxItems)%Z ->
  exists fuel results,
    ClinicalTrials_getRemoteDataAsJson (full_studies_server studies) fuel
      (capped term batchSize maxItems) = Some (Ok results) /\
    results
    = firstn
        (Z.to_nat (fetched (Z.of_nat (List.length studies)) batchSize maxItems))
        studies /\
    Z.of_nat (List.length results)
    = fetched (Z.of_nat (List.length studies)) batchSize maxItems /\
    (Z.min maxItems (Z.of_nat (List.length studies))
     <= Z.of_nat (List.length results)
     < Z.min maxItems (Z.of_nat (List.length studies)) + batchSize)%Z /\
    (maxItems <= batchSize ->
     Z.of_nat (List.length results)
     = Z.min maxItems (Z.of_nat (List.length studies)))%Z /\
    (batchSize < maxItems ->
     Z.of_nat (List.length results) = Z.of_nat (List.length studies) \/
     exists batches, Z.of_nat (List.length results) = batchSize * batches)%Z.
Proof.
  intros Hbatch Hmax.
  set (found := Z.of_nat (List.length studies)).
  set (reach := Z.min maxItems found).
  set (count := fetched found batchSize maxItems).
  assert (Hdiv : (batchSize * ((reach + batchSize - 1) / batchSize)
                  <= reach + batchSize - 1
                  < batchSize * ((reach + batchSize - 1) / batchSize)
                    + batchSize)%Z).
  { pose proof (Z.mul_div_le (reach + batchSize - 1) batchSize ltac:(lia)).
    pose proof (Z.mul_succ_div_gt (reach + batchSize - 1) batchSize
                  ltac:(lia)).
    lia. }
  assert (Hcount : (0 <= count <= found /\ reach <= count < reach + batchSize)%Z).
  { unfold count, fetched. fold reach.
    destruct (Z.leb_spec maxItems batchSize); lia. }
  assert (Hrun : exists fuel,
            ClinicalTrials_getRemoteDataAsJson (full_studies_server studies)
              fuel (capped term batchSize maxItems)
            = Some (Ok (firstn (Z.to_nat count) studies))).
  { exists (S (Z.to_nat reach)).
    unfold ClinicalTrials_getRemoteDataAsJson, capped.
    cbn [Adapters.term Adapters.batchSize Adapters.maxItems paging_loop
         remaining].
    change (Z.ltb 0 1) with true. cbv iota.
    rewrite (loop_body_first studies _ batchSize maxItems) by reflexivity.
    cbn [limit]. fold found. fold reach.
    set (limit0 := Z.min maxItems batchSize).
    set (batch := firstn (Z.to_nat limit0) studies).
    assert (Hlen : List.length batch
                   = Nat.min (Z.to_nat limit0) (List.length studies))
      by apply length_firstn.
    destruct (Z.eqb_spec found 0) as [Hzero|Hpos].
    - replace (Z.to_nat count) with 0 by lia. reflexivity.
    - destruct (Z.geb (Z.of_nat (List.length batch)) reach) eqn:Hge.
      + apply Z.geb_le in Hge. do 2 f_equal. unfold batch.
        rewrite firstn_min. f_equal.
        unfold count, fetched. fold reach.
        destruct (Z.leb_spec maxItems batchSize) as [Hle|Hgt]; [lia|].
        assert (Hone : ((reach + batchSize - 1) / batchSize = 1)%Z)
          by (symmetry; apply (Z.div_unique _ _ 1 (reach - 1)); lia).
        rewrite Hone. lia.
      + assert (Hlt : (Z.of_nat (List.length batch) < reach)%Z).
        { destruct (Z.geb_spec (Z.of_nat (List.length batch)) reach);
            [discriminate | lia]. }
        assert (Hfull : Z.of_nat (List.length batch) = batchSize) by lia.
        replace {| offset := 1 + Z.of_nat (List.length batch);
                   remaining := found - Z.of_nat (List.length batch);
                   limit := Z.min (found - Z.of_nat (List.length batch))
                              batchSize;
                   cap := Some reach;
                   results := batch |}
          with (after studies batchSize reach (List.length batch))
          by (unfold after; f_equal; rewrite Hlen; unfold batch;
              symmetry; apply firstn_min).
        rewrite (paging_loop_after studies (replace " " "+" term) batchSize
                   reach Hbatch ltac:(lia)) by lia.
        do 3 f_equal. unfold count, fetched. fold reach.
        destruct (Z.leb_spec maxItems batchSize) as [Hle|Hgt]; [lia|].
        f_equal. rewrite Hfull.
        replace (reach - batchSize + batchSize - 1)%Z
          with (reach + batchSize - 1 + (-1) * batchSize)%Z by lia.
        rewrite Z.div_add by lia. lia. }
  destruct Hrun as [fuel Hrun].
  assert (Hlength : Z.of_nat (List.length (firstn (Z.to_nat count) studies))
                    = count)
    by (rewrite firstn_length_le; lia).
  exists fuel, (firstn (Z.to_nat count) studies).
  split; [exact Hrun|]. split; [reflexivity|]. split; [exact Hlength|].
  rewrite Hlength. fold found. fold reach.
  split; [lia|]. split.
  - intros Hle. unfold count, fetched. fold reach.
    destruct (Z.leb_spec maxItems batchSize); lia.
  - intros Hgt. unfold count, fetched. fold reach.
    destruct (Z.leb_spec maxItems batchSize); [lia|].
    destruct (Z.min_spec found
                (batchSize * ((reach + batchSize - 1) / batchSize)))
      as [[_ ->] | [_ ->]]; [left; reflexivity | right; eexists; reflexivity].
Qed.

(** C6, as stated, fails: five studies, batches of two and a cap of three
    give back four studies. *)
Lemma truncates_at_cap_fails : ~ truncates_at_cap.
Proof.
  intros claim.
  specialize (claim [VInt 1; VInt 2; VInt 3; VInt 4; VInt 5] "heart attack"
                2%Z 3%Z 5 [VInt 1; VInt 2; VInt 3; VInt 4] eq_refl).
  simpl in claim. lia.
Qed.

Lemma getRemoteDataAsJson_stops_after_cap_witness :
  exists fuel,
    ClinicalTrials_getRemoteDataAsJson
      (full_studies_server [VInt 1; VInt 2; VInt 3; VInt 4; VInt 5]) fuel
      (capped "heart attack" 2 3)
    = Some (Ok [VInt 1; VInt 2; VInt 3; VInt 4]).
Proof.
  destruct (getRemoteDataAsJson_stops_after_cap
              [VInt 1; VInt 2; VInt 3; VInt 4; VInt 5] "heart attack" 2 3
              ltac:(lia) ltac:(lia))
    as (fuel & results & Hrun & Hresults & _).
  exists fuel. rewrite Hrun, Hresults. reflexivity.
Defined.

End FetchSpec.

(* ================================================================== *)
(** * query.py: the grammar, the visitor and the compiler *)
(* ================================================================== *)

Module GrammarSpec.

Import Query PyFacts.

(** ** What a rule leaves is no longer than what it was given *)

Lemma strip_prefix_length (t s r : string) :
  strip_prefix t s = Some r ->
  String.length s = String.length t + String.length r.
Proof.
  revert s. induction t as [|a t IH]; intros s; simpl.
  - intros H. injection H as ->. reflexivity.
  - destruct s as [|b s]; [discriminate|].
    destruct (Ascii.eqb a b); [|discriminate].
    intros H. simpl. rewrite (IH _ H). reflexivity.
Qed.

Lemma literal_length (t s m r : string) :
  literal t s = Some (m, r) ->
  m = t /\ String.length s = String.length t + String.length r.
Proof.
  unfold literal. destruct (strip_prefix t s) as [rest|] eqn:E; [|discriminate].
  intros H. injection H as <- <-. split; [reflexivity|].
  apply strip_prefix_length, E.
Qed.

Lemma shrinks_literal (t : string) : shrinks (literal t).
Proof. intros s m r H. apply literal_length in H. lia. Qed.

Lemma take_while_length (p : ascii -> bool) (s : string) :
  String.length (snd (take_while p s)) <= String.length s.
Proof.
  induction s as [|c s IH]; simpl; [lia|].
  destruct (p c); simpl; [|lia].
  destruct (take_while p s); simpl in *. lia.
Qed.

Lemma shrinks_seq (p q : matcher) : shrinks p -> shrinks q -> shrinks (seq p q).
Proof.
  intros Hp Hq s m r. unfold seq.
  destruct (p s) as [[a r1]|] eqn:E1; [|discriminate].
  destruct (q r1) as [[b r2]|] eqn:E2; [|discriminate].
  intros H. injection H as <- <-.
  specialize (Hp _ _ _ E1). specialize (Hq _ _ _ E2). lia.
Qed.

Lemma shrinks_alt (p q : matcher) : shrinks p -> shrinks q -> shrinks (alt p q).
Proof.
  intros Hp Hq s m r. unfold alt.
  destruct (p s) as [[a r1]|] eqn:E1.
  - intros H. injection H as <- <-. apply (Hp _ _ _ E1).
  - apply Hq.
Qed.

Lemma shrinks_optional (p : matcher) : shrinks p -> shrinks (optional p).
Proof.
  intros Hp s m r. unfold optional.
  destruct (p s) as [[a r1]|] eqn:E1; intros H; injection H as <- <-.
  - apply (Hp _ _ _ E1).
  - lia.
Qed.

Lemma shrinks_one_of (p : ascii -> bool) : shrinks (one_of p).
Proof.
  intros [|c s] m r; simpl; [discriminate|].
  destruct (p c); [|discriminate]. intros H. injection H as <- <-. lia.
Qed.

Lemma shrinks_digits : shrinks digits.
Proof.
  intros s m r. unfold digits.
  pose proof (take_while_length is_digit s) as Hlen.
  destruct (take_while is_digit s) as [[|c m'] r']; [discriminate|].
  intros H. injection H as <- <-. exact Hlen.
Qed.

Lemma key_scan_length (letters : list string) (s : string) (skip : nat) :
  String.length (snd (key_scan letters s skip)) <= String.length s.
Proof.
  revert skip. induction s as [|c s IH]; intros skip; simpl; [lia|].
  destruct skip as [|n].
  - destruct (is_ascii_key_char c).
    + specialize (IH 0). destruct (key_scan letters s 0); simpl in *. lia.
    + destruct (key_letter letters (String c s)) as [[|n]|]; simpl; try lia.
      specialize (IH n). destruct (key_scan letters s n); simpl in *. lia.
  - specialize (IH n). destruct (key_scan letters s n); simpl in *. lia.
Qed.

Create HintDb shrink.

Section Engine.

Variable key_letters : list string.
Variable stack_exhausted : string -> bool.

Abbreviation json_key := (Query.json_key key_letters).
Abbreviation scalar_filter := (Query.scalar_filter key_letters).
Abbreviation compound_filter := (Query.compound_filter key_letters).
Abbreviation choice := (Query.choice key_letters).
Abbreviation specific_filter := (Query.specific_filter key_letters).
Abbreviation filter := (Query.filter key_letters).
Abbreviation grammar_match := (Query.grammar_match key_letters).
Abbreviation grammar_parse :=
  (Query.grammar_parse key_letters stack_exhausted).

Lemma shrinks_json_key : shrinks json_key.
Proof.
  intros s m r. unfold Query.json_key.
  pose proof (key_scan_length key_letters s 0) as Hlen.
  destruct (key_scan key_letters s 0). intros H. injection H as <- <-.
  exact Hlen.
Qed.

Lemma shrinks_double_string : shrinks double_string.
Proof.
  intros s m r. unfold double_string.
  destruct s as [|c rest]; [discriminate|].
  destruct (Ascii.eqb c dquote); [|discriminate].
  pose proof (take_while_length (fun x => negb (Ascii.eqb x dquote)) rest)
    as Hlen.
  destruct (take_while _ rest) as [body after].
  destruct after as [|c' rest']; [discriminate|].
  destruct (Ascii.eqb c' dquote); [|discriminate].
  intros H. injection H as <- <-. simpl in *. lia.
Qed.

#[local] Hint Resolve shrinks_literal shrinks_seq shrinks_alt shrinks_optional
  shrinks_one_of shrinks_digits shrinks_json_key shrinks_double_string : shrink.

Lemma shrinks_json_value : shrinks json_value.
Proof.
  unfold json_value, true_false_null, number, int, frac, exp, e, digit,
    digit1to9.
  auto 20 with shrink.
Qed.

Lemma shrinks_scalar_operator : shrinks scalar_operator.
Proof. unfold scalar_operator. auto 20 with shrink. Qed.

Lemma shrinks_compound_operator : shrinks compound_operator.
Proof. unfold compound_operator. auto with shrink. Qed.

Lemma shrinks_boolean : shrinks boolean.
Proof. unfold boolean. auto with shrink. Qed.

(** A scalar filter takes its parentheses, at least. *)
Lemma scalar_filter_length (s : string) sc r :
  scalar_filter s = Some (sc, r) -> String.length r < String.length s.
Proof.
  unfold scalar_filter, open, close, separator.
  destruct (literal "(" s) as [[m1 r1]|] eqn:E1; [|discriminate].
  destruct (json_key r1) as [[k r2]|] eqn:E2; [|discriminate].
  destruct (literal "," r2) as [[m3 r3]|] eqn:E3; [|discriminate].
  destruct (scalar_operator r3) as [[op r4]|] eqn:E4; [|discriminate].
  destruct (literal "," r4) as [[m5 r5]|] eqn:E5; [|discriminate].
  destruct (json_value r5) as [[v r6]|] eqn:E6; [|discriminate].
  destruct (literal ")" r6) as [[m7 r7]|] eqn:E7; [|discriminate].
  intros H. injection H as <- <-.
  apply literal_length in E1, E3, E5, E7.
  apply shrinks_json_key in E2. apply shrinks_scalar_operator in E4.
  apply shrinks_json_value in E6. simpl in *. lia.
Qed.

Lemma compound_filter_length (s : string) x r :
  compound_filter s = Some (x, r) -> String.length r < String.length s.
Proof.
  unfold compound_filter, open, close, separator.
  destruct (literal "(" s) as [[m1 r1]|] eqn:E1; [|discriminate].
  destruct (json_key r1) as [[k r2]|] eqn:E2; [|discriminate].
  destruct (literal "," r2) as [[m3 r3]|] eqn:E3; [|discriminate].
  destruct (compound_operator r3) as [[op r4]|] eqn:E4; [|discriminate].
  destruct (literal "," r4) as [[m5 r5]|] eqn:E5; [|discriminate].
  destruct (scalar_filter r5) as [[v r6]|] eqn:E6; [|discriminate].
  destruct (literal ")" r6) as [[m7 r7]|] eqn:E7; [|discriminate].
  intros H. injection H as <- <-.
  apply literal_length in E1, E3, E5, E7.
  apply shrinks_json_key in E2. apply shrinks_compound_operator in E4.
  apply scalar_filter_length in E6. simpl in *. lia.
Qed.

(** ** The fuel of the parser

    A filter inside a boolean filter is shorter than the boolean filter,
    and every operand takes its comma: fuel equal to the length of the
    text is never used up. *)

Lemma boolean_operand_length f :
  consumes f -> consumes (boolean_operand f).
Proof.
  intros Hf s x r. unfold boolean_operand, separator.
  destruct (literal "," s) as [[m r1]|] eqn:E; [|discriminate].
  intros H. apply Hf in H. apply literal_length in E. simpl in *. lia.
Qed.

Lemma operands_star_length f n :
  consumes f ->
  forall s xs r,
    operands_star f n s = (xs, r) -> String.length r <= String.length s.
Proof.
  intros Hf. induction n as [|n IH]; intros s xs r; simpl.
  - intros H. injection H as <- <-. lia.
  - destruct (boolean_operand f s) as [[x rest]|] eqn:E.
    + destruct (operands_star f n rest) as [ys rest'] eqn:E'.
      intros H. injection H as <- <-.
      apply (boolean_operand_length f Hf) in E. apply IH in E'. lia.
    + intros H. injection H as <- <-. lia.
Qed.

Lemma boolean_filter_length f n :
  consumes f -> consumes (boolean_filter f n).
Proof.
  intros Hf s x r. unfold boolean_filter, boolean_operands, open, close.
  destruct (literal "(" s) as [[m1 r1]|] eqn:E1; [|discriminate].
  destruct (boolean r1) as [[b r2]|] eqn:E2; [|discriminate].
  destruct (operands_star f n r2) as [xs r3] eqn:E3.
  destruct xs as [|y ys]; [discriminate|].
  destruct (literal ")" r3) as [[m4 r4]|] eqn:E4; [|discriminate].
  intros H. injection H as <- <-.
  apply literal_length in E1, E4. apply shrinks_boolean in E2.
  apply (operands_star_length f n Hf) in E3. simpl in *. lia.
Qed.

Lemma choice_length f n : consumes f -> consumes (choice f n).
Proof.
  intros Hf s x r. unfold choice.
  destruct (scalar_filter s) as [[sc r1]|] eqn:E1.
  - intros H. injection H as <- <-. apply (scalar_filter_length _ _ _ E1).
  - destruct (compound_filter s) as [[c r2]|] eqn:E2.
    + intros H. injection H as <- <-. apply (compound_filter_length _ _ _ E2).
    + apply boolean_filter_length, Hf.
Qed.

Lemma specific_filter_length n : consumes (specific_filter n).
Proof.
  induction n as [|n IH]; [intros s x r; discriminate|].
  apply choice_length, IH.
Qed.

Lemma operands_star_fuel f g (bound : nat) :
  consumes f ->
  (forall t, String.length t < bound -> f t = g t) ->
  forall a b s,
    String.length s <= bound -> String.length s <= a -> String.length s <= b ->
    operands_star f a s = operands_star g b s.
Proof.
  intros Hf Hfg.
  assert (Hempty : forall h n, operands_star h n EmptyString = ([], EmptyString))
    by (intros h [|n]; reflexivity).
  induction a as [|a IH]; intros b s Hs Ha Hb.
  - destruct s; [|simpl in Ha; lia]. rewrite !Hempty. reflexivity.
  - destruct b as [|b].
    + destruct s; [|simpl in Hb; lia]. rewrite !Hempty. reflexivity.
    + cbn [operands_star]. unfold boolean_operand, separator.
      destruct (literal "," s) as [[m r1]|] eqn:E; [|reflexivity].
      apply literal_length in E. simpl in E.
      rewrite <- Hfg by lia.
      destruct (f r1) as [[x rest]|] eqn:Ef; [|reflexivity].
      apply Hf in Ef. rewrite (IH b rest) by lia. reflexivity.
Qed.

Lemma choice_fuel f g a b (s : string) :
  consumes f ->
  (forall t, String.length t < String.length s -> f t = g t) ->
  String.length s <= S a -> String.length s <= S b ->
  choice f a s = choice g b s.
Proof.
  intros Hf Hfg Ha Hb. unfold choice, boolean_filter, boolean_operands, open.
  destruct (scalar_filter s) as [[sc r0]|]; [reflexivity|].
  destruct (compound_filter s) as [c|]; [reflexivity|].
  destruct (literal "(" s) as [[m1 r1]|] eqn:E1; [|reflexivity].
  destruct (boolean r1) as [[bo r2]|] eqn:E2; [|reflexivity].
  apply literal_length in E1. apply shrinks_boolean in E2. simpl in E1.
  rewrite (operands_star_fuel f g (String.length s) Hf Hfg a b r2) by lia.
  reflexivity.
Qed.

(** For two amounts of fuel that are the length of the text or more, the
    parser gives the same result. *)
Lemma specific_filter_fuel (bound : nat) :
  forall s n m,
    String.length s <= bound ->
    String.length s <= n -> String.length s <= m ->
    specific_filter n s = specific_filter m s.
Proof.
  assert (Hempty : forall n, specific_filter n EmptyString = None)
    by (intros [|n]; reflexivity).
  induction bound as [|bound IH]; intros s n m Hs Hn Hm.
  - destruct s; [|simpl in Hs; lia]. rewrite !Hempty. reflexivity.
  - destruct n as [|n]; [destruct s; [|simpl in Hn; lia];
                        rewrite !Hempty; reflexivity|].
    destruct m as [|m]; [destruct s; [|simpl in Hm; lia];
                        rewrite !Hempty; reflexivity|].
    cbn [specific_filter].
    apply choice_fuel; [apply specific_filter_length | | lia | lia].
    intros t Ht. apply IH; lia.
Qed.

Theorem filter_fuel (text : string) (fuel : nat) :
  String.length text <= fuel ->
  filter fuel text = filter (String.length text) text.
Proof.
  intros Hfuel. unfold filter.
  destruct text as [|c rest]; [destruct fuel; reflexivity|].
  destruct fuel as [|fuel]; [simpl in Hfuel; lia|].
  apply choice_fuel;
    [apply specific_filter_length | | lia | simpl; lia].
  intros t Ht.
  apply (specific_filter_fuel (String.length t)); simpl in *; lia.
Qed.

(** ** The shape of what the parser accepts *)

Lemma scalar_operator_ok s op r :
  scalar_operator s = Some (op, r) -> is_scalar_operator op = true.
Proof.
  unfold scalar_operator, alt.
  repeat match goal with
         | |- context [literal ?t s] =>
             destruct (literal t s) as [[? ?]|] eqn:E;
             [apply literal_length in E; destruct E as [-> _];
              intros H; injection H as <- <-; reflexivity | clear E]
         end.
  discriminate.
Qed.

Lemma compound_operator_ok s op r :
  compound_operator s = Some (op, r) -> is_compound_operator op = true.
Proof.
  unfold compound_operator, alt.
  repeat match goal with
         | |- context [literal ?t s] =>
             destruct (literal t s) as [[? ?]|] eqn:E;
             [apply literal_length in E; destruct E as [-> _];
              intros H; injection H as <- <-; reflexivity | clear E]
         end.
  discriminate.
Qed.

Lemma boolean_ok s b r : boolean s = Some (b, r) -> is_boolean b = true.
Proof.
  unfold boolean, alt.
  repeat match goal with
         | |- context [literal ?t s] =>
             destruct (literal t s) as [[? ?]|] eqn:E;
             [apply literal_length in E; destruct E as [-> _];
              intros H; injection H as <- <-; reflexivity | clear E]
         end.
  discriminate.
Qed.

Lemma scalar_filter_ok s sc r :
  scalar_filter s = Some (sc, r) ->
  is_scalar_operator (node_operator sc) = true.
Proof.
  unfold scalar_filter.
  destruct (open s) as [[m1 r1]|]; [|discriminate].
  destruct (json_key r1) as [[k r2]|]; [|discriminate].
  destruct (separator r2) as [[m3 r3]|]; [|discriminate].
  destruct (scalar_operator r3) as [[op r4]|] eqn:E4; [|discriminate].
  destruct (separator r4) as [[m5 r5]|]; [|discriminate].
  destruct (json_value r5) as [[v r6]|]; [|discriminate].
  destruct (close r6) as [[m7 r7]|]; [|discriminate].
  intros H. injection H as <- <-. apply (scalar_operator_ok _ _ _ E4).
Qed.

Lemma compound_filter_ok s x r :
  compound_filter s = Some (x, r) -> node_ok x = true.
Proof.
  unfold compound_filter.
  destruct (open s) as [[m1 r1]|]; [|discriminate].
  destruct (json_key r1) as [[k r2]|]; [|discriminate].
  destruct (separator r2) as [[m3 r3]|]; [|discriminate].
  destruct (compound_operator r3) as [[op r4]|] eqn:E4; [|discriminate].
  destruct (separator r4) as [[m5 r5]|]; [|discriminate].
  destruct (scalar_filter r5) as [[v r6]|] eqn:E6; [|discriminate].
  destruct (close r6) as [[m7 r7]|]; [|discriminate].
  intros H. injection H as <- <-. cbn [node_ok].
  rewrite (compound_operator_ok _ _ _ E4), (scalar_filter_ok _ _ _ E6).
  reflexivity.
Qed.

Lemma operands_star_ok f n :
  sound f ->
  forall s xs r, operands_star f n s = (xs, r) -> forallb node_ok xs = true.
Proof.
  intros Hf. induction n as [|n IH]; intros s xs r; simpl.
  - intros H. injection H as <- <-. reflexivity.
  - unfold boolean_operand.
    destruct (separator s) as [[m r1]|]; [|intros H; injection H as <- <-;
                                            reflexivity].
    destruct (f r1) as [[x rest]|] eqn:E;
      [|intros H; injection H as <- <-; reflexivity].
    destruct (operands_star f n rest) as [ys rest'] eqn:E'.
    intros H. injection H as <- <-. simpl.
    rewrite (Hf _ _ _ E), (IH _ _ _ E'). reflexivity.
Qed.

Lemma choice_ok f n : sound f -> sound (choice f n).
Proof.
  intros Hf s x r. unfold choice.
  destruct (scalar_filter s) as [[sc r1]|] eqn:E1.
  - intros H. injection H as <- <-. apply (scalar_filter_ok _ _ _ E1).
  - destruct (compound_filter s) as [[c r2]|] eqn:E2.
    + intros H. injection H as <- <-. apply (compound_filter_ok _ _ _ E2).
    + unfold boolean_filter, boolean_operands.
      destruct (open s) as [[m1 r1]|]; [|discriminate].
      destruct (boolean r1) as [[b r2]|] eqn:Eb; [|discriminate].
      destruct (operands_star f n r2) as [xs r3] eqn:E3.
      destruct xs as [|y ys]; [discriminate|].
      destruct (close r3) as [[m4 r4]|]; [|discriminate].
      intros H. injection H as <- <-. cbn [node_ok].
      rewrite (boolean_ok _ _ _ Eb), (operands_star_ok f n Hf _ _ _ E3).
      reflexivity.
Qed.

Lemma specific_filter_ok n : sound (specific_filter n).
Proof.
  induction n as [|n IH]; [intros s x r; discriminate|].
  apply choice_ok, IH.
Qed.

(** A parse that returns is what the grammar makes of the text. *)
Lemma grammar_parse_returns text tree :
  grammar_parse text = Ok tree ->
  stack_exhausted text = false /\ grammar_match text = Ok tree.
Proof.
  unfold Query.grammar_parse.
  destruct (stack_exhausted text); [discriminate|].
  intros H. split; [reflexivity | exact H].
Qed.

Lemma grammar_parse_ok text tree :
  grammar_parse text = Ok tree -> node_ok tree = true.
Proof.
  intros H. apply grammar_parse_returns in H. destruct H as [_ H].
  revert H. unfold Query.grammar_match, Query.filter.
  destruct (Query.choice _ _ _ text) as [[x [|c r]]|] eqn:E;
    try discriminate.
  intros H. injection H as <-.
  apply (choice_ok _ _ (specific_filter_ok _) _ _ _ E).
Qed.

(** ** Induction on parse trees and on filter dicts *)

Lemma node_induction (P : node -> Prop) :
  (forall s, P (scalar_filter_node s)) ->
  (forall key operator inner, P (compound_filter_node key operator inner)) ->
  (forall boolean operands,
     Forall P operands -> P (boolean_filter_node boolean operands)) ->
  forall tree, P tree.
Proof.
  intros Hs Hc Hb. fix IH 1. intros [s | key op inner | b operands].
  - apply Hs.
  - apply Hc.
  - apply Hb. induction operands as [|x l IHl]; constructor;
      [apply IH | exact IHl].
Qed.

Lemma filter_dict_induction (P : filter_dict -> Prop) :
  (forall name op val, P (scalar_dict name op val)) ->
  (forall name op val_name val_op val_val,
     P (compound_dict name op val_name val_op val_val)) ->
  (forall boolean operands,
     Forall P operands -> P (boolean_dict boolean operands)) ->
  forall d, P d.
Proof.
  intros Hs Hc Hb. fix IH 1. intros [n o v | n o vn vo vv | b operands].
  - apply Hs.
  - apply Hc.
  - apply Hb. induction operands as [|x l IHl]; constructor;
      [apply IH | exact IHl].
Qed.

(** ** Every filter dict of that shape compiles *)

Lemma compile_ok (d : filter_dict) :
  dict_ok d = true -> exists c, get_sqlalchemy_clause d = Ok c.
Proof.
  induction d as [name op val | name op vn vo vv | b operands IH]
    using filter_dict_induction; cbn [dict_ok get_sqlalchemy_clause].
  - unfold is_scalar_operator, add_scalar_filter.
    destruct (operator op) as [[text c|q]|err]; try discriminate.
    intros _. cbn. destruct text; eexists; reflexivity.
  - unfold is_compound_operator, is_scalar_operator, add_compound_filter,
      get_all_sql_clause, get_any_sql_clause, elements_where.
    destruct (operator op) as [[text c|q]|err]; try discriminate.
    destruct (operator vo) as [[text c|q']|err]; try discriminate.
    intros _. cbn. destruct q, text; eexists; reflexivity.
  - intros H. apply andb_true_iff in H. destruct H as [Hb Hops].
    set (each := fix each (l : list filter_dict) : result (list clause) :=
                   match l with
                   | [] => Ok []
                   | c :: rest =>
                       x <- get_sqlalchemy_clause c ;;
                       xs <- each rest ;; Ok (x :: xs)
                   end).
    assert (Heach : exists cs, each operands = Ok cs).
    { clear Hb. induction operands as [|x l IHl]; [exists []; reflexivity|].
      simpl in Hops. apply andb_true_iff in Hops. destruct Hops as [Hx Hl].
      inversion IH as [|? ? Px Pl]; subst.
      destruct (Px Hx) as [c Hc]. destruct (IHl Pl Hl) as [cs Hcs].
      exists (c :: cs). simpl. rewrite Hc. simpl. rewrite Hcs. reflexivity. }
    destruct Heach as [cs Hcs]. rewrite Hcs.
    unfold is_boolean in Hb. apply orb_true_iff in Hb.
    destruct (String.eqb b "and"); [eexists; reflexivity|].
    destruct (String.eqb b "or"); [eexists; reflexivity|].
    destruct Hb; discriminate.
Qed.

Section Decoder.

Variable json_loads : string -> result pyvalue.

Abbreviation visit := (Query.visit json_loads).
Abbreviation search_metadata_helper :=
  (Query.search_metadata_helper key_letters stack_exhausted json_loads).

Lemma visit_json_value_outcomes text :
  (exists v, visit_json_value json_loads text = Ok v) \/
  visit_json_value json_loads text = Raise VisitationError.
Proof.
  unfold visit_json_value. destruct (json_loads text); [left; eexists|right];
    reflexivity.
Qed.

(** The visitor gives a filter dict of the shape of the tree, or raises a
    [VisitationError]. *)
Lemma visit_outcomes (tree : node) :
  node_ok tree = true ->
  (exists d, visit tree = Ok d /\ dict_ok d = true) \/
  visit tree = Raise VisitationError.
Proof.
  induction tree as [s | key op inner | b operands IH] using node_induction;
    cbn [node_ok Query.visit].
  - intros Hok. destruct (visit_json_value_outcomes (node_value s))
      as [[v ->] | ->]; [left | right; reflexivity].
    eexists. split; [reflexivity | exact Hok].
  - intros Hok. destruct (visit_json_value_outcomes (node_value inner))
      as [[v ->] | ->]; [left | right; reflexivity].
    eexists. split; [reflexivity | exact Hok].
  - intros H. apply andb_true_iff in H. destruct H as [Hb Hops].
    set (each := fix each (l : list node) : result (list filter_dict) :=
                   match l with
                   | [] => Ok []
                   | n :: rest => x <- visit n ;; xs <- each rest ;; Ok (x :: xs)
                   end).
    assert (Heach : (exists ds, each operands = Ok ds /\
                                forallb dict_ok ds = true) \/
                    each operands = Raise VisitationError).
    { clear Hb. induction operands as [|x l IHl];
        [left; exists []; split; reflexivity|].
      simpl in Hops. apply andb_true_iff in Hops. destruct Hops as [Hx Hl].
      inversion IH as [|? ? Px Pl]; subst. simpl.
      destruct (Px Hx) as [(d & -> & Hd) | ->]; [|right; reflexivity].
      destruct (IHl Pl Hl) as [(ds & -> & Hds) | ->]; [|right; reflexivity].
      left. exists (d :: ds). split; [reflexivity|].
      simpl. rewrite Hd, Hds. reflexivity. }
    destruct Heach as [(ds & -> & Hds) | ->]; [left | right; reflexivity].
    eexists. split; [reflexivity|]. cbn [dict_ok]. rewrite Hb, Hds.
    reflexivity.
Qed.

Lemma grammar_match_outcomes (text : string) :
  (exists tree, grammar_match text = Ok tree) \/
  grammar_match text = Raise ParseError \/
  grammar_match text = Raise IncompleteParseError.
Proof.
  unfold Query.grammar_match.
  destruct (Query.filter _ _ _) as [[t [|c' r']]|];
    [left; eexists; reflexivity | right; right | right; left]; reflexivity.
Qed.

(** While the stack holds, the helper builds its query or raises the
    HTTP 400 error. *)
Lemma helper_stack_holds (data : bool) (page limit : Z) (filter : string) :
  stack_exhausted filter = false ->
  (exists q, search_metadata_helper data page limit filter = Ok q) \/
  search_metadata_helper data page limit filter = Raise invalid_syntax.
Proof.
  intros Hstack.
  unfold Query.search_metadata_helper, filter_dict_of, parse_filter.
  destruct filter as [|c rest]; [left; eexists; reflexivity|].
  unfold Query.grammar_parse. rewrite Hstack.
  destruct (grammar_match (String c rest)) as [tree|err] eqn:Ematch.
  - assert (Hparse : grammar_parse (String c rest) = Ok tree)
      by (unfold Query.grammar_parse; rewrite Hstack; exact Ematch).
    cbn [bind]. destruct (visit_outcomes tree (grammar_parse_ok _ _ Hparse))
      as [(d & -> & Hd) | ->]; [|right; reflexivity].
    cbn [bind]. destruct (compile_ok d Hd) as [cl ->].
    left. eexists. reflexivity.
  - right.
    destruct (grammar_match_outcomes (String c rest))
      as [[tree H] | [H | H]]; rewrite H in Ematch;
      [discriminate | |]; injection Ematch as <-; reflexivity.
Qed.

(** When the parser uses up the stack, its [RecursionError] leaves the
    helper: the [except] clause does not name it. *)
Lemma helper_stack_exhausted (data : bool) (page limit : Z) (filter : string) :
  filter <> EmptyString ->
  stack_exhausted filter = true ->
  search_metadata_helper data page limit filter = Raise RecursionError.
Proof.
  intros Hne Hstack.
  unfold Query.search_metadata_helper, filter_dict_of, parse_filter.
  destruct filter as [|c rest]; [congruence|].
  unfold Query.grammar_parse. rewrite Hstack. reflexivity.
Qed.

(** X16: whatever the filter string, the helper builds its query or
    raises the HTTP 400 error, but for the filter strings whose parse
    uses up the stack of the interpreter: on these, and on these only,
    the [RecursionError] of the parser leaves the helper.  No other
    exception leaves it. *)
Theorem search_metadata_helper_outcomes (data : bool) (page limit : Z)
  (filter : string) :
  if negb (String.eqb filter EmptyString) && stack_exhausted filter
  then search_metadata_helper data page limit filter = Raise RecursionError
  else
    (exists q, search_metadata_helper data page limit filter = Ok q) \/
    search_metadata_helper data page limit filter = Raise invalid_syntax.
Proof.
  destruct (String.eqb_spec filter EmptyString) as [->|Hne]; cbn [negb andb].
  - left. eexists. reflexivity.
  - destruct (stack_exhausted filter) eqn:Hstack.
    + apply helper_stack_exhausted; assumption.
    + apply helper_stack_holds, Hstack.
Qed.

End Decoder.

End Engine.

End GrammarSpec.

(* ================================================================== *)
(** * query.py: the [:all] quantifier and the errors of the filter *)
(* ================================================================== *)

Module QuerySpec.

Import Query.

Lemma for_each_sequence {A} (l : list (result A)) (xs : list A) :
  Forall2 (fun m x => m = Ok x) l xs ->
  forall acc,
    for_each (fun acc m => x <- m ;; Ok (acc ++ [x])) l acc = Ok (acc ++ xs).
Proof.
  induction 1 as [|m x l xs Hm _ IH]; intros acc; simpl.
  - rewrite app_nil_r. reflexivity.
  - subst m. simpl. rewrite IH, <- app_assoc. reflexivity.
Qed.

(** A list of results none of which raises. *)
Lemma sequence_map_ok {A B} (g : A -> B) (l : list A) :
  sequence (map (fun x => Ok (g x)) l) = Ok (map g l).
Proof.
  unfold sequence. apply (for_each_sequence _ (map g l)).
  induction l; simpl; constructor; [reflexivity | assumption].
Qed.

Lemma filter_all {A} (p : A -> bool) (l : list A) :
  List.length (List.filter p l) = List.length l <->
  forall x, In x l -> p x = true.
Proof.
  induction l as [|a l IH]; simpl.
  - split; [intros _ x [] | reflexivity].
  - pose proof (filter_length_le p l) as Hle.
    destruct (p a) eqn:Ea; simpl.
    + rewrite Nat.succ_inj_wd, IH. split.
      * intros H x [<-|Hx]; [exact Ea | apply H, Hx].
      * intros H x Hx. apply H. right. exact Hx.
    + split; [lia|]. intros H. specialize (H a (or_introl eq_refl)). congruence.
Qed.

Lemma filter_map_length {A B} (p : B -> bool) (g : A -> B) (l : list A) :
  List.length (List.filter p (map g l))
  = List.length (List.filter (fun x => p (g x)) l).
Proof.
  induction l as [|a l IH]; [reflexivity|]. simpl.
  destruct (p (g a)); simpl; congruence.
Qed.

Section Store.

Variable extract_path : pyvalue -> list string -> option pyvalue.
Variable jsonb_text : pyvalue -> option string.
Variable sql_compare : comparator -> sqlval -> sqlval -> option bool.

Abbreviation eval := (Query.eval extract_path jsonb_text sql_compare).
Abbreviation satisfies := (Query.satisfies jsonb_text sql_compare).

(** C2: the clause an [:all] filter compiles to, on a document whose
    field is an array, has a truth value, and it is true exactly when the
    number of elements that satisfy the inner scalar comparison is the
    length of the array, that is, when every element satisfies it; on an
    empty array it is true. *)
Theorem all_filter_counts (doc : pyvalue) (name inner_name op : string)
  (operand : pyvalue) (arr : list pyvalue) (text : bool) (cmp : comparator) :
  operator op = Ok (sql_comparator text cmp) ->
  extract_path doc (split "." name) = Some (VList arr) ->
  exists (c : clause) (b : bool),
    get_sqlalchemy_clause (compound_dict name ":all" inner_name op operand)
    = Ok c /\
    eval doc SNull c = Ok (Some b) /\
    (b = true <->
     List.length (List.filter (satisfies op operand) arr) = List.length arr) /\
    (b = true <-> forall x, In x arr -> satisfies op operand x = true) /\
    (arr = [] -> b = true).
Proof.
  intros Hop Harr.
  set (w := compare cmp column_f
              (if text then bound operand else cast_JSONB operand)).
  set (f := if text then jsonb_array_elements_text else jsonb_array_elements).
  exists (length_eq_count (split "." name) f w).
  exists (Nat.eqb (List.length arr)
            (List.length (List.filter (satisfies op operand) arr))).
  split; [|split; [|split; [|split]]].
  - cbn [get_sqlalchemy_clause]. unfold add_compound_filter.
    change (operator ":all") with (Ok (sql_clause All)).
    cbn [bind get_sql_clause].
    unfold get_all_sql_clause, elements_where. rewrite Hop.
    cbn [bind is_text get_sql_comparator]. unfold f, w.
    destruct text; reflexivity.
  - cbn [Query.eval]. unfold array_length, element_rows. rewrite Harr.
    cbn [bind]. rewrite map_map. unfold w. cbn [Query.eval eval_column].
    rewrite (sequence_map_ok
               (fun x => sql_compare cmp
                           (match f with
                            | jsonb_array_elements => SJsonb
                            | jsonb_array_elements_text => text_value jsonb_text
                            end x)
                           (eval_operand
                              (if text then bound operand
                               else cast_JSONB operand)))).
    cbn [bind]. rewrite filter_map_length. do 4 f_equal.
    apply filter_ext. intros x. unfold Query.satisfies. rewrite Hop.
    unfold f. destruct text; reflexivity.
  - rewrite Nat.eqb_eq. split; congruence.
  - rewrite Nat.eqb_eq, <- filter_all. split; congruence.
  - intros ->. reflexivity.
Qed.
Variable key_letters : list string.
Variable stack_exhausted : string -> bool.
Variable json_loads : string -> result pyvalue.

Abbreviation grammar_match := (Query.grammar_match key_letters).
Abbreviation search_metadata_helper :=
  (Query.search_metadata_helper key_letters stack_exhausted json_loads).
Abbreviation qualifies := (Query.qualifies extract_path jsonb_text sql_compare).

(** C3, as the code has it: the empty filter string gives a query
    without a [where] clause, for which every row qualifies.  While the
    parser has stack left, a filter string that is not empty and that the
    grammar does not accept, or whose values the visitor cannot decode,
    raises the HTTP 400 error with the fixed message.  But a filter
    string whose parse uses up the stack of the interpreter, as deeply
    nested ones do, raises a [RecursionError], whether the grammar accepts
    it or not: the [except] clause does not catch it, and it leaves the
    helper as a server fault. *)
Theorem filter_syntax_errors (data : bool) (page limit : Z) (filter : string) :
  (filter = EmptyString ->
   exists q,
     search_metadata_helper data page limit filter = Ok q /\
     where_ q = None /\
     forall doc, qualifies q doc = Ok true) /\
  (filter <> EmptyString ->
   stack_exhausted filter = false ->
   is_ok (grammar_match filter) = false ->
   search_metadata_helper data page limit filter
   = Raise (HTTPException 400 "filter URL query param syntax is invalid")) /\
  (forall tree,
     filter <> EmptyString ->
     stack_exhausted filter = false ->
     grammar_match filter = Ok tree ->
     is_ok (Query.visit json_loads tree) = false ->
     search_metadata_helper data page limit filter
     = Raise (HTTPException 400 "filter URL query param syntax is invalid")) /\
  (filter <> EmptyString ->
   stack_exhausted filter = true ->
   search_metadata_helper data page limit filter = Raise RecursionError /\
   Raise RecursionError
   <> Raise (A := query)
        (HTTPException 400 "filter URL query param syntax is invalid")).
Proof.
  split; [|split; [|split]].
  - intros ->. eexists. split; [reflexivity|]. split; [reflexivity|].
    intros doc. reflexivity.
  - intros Hne Hstack Hbad.
    unfold Query.search_metadata_helper, filter_dict_of, parse_filter.
    destruct filter as [|c rest]; [congruence|].
    unfold Query.grammar_parse. rewrite Hstack.
    destruct (GrammarSpec.grammar_match_outcomes key_letters (String c rest))
      as [[tree H] | [H | H]]; rewrite H in *;
      [discriminate | reflexivity | reflexivity].
  - intros tree Hne Hstack Hmatch Hvisit.
    assert (Hparse : Query.grammar_parse key_letters stack_exhausted filter
                     = Ok tree)
      by (unfold Query.grammar_parse; rewrite Hstack; exact Hmatch).
    unfold Query.search_metadata_helper, filter_dict_of, parse_filter.
    destruct filter as [|c rest]; [congruence|].
    rewrite Hparse. cbn [bind].
    destruct (GrammarSpec.visit_outcomes json_loads tree
                (GrammarSpec.grammar_parse_ok _ _ _ _ Hparse))
      as [(d & Hd & _) | ->]; [|reflexivity].
    rewrite Hd in Hvisit. discriminate.
  - intros Hne Hstack. split; [|discriminate].
    apply GrammarSpec.helper_stack_exhausted; assumption.
Qed.

End Store.

(** The examples of the docstring and of the specification. *)
Example all_counts_42 :
  Samples.eval (VDict [("counts", VList [VInt 42; VInt 42; VInt 42])]) SNull
    (length_eq_count ["counts"] jsonb_array_elements
       (compare Ceq column_f (cast_JSONB (VInt 42))))
  = Ok (Some true).
Proof. reflexivity. Qed.

Example all_counts_135 :
  Samples.eval (VDict [("counts", VList [VInt 1; VInt 3; VInt 5])]) SNull
    (length_eq_count ["counts"] jsonb_array_elements
       (compare Ceq column_f (cast_JSONB (VInt 42))))
  = Ok (Some false).
Proof. reflexivity. Qed.

Example all_counts_empty :
  Samples.eval (VDict [("counts", VList [])]) SNull
    (length_eq_count ["counts"] jsonb_array_elements
       (compare Ceq column_f (cast_JSONB (VInt 42))))
  = Ok (Some true).
Proof. reflexivity. Qed.

Example filter_compiles :
  Samples.search_metadata_helper false 2 5000 "(counts,:all,(,:eq,42))"
  = Ok {| with_data := false;
          where_ :=
            Some (length_eq_count ["counts"] jsonb_array_elements
                    (compare Ceq column_f (cast_JSONB (VInt 42))));
          query_offset := 4000;
          query_limit := 2000 |}.
Proof. reflexivity. Qed.

Example unbalanced_parentheses :
  Samples.search_metadata_helper false 0 10 "(a,:eq,1" = Raise invalid_syntax.
Proof. reflexivity. Qed.

Example unknown_operator :
  Samples.search_metadata_helper false 0 10 "(a,:is,1)" = Raise invalid_syntax.
Proof. reflexivity. Qed.

Example trailing_text :
  Samples.search_metadata_helper false 0 10 "(a,:eq,1))" = Raise invalid_syntax.
Proof. reflexivity. Qed.

(** A key may hold a long s: the key class ignores case. *)
Example long_s_key :
  Query.grammar_match Samples.key_letters
    ("(" ++ Samples.long_s ++ ",:eq,1)")
  = Ok (scalar_filter_node
          {| node_key := Samples.long_s; node_operator := ":eq";
             node_value := "1" |}).
Proof. reflexivity. Qed.

(** A hundred and fifty filters, one in the other and none closed: not a
    filter, and the parser does not come back from it. *)
Example deep_nesting :
  Query.grammar_match Samples.key_letters (Samples.times "(and," 150)
  = Raise ParseError /\
  Samples.search_metadata_helper false 0 10 (Samples.times "(and," 150)
  = Raise RecursionError.
Proof. split; vm_compute; reflexivity. Qed.

Lemma all_filter_counts_witness :
  operator ":eq" = Ok (sql_comparator false Ceq) /\
  Samples.extract_path (VDict [("counts", VList [VInt 42; VInt 42])])
    (split "." "counts") = Some (VList [VInt 42; VInt 42]) /\
  exists c,
    get_sqlalchemy_clause (compound_dict "counts" ":all" "" ":eq" (VInt 42))
    = Ok c /\
    Samples.eval (VDict [("counts", VList [VInt 42; VInt 42])]) SNull c
    = Ok (Some true).
Proof.
  split; [reflexivity|]. split; [reflexivity|].
  destruct (all_filter_counts Samples.extract_path Samples.jsonb_text
              Samples.sql_compare
              (VDict [("counts", VList [VInt 42; VInt 42])])
              "counts" "" ":eq" (VInt 42) [VInt 42; VInt 42] false Ceq
              eq_refl eq_refl)
    as (c & b & Hc & Hb & _ & Hall & _).
  exists c. split; [exact Hc|].
  assert (Htrue : b = true).
  { apply Hall. intros x [<-|[<-|[]]]; reflexivity. }
  unfold Samples.eval. rewrite Hb, Htrue. reflexivity.
Defined.

Lemma filter_syntax_errors_witness :
  is_ok (Query.grammar_match Samples.key_letters (Samples.times "(and," 150))
  = false /\
  Samples.search_metadata_helper true 0 10 (Samples.times "(and," 150)
  = Raise RecursionError /\
  Samples.search_metadata_helper true 0 10 "(a,:eq,1"
  = Raise (HTTPException 400 "filter URL query param syntax is invalid").
Proof.
  split; [vm_compute; reflexivity|]. split.
  - apply (filter_syntax_errors Samples.extract_path Samples.jsonb_text
             Samples.sql_compare Samples.key_letters Samples.stack_exhausted
             Samples.json_loads true 0 10 (Samples.times "(and," 150));
      [discriminate | vm_compute; reflexivity].
  - apply (filter_syntax_errors Samples.extract_path Samples.jsonb_text
             Samples.sql_compare Samples.key_letters Samples.stack_exhausted
             Samples.json_loads true 0 10 "(a,:eq,1");
      [discriminate | reflexivity | reflexivity].
Defined.

End QuerySpec.

(* ================================================================== *)
(** * adapters.py: flatten gives a flat dict *)
(* ================================================================== *)

Module FlattenMore.

Import Adapters PyFacts DictFacts FlattenSpec.

Lemma flatten_items_scalars flat parent_key separator (d : dict pyvalue) :
  (forall key sub x,
     In (key, VDict sub) d -> In x (flat (VDict sub)) ->
     is_dict (snd x) = false) ->
  forall x, In x (flatten_items flat parent_key separator d) ->
            is_dict (snd x) = false.
Proof.
  induction d as [|[key value] rest IH]; intros Hflat; [intros x []|].
  cbn [flatten_items]. intros x H.
  assert (Hrest : In x (flatten_items flat parent_key separator rest) ->
                  is_dict (snd x) = false).
  { apply IH. intros key' sub y Hin. apply (Hflat key' sub y). right.
    exact Hin. }
  destruct value;
    try (destruct H as [<-|H]; [reflexivity | exact (Hrest H)]).
  apply in_app_or in H. destruct H as [H|H]; [|exact (Hrest H)].
  apply (Hflat key d x); [left; reflexivity | exact H].
Qed.

Lemma flatten_scalars (parent_key : option string) (separator : string)
  (v : pyvalue) :
  forall x, In x (flatten v parent_key separator) -> is_dict (snd x) = false.
Proof.
  revert parent_key.
  induction v as [| | | | | |d IH] using pyvalue_induction;
    intros parent_key; try (intros x []).
  intros x H. rewrite flatten_unfold in H.
  destruct x as [k x]. apply In_dict_of_items in H. revert H.
  apply (flatten_items_scalars (fun v => flatten v None separator)).
  intros key sub y Hin Hy. rewrite Forall_forall in IH.
  apply (IH (key, VDict sub) Hin None y Hy).
Qed.

(** X1: what [flatten] returns is flat, no value of it is a dict, and has
    no key twice. *)
Theorem flatten_is_flat (v : pyvalue) (parent_key : option string)
  (separator : string) :
  NoDup (dict_keys (flatten v parent_key separator)) /\
  forall k x, In (k, x) (flatten v parent_key separator) -> is_dict x = false.
Proof.
  split.
  - destruct v; try constructor. rewrite flatten_unfold.
    apply NoDup_dict_of_items.
  - intros k x H. apply (flatten_scalars _ _ _ (k, x) H).
Qed.

Lemma flatten_items_flat flat separator (d : dict pyvalue) :
  (forall x, In x d -> is_dict (snd x) = false) ->
  flatten_items flat None separator d = d.
Proof.
  induction d as [|[key value] rest IH]; intros H; [reflexivity|].
  cbn [flatten_items].
  assert (Hv : is_dict value = false) by apply (H (key, value)), in_eq.
  rewrite IH by (intros x Hx; apply H; right; exact Hx).
  destruct value; try reflexivity. discriminate.
Qed.

(** X2: flattening what is flat already changes nothing: [flatten] of a
    flattened dict is that dict. *)
Theorem flatten_idempotent (v : pyvalue) (parent_key : option string)
  (separator : string) :
  flatten (VDict (flatten v parent_key separator)) None separator
  = flatten v parent_key separator.
Proof.
  rewrite flatten_unfold, flatten_items_flat.
  - apply dict_of_items_fresh.
    destruct v; try constructor. rewrite flatten_unfold.
    apply NoDup_dict_of_items.
  - intros x H. apply (flatten_scalars _ _ _ x H).
Qed.

Lemma flatten_items_app flat parent_key separator (a b : dict pyvalue) :
  flatten_items flat parent_key separator (a ++ b)
  = flatten_items flat parent_key separator a
    ++ flatten_items flat parent_key separator b.
Proof.
  induction a as [|[key value] a IH]; [reflexivity|].
  cbn [app flatten_items]. rewrite IH.
  destruct value; try reflexivity. apply app_assoc.
Qed.

(** X3: on a collision of keys the later value wins: a value that is not
    a dict, in the last entry of the dict, is what the flattened dict has
    under its key, whatever the entries before it hold, at any depth. *)
Theorem flatten_last_entry_wins (d : dict pyvalue) (k : string) (v : pyvalue)
  (separator : string) :
  is_dict v = false ->
  dict_get k (flatten (VDict (d ++ [(k, v)])) None separator) = Some v.
Proof.
  intros Hv. rewrite flatten_unfold, flatten_items_app.
  unfold dict_of_items. rewrite dict_update_app.
  replace (flatten_items (fun v0 => flatten v0 None separator) None separator
             [(k, v)]) with [(k, v)]
    by (cbn; destruct v; try reflexivity; discriminate).
  cbn [dict_update fold_left fst snd]. rewrite dict_get_set, String.eqb_refl.
  reflexivity.
Qed.

Lemma flatten_last_entry_wins_witness :
  dict_get "k"
    (flatten (VDict ([("a", VDict [("k", VInt 1)])] ++ [("k", VInt 2)]))
       None ".")
  = Some (VInt 2).
Proof.
  apply (flatten_last_entry_wins [("a", VDict [("k", VInt 1)])] "k" (VInt 2)
           ".").
  reflexivity.
Defined.

End FlattenMore.

(* ================================================================== *)
(** * adapters.py: mapFields and addGen3ExpectedFields *)
(* ================================================================== *)

Module MapperSpec.

Import Adapters PyFacts DictFacts.

Section Libraries.

Variable bleach_clean : string -> string.
Variable jsonpath : Type.
Variable parse : pyvalue -> result jsonpath.
Variable find : jsonpath -> pyvalue -> list pyvalue.
Variable repr : pyvalue -> string.

Abbreviation map_field := (Adapters.map_field bleach_clean jsonpath parse find).
Abbreviation mapFields := (Adapters.mapFields bleach_clean jsonpath parse find).
Abbreviation PDAPS_addGen3ExpectedFields :=
  (Adapters.PDAPS_addGen3ExpectedFields bleach_clean jsonpath parse find).
Abbreviation ISCPSRDublin_addGen3ExpectedFields :=
  (Adapters.ISCPSRDublin_addGen3ExpectedFields bleach_clean jsonpath parse find).

(** The loop of [mapFields] from any dict of results whose keys the
    entries still to come do not have. *)
Lemma mapFields_loop (item : pyvalue) (mappings acc : dict pyvalue) :
  NoDup (dict_keys (acc ++ mappings)) ->
  forall results,
    for_each
      (fun results kv =>
         field_value <- map_field item (snd kv) ;;
         Ok (dict_set (fst kv) field_value results))
      mappings acc = Ok results <->
    exists fields,
      Forall2 (fun kv kr => fst kr = fst kv /\
                            map_field item (snd kv) = Ok (snd kr))
        mappings fields /\
      results = acc ++ fields.
Proof.
  revert acc. induction mappings as [|[k spec] rest IH]; intros acc Hnd results.
  - simpl. split.
    + intros H. injection H as <-. exists []. split; [constructor|].
      rewrite app_nil_r. reflexivity.
    + intros (fields & Hf & ->). inversion Hf. rewrite app_nil_r. reflexivity.
  - assert (Hk : dict_in k acc = false).
    { destruct (dict_in k acc) eqn:E; [|reflexivity]. exfalso.
      apply dict_in_keys in E. unfold dict_keys in Hnd. rewrite map_app in Hnd.
      apply NoDup_remove_2 in Hnd. apply Hnd, in_or_app. left. exact E. }
    cbn [for_each fst snd].
    destruct (map_field item spec) as [v|err] eqn:Ev; cbn [bind].
    + rewrite (dict_set_absent _ _ _ Hk), IH
        by (unfold dict_keys in *; rewrite !map_app in *;
            rewrite <- app_assoc; exact Hnd).
      split.
      * intros (fields & Hf & ->). exists ((k, v) :: fields).
        split; [constructor; [split; [reflexivity | exact Ev] | exact Hf]|].
        rewrite <- app_assoc. reflexivity.
      * intros (fields & Hf & ->).
        inversion Hf as [|? [k' v'] ? fields' [Hkey Hval] Hrest]; subst.
        simpl in Hkey, Hval. subst k'. rewrite Ev in Hval.
        injection Hval as <-. exists fields'. split; [exact Hrest|].
        rewrite <- app_assoc. reflexivity.
    + split; [discriminate|].
      intros (fields & Hf & _).
      inversion Hf as [|? kr ? ? [_ Hval] _]; subst. simpl in Hval.
      rewrite Ev in Hval. discriminate.
Qed.

(** X4: [mapFields] returns a dict exactly when every entry of the
    mapping gives a value, and then the dict has the keys of the mapping,
    in the order of the mapping, each with the value of its entry. *)
Theorem mapFields_entries (item : pyvalue) (mappings results : dict pyvalue) :
  NoDup (dict_keys mappings) ->
  (mapFields item mappings = Ok results <->
   Forall2 (fun kv kr => fst kr = fst kv /\
                         map_field item (snd kv) = Ok (snd kr))
     mappings results).
Proof.
  intros Hnd. unfold Adapters.mapFields.
  rewrite (mapFields_loop item mappings [] Hnd). split.
  - intros (fields & Hf & ->). exact Hf.
  - intros Hf. exists results. split; [exact Hf | reflexivity].
Qed.

(** X5: the first entry of the mapping that raises stops [mapFields],
    which raises what the entry raised: no partial dict comes back. *)
Theorem mapFields_first_error (item : pyvalue)
  (before after : dict pyvalue) (key : string) (spec : pyvalue) (err : exn) :
  (forall kv, In kv before -> is_ok (map_field item (snd kv)) = true) ->
  map_field item spec = Raise err ->
  mapFields item (before ++ (key, spec) :: after) = Raise err.
Proof.
  intros Hbefore Hspec. unfold Adapters.mapFields.
  rewrite for_each_app. generalize (@nil (string * pyvalue)).
  induction before as [|[k s] before IH]; intros acc.
  - cbn [for_each bind fst snd]. rewrite Hspec. reflexivity.
  - cbn [for_each fst snd].
    pose proof (Hbefore (k, s) (or_introl eq_refl)) as Hk. simpl in Hk.
    destruct (map_field item s); [|discriminate]. cbn [bind].
    apply IH. intros kv Hin. apply Hbefore. right. exact Hin.
Qed.

Lemma mapFields_keys_unique (item : pyvalue) (mappings results : dict pyvalue) :
  mapFields item mappings = Ok results -> NoDup (dict_keys results).
Proof.
  unfold Adapters.mapFields.
  assert (H : forall acc, NoDup (dict_keys acc) ->
            for_each
              (fun results kv =>
                 field_value <- map_field item (snd kv) ;;
                 Ok (dict_set (fst kv) field_value results))
              mappings acc = Ok results -> NoDup (dict_keys results)).
  { induction mappings as [|[k s] rest IH]; intros acc Hacc; simpl.
    - intros E. injection E as <-. exact Hacc.
    - destruct (map_field item s); [|discriminate]. simpl.
      apply IH, NoDup_dict_set, Hacc. }
  apply H. constructor.
Qed.

(** X6: with [keepOriginalFields] the mapped fields are laid over the
    item, a mapped field winning over an original one of the same key, and
    the caller's item is the dict returned; without it the mapped fields
    alone come back and the item stays as it was. *)
Theorem PDAPS_addGen3ExpectedFields_overlay (d mappings results : dict pyvalue)
  (keepOriginalFields : bool) (item' : pyvalue) :
  PDAPS_addGen3ExpectedFields (VDict d) (Some mappings) keepOriginalFields
  = Ok (results, item') ->
  exists mapped,
    mapFields (VDict d) mappings = Ok mapped /\
    if keepOriginalFields then
      item' = VDict results /\
      forall k,
        dict_get k results
        = match dict_get k mapped with
          | Some v => Some v
          | None => dict_get k d
          end
    else results = mapped /\ item' = VDict d.
Proof.
  unfold Adapters.PDAPS_addGen3ExpectedFields, overlay.
  destruct (mapFields (VDict d) mappings) as [mapped|err] eqn:Em;
    [|discriminate].
  cbn [bind]. intros H. exists mapped. split; [reflexivity|].
  destruct keepOriginalFields; cbn [bind py_subscript] in H.
  - destruct (dict_item "investigators" (dict_update d mapped)) as [inv|];
      [|discriminate]. cbn [bind] in H.
    assert (Hr : results = dict_update d mapped /\ item' = VDict results).
    { destruct inv; try discriminate; injection H as <- <-; split;
        reflexivity. }
    destruct Hr as [-> ->]. split; [reflexivity|].
    intros k. apply dict_get_update.
    apply (mapFields_keys_unique _ _ _ Em).
  - destruct (dict_item "investigators" mapped) as [inv|]; [|discriminate].
    cbn [bind] in H.
    destruct inv; try discriminate; injection H as <- <-; split; reflexivity.
Qed.

Lemma str_elements_strings (names : list string) :
  str_elements (map VStr names) = Ok names.
Proof.
  unfold str_elements.
  assert (H : forall acc,
            for_each
              (fun acc x =>
                 match x with
                 | VStr s => Ok (acc ++ [s])
                 | _ => Raise TypeError
                 end) (map VStr names) acc = Ok (acc ++ names)).
  { induction names as [|n names IH]; intros acc; simpl.
    - rewrite app_nil_r. reflexivity.
    - rewrite IH, <- app_assoc. reflexivity. }
  apply (H []).
Qed.

(** X7: ISCPSRDublin joins a list of names under "investigators" with
    commas, where PDAPS raises; the other fields stay as mapped. *)
Theorem ISCPSRDublin_joins_investigators (item : pyvalue)
  (mappings : option (dict pyvalue)) (keepOriginalFields aliased : bool)
  (d : dict pyvalue) (names : list string) :
  overlay bleach_clean jsonpath parse find item mappings keepOriginalFields
  = Ok (VDict d, aliased) ->
  dict_get "investigators" d = Some (VList (map VStr names)) ->
  ISCPSRDublin_addGen3ExpectedFields item mappings keepOriginalFields
  = Ok (returned aliased
          (dict_set "investigators" (VStr (join "," names)) d) item).
Proof.
  intros Hover Hinv. unfold Adapters.ISCPSRDublin_addGen3ExpectedFields.
  rewrite Hover. cbn [bind py_subscript]. unfold dict_item. rewrite Hinv.
  cbn [bind]. rewrite str_elements_strings. reflexivity.
Qed.

End Libraries.

Lemma mapFields_entries_witness :
  Samples.mapFields (VDict [("a", VInt 1)])
    [("x", VStr "path:a"); ("y", VStr "lit")]
  = Ok [("x", VInt 1); ("y", VStr "lit")].
Proof.
  apply (mapFields_entries Samples.bleach_clean (list Samples.step)
           Samples.parse Samples.find (VDict [("a", VInt 1)])
           [("x", VStr "path:a"); ("y", VStr "lit")]
           [("x", VInt 1); ("y", VStr "lit")]).
  - repeat constructor; simpl; intuition discriminate.
  - repeat constructor.
Defined.

Lemma mapFields_first_error_witness :
  Samples.mapFields (VDict [])
    ([("title", VStr "lit")] ++ ("count", VInt 0) :: [("y", VStr "lit")])
  = Raise TypeError.
Proof.
  apply (mapFields_first_error Samples.bleach_clean (list Samples.step)
           Samples.parse Samples.find (VDict [])
           [("title", VStr "lit")] [("y", VStr "lit")] "count" (VInt 0)
           TypeError).
  - intros kv [<-|[]]. reflexivity.
  - reflexivity.
Defined.

Lemma PDAPS_addGen3ExpectedFields_overlay_witness :
  exists mapped,
    Samples.mapFields
      (VDict [("investigators", VStr "A"); ("title", VStr "t")])
      [("title", VStr "T"); ("source", VStr "path:investigators")]
    = Ok mapped /\
    VDict [("investigators", VStr "A"); ("title", VStr "T");
           ("source", VStr "A")]
    = VDict [("investigators", VStr "A"); ("title", VStr "T");
             ("source", VStr "A")] /\
    forall k,
      dict_get k [("investigators", VStr "A"); ("title", VStr "T");
                  ("source", VStr "A")]
      = match dict_get k mapped with
        | Some v => Some v
        | None => dict_get k [("investigators", VStr "A"); ("title", VStr "t")]
        end.
Proof.
  apply (PDAPS_addGen3ExpectedFields_overlay Samples.bleach_clean
           (list Samples.step) Samples.parse Samples.find
           [("investigators", VStr "A"); ("title", VStr "t")]
           [("title", VStr "T"); ("source", VStr "path:investigators")]
           [("investigators", VStr "A"); ("title", VStr "T");
            ("source", VStr "A")]
           true
           (VDict [("investigators", VStr "A"); ("title", VStr "T");
                   ("source", VStr "A")])).
  reflexivity.
Defined.

Lemma ISCPSRDublin_joins_investigators_witness :
  Adapters.ISCPSRDublin_addGen3ExpectedFields Samples.bleach_clean
    (list Samples.step) Samples.parse Samples.find
    (VDict [("investigators", VList (map VStr ["A"; "B"]))]) None false
  = Ok (returned true
          (dict_set "investigators" (VStr (join "," ["A"; "B"]))
             [("investigators", VList (map VStr ["A"; "B"]))])
          (VDict [("investigators", VList (map VStr ["A"; "B"]))])).
Proof.
  apply (ISCPSRDublin_joins_investigators Samples.bleach_clean
           (list Samples.step) Samples.parse Samples.find
           (VDict [("investigators", VList (map VStr ["A"; "B"]))]) None
           false true
           [("investigators", VList (map VStr ["A"; "B"]))] ["A"; "B"]);
    reflexivity.
Defined.

End MapperSpec.

(* ================================================================== *)
(** * adapters.py: ISCPSRDublin.buildIdentifier *)
(* ================================================================== *)

Module IdentifierSpec.

Import Adapters PyFacts DictFacts.

Lemma append_empty (s : string) : (s ++ "")%string = s.
Proof. induction s as [|c s IH]; simpl; congruence. Qed.

Lemma append_cons (a : string) (c : ascii) (b : string) :
  ((a ++ String c "") ++ b)%string = (a ++ String c b)%string.
Proof. induction a as [|x a IH]; simpl; congruence. Qed.

(** Where the separator does not occur, [split] gives the string back in
    one piece. *)
Lemma split_scan_absent (sep s cur : string) :
  str_in sep s = false -> split_scan sep s 0 cur = [(cur ++ s)%string].
Proof.
  revert cur. induction s as [|c rest IH]; intros cur H.
  - simpl. rewrite append_empty. reflexivity.
  - cbn [str_in] in H. apply orb_false_iff in H. destruct H as [Hp Hrest].
    cbn [split_scan]. rewrite Hp, (IH _ Hrest), append_cons. reflexivity.
Qed.

Lemma replace_absent (old new s : string) :
  str_in old s = false -> replace old new s = s.
Proof.
  intros H. unfold replace, split. rewrite (split_scan_absent _ _ _ H).
  reflexivity.
Qed.

(** X8: [buildIdentifier] takes the DOI address off the front of an
    identifier and gives back an identifier that has neither the address
    nor "dc:" in it as it is. *)
Theorem buildIdentifier_strips_doi (id : string) :
  str_in "http://doi.org/" id = false ->
  str_in "dc:" id = false ->
  ISCPSRDublin_buildIdentifier (VStr ("http://doi.org/" ++ id)) = Ok id /\
  ISCPSRDublin_buildIdentifier (VStr id) = Ok id.
Proof.
  intros Hdoi Hdc. unfold ISCPSRDublin_buildIdentifier. split.
  - replace (replace "http://doi.org/" "" ("http://doi.org/" ++ id)) with id.
    + rewrite (replace_absent _ _ _ Hdc). reflexivity.
    + unfold replace, split. cbn.
      replace (prefix "" id) with true by (destruct id; reflexivity).
      rewrite (split_scan_absent _ _ _ Hdoi). reflexivity.
  - rewrite (replace_absent _ _ _ Hdoi), (replace_absent _ _ _ Hdc).
    reflexivity.
Qed.

Lemma buildIdentifier_strips_doi_witness :
  ISCPSRDublin_buildIdentifier (VStr ("http://doi.org/" ++ "10.3886/E1"))
  = Ok "10.3886/E1" /\
  ISCPSRDublin_buildIdentifier (VStr "10.3886/E1") = Ok "10.3886/E1".
Proof. apply (buildIdentifier_strips_doi "10.3886/E1"); reflexivity. Defined.

End IdentifierSpec.

(* ================================================================== *)
(** * adapters.py: the records of a normalization *)
(* ================================================================== *)

Module RecordSpec.

Import Adapters Invariants PyFacts DictFacts OverrideSpec.

Lemma for_each_invariant {A S} (P : S -> Prop) (body : S -> A -> result S) :
  (forall acc x acc', P acc -> body acc x = Ok acc' -> P acc') ->
  forall l acc r, P acc -> for_each body l acc = Ok r -> P r.
Proof.
  intros Hbody. induction l as [|x l IH]; intros acc r Hacc; simpl.
  - intros H. injection H as <-. exact Hacc.
  - destruct (body acc x) as [acc'|] eqn:E; [|discriminate]. simpl.
    apply IH. apply (Hbody acc x acc' Hacc E).
Qed.

Lemma canonical_empty field : canonical field [].
Proof. intros id r H. discriminate. Qed.

Lemma canonical_set field rs k (fields : dict pyvalue) :
  canonical field rs -> dict_in field fields = true ->
  canonical field (rs_set k (discovery_metadata fields) rs).
Proof.
  intros Hrs Hf id r. rewrite rs_get_set.
  destruct (key_eqb id k); [|apply Hrs].
  intros H. injection H as <-. split; [reflexivity | exact Hf].
Qed.

Lemma canonical_perItemValues field rs perItemValues :
  canonical field rs -> canonical field (apply_perItemValues rs perItemValues).
Proof.
  intros Hrs. destruct perItemValues as [values|]; [|exact Hrs].
  intros id r' H. simpl in H.
  destruct (setPerItemValues_touches values rs) as [_ Hrec].
  destruct (Hrec id r' H) as (r & Hr & Htype & Hkeys & _).
  destruct (Hrs id r Hr) as [Ht Hf]. split; [congruence|].
  apply dict_in_keys. rewrite Hkeys. apply dict_in_keys, Hf.
Qed.

Section Libraries.

Variable bleach_clean : string -> string.
Variable jsonpath : Type.
Variable parse : pyvalue -> result jsonpath.
Variable find : jsonpath -> pyvalue -> list pyvalue.
Variable repr : pyvalue -> string.

Lemma subscript_in (v : pyvalue) (k : string) (x : pyvalue) :
  py_subscript v k = Ok x -> exists d, v = VDict d /\ dict_in k d = true.
Proof.
  destruct v; try discriminate. simpl. intros H. exists d.
  split; [reflexivity|]. unfold dict_item in H. unfold dict_in.
  destruct (dict_get k d); [reflexivity | discriminate].
Qed.

Lemma PDAPS_fields item mappings keep fields item' :
  Adapters.PDAPS_addGen3ExpectedFields bleach_clean jsonpath parse find
    item mappings keep = Ok (fields, item') ->
  dict_in "investigators" fields = true.
Proof.
  unfold Adapters.PDAPS_addGen3ExpectedFields.
  destruct (overlay _ _ _ _ item mappings keep) as [[results aliased]|];
    [|discriminate]. cbn [bind].
  destruct (py_subscript results "investigators") as [inv|] eqn:E;
    [|discriminate]. cbn [bind].
  destruct (subscript_in _ _ _ E) as (d & -> & Hd).
  destruct inv; try discriminate; intros H; injection H as <- _; exact Hd.
Qed.

Lemma ISCPSRDublin_fields item mappings keep fields item' :
  Adapters.ISCPSRDublin_addGen3ExpectedFields bleach_clean jsonpath parse find
    item mappings keep = Ok (fields, item') ->
  dict_in "investigators" fields = true.
Proof.
  unfold Adapters.ISCPSRDublin_addGen3ExpectedFields.
  destruct (overlay _ _ _ _ item mappings keep) as [[results aliased]|];
    [|discriminate]. cbn [bind].
  destruct (py_subscript results "investigators") as [inv|] eqn:E;
    [|discriminate]. cbn [bind].
  destruct (subscript_in _ _ _ E) as (d & -> & Hd).
  destruct inv; try (intros H; injection H as <- _; exact Hd).
  destruct (str_elements l); [|discriminate]. cbn [bind py_setitem].
  intros H. injection H as <- _. rewrite dict_in_set. reflexivity.
Qed.

Lemma ClinicalTrials_fields item mappings keep fields item' :
  Adapters.ClinicalTrials_addGen3ExpectedFields bleach_clean jsonpath parse
    find repr item mappings keep = Ok (fields, item') ->
  dict_in "location" fields = true.
Proof.
  unfold Adapters.ClinicalTrials_addGen3ExpectedFields.
  destruct (overlay _ _ _ _ item mappings keep) as [[results aliased]|];
    [|discriminate]. cbn [bind].
  destruct (py_contains "Location" _); [|discriminate]. cbn [bind].
  match goal with
  | |- bind ?m _ = _ -> _ => destruct m as [location|]; [|discriminate]
  end.
  cbn [bind]. destruct results; try discriminate. cbn [py_setitem bind].
  intros H. injection H as <- _. rewrite dict_in_set. reflexivity.
Qed.

(** X9: whatever the batch, the mapping and the overrides, every record
    a normalization returns has the type "discovery_metadata" and holds
    the field its adapter adds: "location" for ClinicalTrials,
    "investigators" for PDAPS and ISCPSRDublin. *)
Theorem normalized_records_are_canonical (data : pyvalue)
  (mappings : option (dict pyvalue)) (keepOriginalFields : bool)
  (perItemValues : option (dict (dict pyvalue))) (rs : record_set) :
  (Adapters.ClinicalTrials_normalizeToGen3MDSFields bleach_clean jsonpath
     parse find repr data mappings keepOriginalFields perItemValues = Ok rs ->
   canonical "location" rs) /\
  (Adapters.PDAPS_normalizeToGen3MDSFields bleach_clean jsonpath parse find
     data mappings keepOriginalFields perItemValues = Ok rs ->
   canonical "investigators" rs) /\
  (Adapters.ISCPSRDublin_normalizeToGen3MDSFields bleach_clean jsonpath parse
     find data mappings keepOriginalFields perItemValues = Ok rs ->
   canonical "investigators" rs).
Proof.
  split; [|split].
  - unfold Adapters.ClinicalTrials_normalizeToGen3MDSFields.
    destruct (py_subscript data "results") as [raw|]; [|discriminate].
    cbn [bind]. destruct (py_iter raw) as [items|]; [|discriminate].
    cbn [bind].
    match goal with
    | |- bind ?m _ = _ -> _ => destruct m as [results|] eqn:Eloop;
                               [|discriminate]
    end.
    cbn [bind]. intros H. injection H as <-.
    apply canonical_perItemValues.
    revert Eloop. apply for_each_invariant; [|apply canonical_empty].
    intros acc item acc' Hacc.
    destruct (py_subscript item "Study") as [study|]; [|discriminate].
    cbn [bind]. destruct (flatten_call study) as [flat|]; [|discriminate].
    cbn [bind].
    destruct (Adapters.ClinicalTrials_addGen3ExpectedFields _ _ _ _ _ _ _ _)
      as [[fields item']|] eqn:Eadd; [|discriminate].
    cbn [bind]. destruct (py_subscript item' "NCTId") as [id|];
      [|discriminate].
    cbn [bind]. destruct (hash_key id) as [k|]; [|discriminate]. cbn [bind].
    intros H. injection H as <-.
    apply canonical_set; [exact Hacc | apply (ClinicalTrials_fields _ _ _ _ _ Eadd)].
  - unfold Adapters.PDAPS_normalizeToGen3MDSFields.
    destruct (py_subscript data "results") as [raw|]; [|discriminate].
    cbn [bind]. destruct (py_iter raw) as [items|]; [|discriminate].
    cbn [bind].
    match goal with
    | |- bind ?m _ = _ -> _ => destruct m as [results|] eqn:Eloop;
                               [|discriminate]
    end.
    cbn [bind]. intros H. injection H as <-.
    apply canonical_perItemValues.
    revert Eloop. apply for_each_invariant; [|apply canonical_empty].
    intros acc item acc' Hacc.
    destruct (Adapters.PDAPS_addGen3ExpectedFields _ _ _ _ _ _ _)
      as [[fields item']|] eqn:Eadd; [|discriminate].
    cbn [bind]. destruct (py_contains "display_id" item') as [has|];
      [|discriminate].
    cbn [bind]. destruct has; cbn [negb];
      [|intros H; injection H as <-; exact Hacc].
    destruct (py_subscript item' "display_id") as [id|]; [|discriminate].
    cbn [bind]. destruct (hash_key id) as [k|]; [|discriminate]. cbn [bind].
    intros H. injection H as <-.
    apply canonical_set; [exact Hacc | apply (PDAPS_fields _ _ _ _ _ Eadd)].
  - unfold Adapters.ISCPSRDublin_normalizeToGen3MDSFields.
    destruct (py_subscript data "results") as [raw|]; [|discriminate].
    cbn [bind]. destruct (py_iter raw) as [items|]; [|discriminate].
    cbn [bind].
    match goal with
    | |- bind ?m _ = _ -> _ => destruct m as [results|] eqn:Eloop;
                               [|discriminate]
    end.
    cbn [bind]. intros H. injection H as <-.
    apply canonical_perItemValues.
    revert Eloop. apply for_each_invariant; [|apply canonical_empty].
    intros acc record acc' Hacc.
    repeat match goal with
           | |- bind (py_subscript ?v ?k) _ = _ -> _ =>
               destruct (py_subscript v k); [|discriminate]; cbn [bind]
           end.
    match goal with
    | |- match ?dc with _ => _ end = _ -> _ => destruct dc; try discriminate
    end.
    destruct (ISCPSRDublin_item d) as [item|]; [|discriminate]. cbn [bind].
    destruct (Adapters.ISCPSRDublin_addGen3ExpectedFields _ _ _ _ _ _ _)
      as [[fields item']|] eqn:Eadd; [|discriminate].
    cbn [bind]. destruct (py_subscript item' "identifier") as [id|];
      [|discriminate].
    cbn [bind]. destruct (hash_key id) as [k|]; [|discriminate]. cbn [bind].
    intros H. injection H as <-.
    apply canonical_set;
      [exact Hacc | apply (ISCPSRDublin_fields _ _ _ _ _ Eadd)].
Qed.

End Libraries.

Lemma normalized_records_are_canonical_witness :
  exists rs,
    Adapters.PDAPS_normalizeToGen3MDSFields Samples.bleach_clean
      (list Samples.step) Samples.parse Samples.find
      (VDict
         [("results",
           VList [VDict [("display_id", VStr "p1");
                         ("investigators", VStr "A")]])])
      None true None
    = Ok rs /\
    canonical "investigators" rs.
Proof.
  eexists. split; [reflexivity|].
  refine (proj1 (proj2 (normalized_records_are_canonical
                          Samples.bleach_clean (list Samples.step)
                          Samples.parse Samples.find Samples.repr
                          (VDict
                             [("results",
                               VList [VDict [("display_id", VStr "p1");
                                             ("investigators", VStr "A")]])])
                          None true None _)) _).
  reflexivity.
Defined.

End RecordSpec.

(* ================================================================== *)
(** * adapters.py: the fetches of PDAPS and ISCPSRDublin *)
(* ================================================================== *)

Module FetchersSpec.

Import Adapters Fetchers PyFacts FetchSpec.

(** A loop that appends what each element gives: it returns exactly when
    every element gives something, and returns those things in order. *)
Lemma for_each_collect {A B} (f : A -> result B) (l : list A) :
  forall acc r,
    for_each (fun acc a => x <- f a ;; Ok (acc ++ [x])) l acc = Ok r <->
    exists xs, Forall2 (fun a x => f a = Ok x) l xs /\ r = acc ++ xs.
Proof.
  induction l as [|a l IH]; intros acc r; simpl.
  - split.
    + intros H. injection H as <-. exists []. split; [constructor|].
      rewrite app_nil_r. reflexivity.
    + intros (xs & Hf & ->). inversion Hf. rewrite app_nil_r. reflexivity.
  - destruct (f a) as [x|err] eqn:E; simpl.
    + rewrite IH. split.
      * intros (xs & Hf & ->). exists (x :: xs).
        split; [constructor; assumption|]. rewrite <- app_assoc. reflexivity.
      * intros (xs & Hf & ->). inversion Hf as [|? x' ? xs' Hx Hrest]; subst.
        rewrite E in Hx. injection Hx as <-. exists xs'.
        split; [exact Hrest|]. rewrite <- app_assoc. reflexivity.
    + split; [discriminate|]. intros (xs & Hf & _).
      inversion Hf as [|? x' ? xs' Hx Hrest]; subst. congruence.
Qed.

Lemma for_each_collect_error {A B} (f : A -> result B) (P : exn -> Prop) :
  (forall a e, f a = Raise e -> P e) ->
  forall l acc e,
    for_each (fun acc a => x <- f a ;; Ok (acc ++ [x])) l acc = Raise e -> P e.
Proof.
  intros Hf. induction l as [|a l IH]; intros acc e; simpl; [discriminate|].
  destruct (f a) as [x|err] eqn:E; simpl.
  - apply IH.
  - intros H. injection H as <-. apply (Hf a err E).
Qed.

Section Http.

Variable httpx_get_json : pyvalue -> result response.
Variable httpx_get_text : pyvalue -> result text_response.
Variable xmltodict_parse : string -> result pyvalue.

Abbreviation PDAPS_getRemoteDataAsJson :=
  (Fetchers.PDAPS_getRemoteDataAsJson httpx_get_json).
Abbreviation ISCPSRDublin_getRemoteDataAsJson :=
  (Fetchers.ISCPSRDublin_getRemoteDataAsJson httpx_get_text xmltodict_parse).

Lemma PDAPS_dataset_ok (id body : pyvalue) :
  PDAPS_dataset httpx_get_json id = Ok body <->
  exists response,
    httpx_get_json id = Ok response /\
    status_code response = 200%Z /\ json response = Ok body.
Proof.
  unfold PDAPS_dataset.
  destruct (httpx_get_json id) as [response|err]; cbn [bind].
  - destruct (Z.eqb_spec (status_code response) 200) as [Hs|Hs].
    + destruct (json response) as [b|err] eqn:Ej; split.
      * intros H. injection H as <-. exists response. repeat split; assumption.
      * intros (r & Hr & _ & Hj). injection Hr as <-. congruence.
      * discriminate.
      * intros (r & Hr & _ & Hj). injection Hr as <-. congruence.
    + split; [discriminate|].
      intros (r & Hr & Hst & _). injection Hr as <-. contradiction.
  - split; [discriminate|]. intros (r & Hr & _). discriminate.
Qed.

(** X11: the PDAPS fetch is all or nothing.  It returns exactly when the
    request for every dataset is answered with status 200 and a body that
    decodes, and then returns the bodies in the order of the datasets;
    whatever else happens it raises a [ValueError] and returns nothing of
    what it had fetched. *)
Theorem PDAPS_fetch_all_or_nothing (filters : dict pyvalue)
  (datasets : list pyvalue) :
  dict_get "datasets" filters = Some (VList datasets) ->
  (forall results,
     PDAPS_getRemoteDataAsJson (Some filters) = Ok results <->
     Forall2
       (fun id body =>
          exists response,
            httpx_get_json id = Ok response /\
            status_code response = 200%Z /\ json response = Ok body)
       datasets results) /\
  (forall e, PDAPS_getRemoteDataAsJson (Some filters) = Raise e ->
             e = ValueError).
Proof.
  intros Hd. unfold Fetchers.PDAPS_getRemoteDataAsJson. rewrite Hd.
  cbn [py_iter bind]. split.
  - intros results. rewrite for_each_collect. split.
    + intros (xs & Hf & ->). simpl.
      revert Hf. apply Forall2_impl. intros id body. apply PDAPS_dataset_ok.
    + intros Hf. exists results. split; [|reflexivity].
      revert Hf. apply Forall2_impl. intros id body. apply PDAPS_dataset_ok.
  - intros e.
    apply (for_each_collect_error (PDAPS_dataset httpx_get_json)
             (fun e => e = ValueError)).
    intros id err.
    unfold PDAPS_dataset.
    destruct (bind _ _); [discriminate|]. intros H. injection H as <-.
    reflexivity.
Qed.

(** X12: the ISCPSRDublin fetch returns exactly when every study id is
    answered with status 200 and a text that parses, and then returns the
    parsed records in the order of the ids; a status that is not 200
    raises a [ValueError]. *)
Theorem ISCPSRDublin_fetch_all_or_nothing (filters : dict pyvalue)
  (study_ids : list pyvalue) :
  dict_get "study_ids" filters = Some (VList study_ids) ->
  (forall results,
     ISCPSRDublin_getRemoteDataAsJson (Some filters) = Ok results <->
     Forall2
       (fun id record =>
          exists response,
            httpx_get_text id = Ok response /\
            text_status response = 200%Z /\
            xmltodict_parse (text response) = Ok record)
       study_ids results) /\
  (forall before id after response,
     study_ids = before ++ id :: after ->
     Forall (fun i => is_ok (ISCPSRDublin_record httpx_get_text
                               xmltodict_parse i) = true) before ->
     httpx_get_text id = Ok response ->
     text_status response <> 200%Z ->
     ISCPSRDublin_getRemoteDataAsJson (Some filters) = Raise ValueError).
Proof.
  intros Hd. unfold Fetchers.ISCPSRDublin_getRemoteDataAsJson. rewrite Hd.
  cbn [py_len py_iter bind].
  assert (Hrecord : forall id record,
            ISCPSRDublin_record httpx_get_text xmltodict_parse id = Ok record
            <-> exists response,
                httpx_get_text id = Ok response /\
                text_status response = 200%Z /\
                xmltodict_parse (text response) = Ok record).
  { intros id record. unfold ISCPSRDublin_record.
    destruct (httpx_get_text id) as [response|err]; cbn [bind].
    - destruct (Z.eqb_spec (text_status response) 200) as [Hs|Hs]; split.
      + intros H. exists response. repeat split; assumption.
      + intros (r & Hr & _ & Hp). injection Hr as <-. exact Hp.
      + discriminate.
      + intros (r & Hr & Hst & _). injection Hr as <-. contradiction.
    - split; [discriminate|]. intros (r & Hr & _). discriminate. }
  split.
  - intros results. destruct study_ids as [|i ids].
    + simpl. split.
      * intros H. injection H as <-. constructor.
      * intros H. inversion H. reflexivity.
    + cbn [List.length Nat.ltb Nat.leb]. rewrite for_each_collect. split.
      * intros (xs & Hf & ->). simpl.
        revert Hf. apply Forall2_impl. intros id record. apply Hrecord.
      * intros Hf. exists results. split; [|reflexivity].
        revert Hf. apply Forall2_impl. intros id record. apply Hrecord.
  - intros before id after response -> Hbefore Hget Hstatus.
    replace (Nat.ltb 0 (List.length (before ++ id :: after))) with true
      by (symmetry; apply Nat.ltb_lt; rewrite length_app; simpl; lia).
    clear Hd Hrecord.
    assert (H : forall acc,
              for_each
                (fun results i =>
                   data_dict <- ISCPSRDublin_record httpx_get_text
                                  xmltodict_parse i ;;
                   Ok (results ++ [data_dict]))
                (before ++ id :: after) acc = Raise ValueError).
    { induction Hbefore as [|b before Hb _ IH]; intros acc.
      - cbn [app for_each bind]. unfold ISCPSRDublin_record. rewrite Hget.
        cbn [bind]. apply Z.eqb_neq in Hstatus. rewrite Hstatus. reflexivity.
      - cbn [app for_each].
        destruct (ISCPSRDublin_record httpx_get_text xmltodict_parse b);
          [|discriminate]. cbn [bind]. apply IH. }
    apply H.
Qed.

End Http.

Lemma PDAPS_fetch_all_or_nothing_witness :
  PDAPS_getRemoteDataAsJson
    (fun id => Ok {| status_code := 200; json := Ok (VList [id]) |})
    (Some [("datasets", VList [VStr "a"; VStr "b"])])
  = Ok [VList [VStr "a"]; VList [VStr "b"]].
Proof.
  apply (PDAPS_fetch_all_or_nothing
           (fun id => Ok {| status_code := 200; json := Ok (VList [id]) |})
           [("datasets", VList [VStr "a"; VStr "b"])] [VStr "a"; VStr "b"]
           eq_refl).
  repeat constructor; eexists; repeat split.
Defined.

Lemma ISCPSRDublin_fetch_all_or_nothing_witness :
  ISCPSRDublin_getRemoteDataAsJson
    (fun id => Ok {| text_status := 200; text := "<a/>" |})
    (fun text => Ok (VDict [("a", VNone)]))
    (Some [("study_ids", VList [VInt 30122])])
  = Ok [VDict [("a", VNone)]].
Proof.
  apply (ISCPSRDublin_fetch_all_or_nothing
           (fun id => Ok {| text_status := 200; text := "<a/>" |})
           (fun text => Ok (VDict [("a", VNone)]))
           [("study_ids", VList [VInt 30122])] [VInt 30122] eq_refl).
  repeat constructor; eexists; repeat split.
Defined.

End FetchersSpec.

(* ================================================================== *)
(** * adapters.py: the ClinicalTrials fetch without a cap *)
(* ================================================================== *)

Module UncappedSpec.

Import Adapters Fetchers PyFacts FetchSpec.

Section Paging.

Variable studies : list pyvalue.
Variable term : string.
Variable batchSize : Z.
Hypothesis batch_positive : (1 <= batchSize)%Z.

Abbreviation found := (Z.of_nat (List.length studies)).
Abbreviation server := (full_studies_server studies).

Lemma loop_body_uncapped (s : paging) :
  (offset s <> 1)%Z -> (found <> 0)%Z -> cap s = None ->
  loop_body server term batchSize s
  = let batch := page studies (offset s) (offset s + limit s - 1) in
    Ok (Next {| offset := offset s + Z.of_nat (List.length batch);
                remaining := remaining s - Z.of_nat (List.length batch);
                limit := Z.min (remaining s - Z.of_nat (List.length batch))
                           batchSize;
                cap := None;
                results := results s ++ batch |}).
Proof.
  intros Hoff Hfound Hcap. unfold loop_body. cbn.
  apply Z.eqb_neq in Hfound. rewrite Hfound.
  apply Z.eqb_neq in Hoff. rewrite Hoff. cbn. rewrite Hcap. reflexivity.
Qed.

Lemma loop_body_uncapped_first (s : paging) :
  offset s = 1%Z -> cap s = None -> results s = [] -> (found <> 0)%Z ->
  loop_body server term batchSize s
  = let batch := firstn (Z.to_nat (limit s)) studies in
    Ok (Next {| offset := 1 + Z.of_nat (List.length batch);
                remaining := found - Z.of_nat (List.length batch);
                limit := Z.min (found - Z.of_nat (List.length batch)) batchSize;
                cap := None;
                results := batch |}).
Proof.
  intros Hoff Hcap Hres Hfound. unfold loop_body.
  cbn -[Z.add Z.sub Z.min Z.geb Z.ltb Z.of_nat page].
  rewrite Hres. apply Z.eqb_neq in Hfound. rewrite Hfound.
  rewrite Hcap, Hoff. cbn -[Z.add Z.sub Z.min Z.geb Z.ltb Z.of_nat page].
  replace (page studies 1 (1 + limit s - 1))
    with (firstn (Z.to_nat (limit s)) studies)
    by (unfold page; change (Z.to_nat (1 - 1)) with 0;
        cbn [skipn]; f_equal; lia).
  reflexivity.
Qed.

Lemma paging_loop_uncapped (fuel : nat) :
  forall n : nat,
    1 <= n <= List.length studies ->
    List.length studies - n < fuel ->
    paging_loop server fuel term batchSize (uncapped studies batchSize n)
    = Some (Ok studies).
Proof.
  induction fuel as [|fuel IH]; intros n Hn Hfuel; [lia|].
  cbn [paging_loop].
  destruct (Z.ltb_spec 0 (remaining (uncapped studies batchSize n)))
    as [Hrem|Hrem]; cbn [uncapped remaining] in Hrem.
  - rewrite loop_body_uncapped;
      [| unfold uncapped; cbn [offset]; lia | lia | reflexivity].
    cbv zeta. cbn [uncapped offset limit results remaining cap].
    rewrite page_after.
    set (lim := Z.to_nat (Z.min (found - Z.of_nat n) batchSize)).
    assert (Hlim : 1 <= lim /\ n + lim <= List.length studies)
      by (unfold lim; lia).
    rewrite firstn_more.
    assert (Hbatch : List.length (firstn lim (skipn n studies)) = lim)
      by (rewrite length_firstn, length_skipn; lia).
    rewrite Hbatch. rewrite <- (IH (n + lim)) by lia.
    f_equal. unfold uncapped. f_equal; lia.
  - cbn [uncapped results]. replace n with (List.length studies) by lia.
    rewrite firstn_all. reflexivity.
Qed.

End Paging.

(** X10: without [maxItems] the fetch from a well-behaved server goes on,
    a batch at a time, until it holds every study: it returns all the
    studies the server has, in rank order, whatever the batch size (100
    when none is given). *)
Theorem getRemoteDataAsJson_fetches_all (studies : list pyvalue)
  (term : string) (batchSize : option Z) :
  (1 <= match batchSize with Some b => b | None => 100 end)%Z ->
  exists fuel,
    ClinicalTrials_getRemoteDataAsJson (full_studies_server studies) fuel
      (Some {| Adapters.term := Some term;
               Adapters.batchSize := batchSize;
               maxItems := None |})
    = Some (Ok studies).
Proof.
  set (b := match batchSize with Some b => b | None => 100%Z end).
  intros Hb. remember (S (List.length studies)) as fuel eqn:Hfuel.
  exists (S fuel).
  unfold ClinicalTrials_getRemoteDataAsJson.
  cbn [Adapters.term Adapters.batchSize Adapters.maxItems paging_loop
       remaining].
  fold b. change (Z.ltb 0 1) with true. cbv iota.
  destruct (Nat.eq_dec (List.length studies) 0) as [Hzero|Hpos].
  - destruct studies; [|discriminate]. reflexivity.
  - subst fuel. rewrite (loop_body_uncapped_first studies _ b) by (reflexivity || lia).
    cbv zeta. cbn [limit].
    set (batch := firstn (Z.to_nat b) studies).
    assert (Hlen : List.length batch
                   = Nat.min (Z.to_nat b) (List.length studies))
      by apply length_firstn.
    rewrite <- (paging_loop_uncapped studies (replace " " "+" term) b Hb
                  (S (List.length studies)) (List.length batch))
      by lia.
    f_equal. unfold uncapped. f_equal. rewrite Hlen. apply firstn_min.
Qed.

Lemma getRemoteDataAsJson_fetches_all_witness :
  exists fuel,
    ClinicalTrials_getRemoteDataAsJson
      (full_studies_server [VInt 1; VInt 2; VInt 3]) fuel
      (Some {| term := Some "heart"; batchSize := Some 2%Z;
               maxItems := None |})
    = Some (Ok [VInt 1; VInt 2; VInt 3]).
Proof.
  apply (getRemoteDataAsJson_fetches_all [VInt 1; VInt 2; VInt 3] "heart"
           (Some 2%Z)).
  simpl. lia.
Defined.

End UncappedSpec.

(* ================================================================== *)
(** * query.py: what the compiled filters mean *)
(* ================================================================== *)

Module CompilerSpec.

Import Query PyFacts QuerySpec GrammarSpec.

Lemma existsb_map {A B} (p : B -> bool) (g : A -> B) (l : list A) :
  existsb p (map g l) = existsb (fun x => p (g x)) l.
Proof. induction l as [|a l IH]; simpl; congruence. Qed.

Lemma existsb_ext {A} (p q : A -> bool) (l : list A) :
  (forall x, p x = q x) -> existsb p l = existsb q l.
Proof. intros H. induction l as [|a l IH]; simpl; congruence. Qed.

Lemma sequence_ok {A} (l : list (result A)) (xs : list A) :
  Forall2 (fun m x => m = Ok x) l xs -> sequence l = Ok xs.
Proof. intros H. unfold sequence. apply (for_each_sequence l xs H []). Qed.

Lemma is_true_sql_and (vs : list (option bool)) :
  is_true (sql_and vs) = forallb is_true vs.
Proof.
  unfold sql_and. induction vs as [|[[|]|] vs IH]; simpl in *;
    try reflexivity.
  - destruct (existsb is_false vs); [exact IH|].
    destruct (existsb is_null vs); exact IH.
  - destruct (existsb is_false vs); reflexivity.
Qed.

Lemma is_true_sql_or (vs : list (option bool)) :
  is_true (sql_or vs) = existsb is_true vs.
Proof.
  unfold sql_or. induction vs as [|[[|]|] vs IH]; simpl in *;
    try reflexivity.
  - destruct (existsb is_true vs); [reflexivity|].
    destruct (existsb is_null vs); exact IH.
  - destruct (existsb is_true vs); [reflexivity|]. reflexivity.
Qed.

Section Store.

Variable extract_path : pyvalue -> list string -> option pyvalue.
Variable jsonb_text : pyvalue -> option string.
Variable sql_compare : comparator -> sqlval -> sqlval -> option bool.

Abbreviation eval := (Query.eval extract_path jsonb_text sql_compare).
Abbreviation satisfies := (Query.satisfies jsonb_text sql_compare).

(** X13: the clause an [:any] filter compiles to, on a document whose
    field is an array, is true exactly when some element of the array
    satisfies the inner scalar comparison, and false otherwise: on an
    empty array it is false. *)
Theorem any_filter_exists (doc : pyvalue) (name inner_name op : string)
  (operand : pyvalue) (arr : list pyvalue) (text : bool) (cmp : comparator) :
  operator op = Ok (sql_comparator text cmp) ->
  extract_path doc (split "." name) = Some (VList arr) ->
  exists (c : clause) (b : bool),
    get_sqlalchemy_clause (compound_dict name ":any" inner_name op operand)
    = Ok c /\
    eval doc SNull c = Ok (Some b) /\
    (b = true <-> exists x, In x arr /\ satisfies op operand x = true) /\
    (arr = [] -> b = false).
Proof.
  intros Hop Harr.
  set (w := compare cmp column_f
              (if text then bound operand else cast_JSONB operand)).
  set (f := if text then jsonb_array_elements_text else jsonb_array_elements).
  exists (exists_select f (split "." name) w).
  exists (existsb (satisfies op operand) arr).
  split; [|split; [|split]].
  - cbn [get_sqlalchemy_clause]. unfold add_compound_filter.
    change (operator ":any") with (Ok (sql_clause Any)).
    cbn [bind get_sql_clause].
    unfold get_any_sql_clause, elements_where. rewrite Hop.
    cbn [bind is_text get_sql_comparator]. unfold f, w.
    destruct text; reflexivity.
  - cbn [Query.eval]. unfold element_rows. rewrite Harr.
    cbn [bind]. rewrite map_map. unfold w. cbn [Query.eval eval_column].
    rewrite (sequence_map_ok
               (fun x => sql_compare cmp
                           (match f with
                            | jsonb_array_elements => SJsonb
                            | jsonb_array_elements_text => text_value jsonb_text
                            end x)
                           (eval_operand
                              (if text then bound operand
                               else cast_JSONB operand)))).
    cbn [bind]. rewrite existsb_map. do 2 f_equal.
    apply existsb_ext. intros x. unfold Query.satisfies. rewrite Hop.
    unfold f. destruct text; reflexivity.
  - apply existsb_exists.
  - intros ->. reflexivity.
Qed.

(** X15: a scalar filter compares the field at the dotted path of its
    name with its value: as typed JSONB against the value cast to JSONB
    for every operator but [:like], which compares the text of the field
    with the value as bound; a field that is not there compares as
    NULL. *)
Theorem scalar_filter_compares (doc : pyvalue) (row : sqlval)
  (name op : string) (val : pyvalue) (text : bool) (cmp : comparator) :
  operator op = Ok (sql_comparator text cmp) ->
  exists c,
    get_sqlalchemy_clause (scalar_dict name op val) = Ok c /\
    eval doc row c
    = Ok (sql_compare cmp
            (match extract_path doc (split "." name) with
             | Some field =>
                 if text then text_value jsonb_text field else SJsonb field
             | None => SNull
             end)
            (if text then SBound val else SJsonb val)) /\
    (text = true <-> op = ":like").
Proof.
  intros Hop. cbn [get_sqlalchemy_clause]. unfold add_scalar_filter.
  rewrite Hop. cbn [bind is_text get_sql_comparator].
  assert (Hlike : text = true <-> op = ":like").
  { unfold operator, dict_item in Hop.
    destruct (dict_get op operators) as [entry|] eqn:E; [|discriminate].
    injection Hop as ->. unfold operators in E. simpl in E.
    repeat match type of E with
           | (if String.eqb op ?s then _ else _) = _ =>
               destruct (String.eqb_spec op s) as [->|]
           end; try discriminate; injection E as <- <-;
      split; intros H; try discriminate; try reflexivity; congruence. }
  destruct text; eexists; (split; [reflexivity|]); (split; [|exact Hlike]);
    cbn [Query.eval eval_column eval_operand];
    destruct (extract_path doc (split "." name)); reflexivity.
Qed.

Lemma each_compiles (ds : list filter_dict) (cs : list clause) :
  Forall2 (fun d c => get_sqlalchemy_clause d = Ok c) ds cs ->
  (fix each (l : list filter_dict) : result (list clause) :=
     match l with
     | [] => Ok []
     | c :: rest =>
         x <- get_sqlalchemy_clause c ;; xs <- each rest ;; Ok (x :: xs)
     end) ds = Ok cs.
Proof.
  induction 1 as [|d c ds cs Hd _ IH]; [reflexivity|].
  rewrite Hd. cbn [bind]. rewrite IH. reflexivity.
Qed.

(** X14: a boolean filter compiles when its operands do, at any depth of
    nesting, and its truth value on a document is the three-valued AND,
    or OR, of the truth values of its operands: when these are all true
    or false, [and] is true exactly when all of them are and [or] when
    one of them is. *)
Theorem boolean_filter_combines (doc : pyvalue) (row : sqlval)
  (boolean : string) (operands : list filter_dict) (cs : list clause)
  (vs : list (option bool)) :
  is_boolean boolean = true ->
  Forall2 (fun d c => get_sqlalchemy_clause d = Ok c) operands cs ->
  Forall2 (fun c v => eval doc row c = Ok v) cs vs ->
  exists c,
    get_sqlalchemy_clause (boolean_dict boolean operands) = Ok c /\
    eval doc row c
    = Ok (if String.eqb boolean "and" then sql_and vs else sql_or vs) /\
    forall bs,
      vs = map Some bs ->
      (if String.eqb boolean "and" then sql_and vs else sql_or vs)
      = Some (if String.eqb boolean "and"
              then forallb (fun b => b) bs else existsb (fun b => b) bs).
Proof.
  intros Hb Hcs Hvs. cbn [get_sqlalchemy_clause].
  rewrite (each_compiles _ _ Hcs).
  assert (Hseq : sequence (map (eval doc row) cs) = Ok vs).
  { apply sequence_ok. clear Hcs.
    induction Hvs; simpl; constructor; assumption. }
  assert (Htwo : forall bs,
            sql_and (map Some bs) = Some (forallb (fun b => b) bs) /\
            sql_or (map Some bs) = Some (existsb (fun b => b) bs)).
  { unfold sql_and, sql_or. induction bs as [|[|] bs [IHa IHo]]; simpl;
      [split; reflexivity | |].
    - split; [exact IHa | reflexivity].
    - split; [reflexivity | exact IHo]. }
  unfold is_boolean in Hb.
  destruct (String.eqb boolean "and").
  - eexists. split; [reflexivity|]. cbn [Query.eval bind]. rewrite Hseq.
    split; [reflexivity|]. intros bs ->. apply Htwo.
  - simpl in Hb. rewrite Hb.
    eexists. split; [reflexivity|]. cbn [Query.eval bind]. rewrite Hseq.
    split; [reflexivity|]. intros bs ->. apply Htwo.
Qed.

Variable key_letters : list string.
Variable stack_exhausted : string -> bool.
Variable json_loads : string -> result pyvalue.

Abbreviation grammar_match := (Query.grammar_match key_letters).
Abbreviation search_metadata_helper :=
  (Query.search_metadata_helper key_letters stack_exhausted json_loads).

(** X17: the query the helper builds returns data or not as asked, asks
    for [limit] rows and no more than 2000, from row [page] times that
    number on (the limit as cut down, not as given), and has no [where]
    clause for the empty filter string; for any other filter string its
    [where] clause is the clause compiled from the filter dict the
    visitor makes of the parse tree of the string. *)
Theorem helper_builds_query (data : bool) (page limit : Z) (filter : string)
  (q : query) :
  search_metadata_helper data page limit filter = Ok q ->
  with_data q = data /\
  query_limit q = Z.min limit 2000 /\
  query_offset q = (page * Z.min limit 2000)%Z /\
  match where_ q with
  | None => filter = EmptyString
  | Some c =>
      filter <> EmptyString /\
      exists tree d,
        grammar_match filter = Ok tree /\
        Query.visit json_loads tree = Ok d /\
        get_sqlalchemy_clause d = Ok c
  end.
Proof.
  unfold Query.search_metadata_helper, filter_dict_of, parse_filter.
  destruct filter as [|c rest].
  - cbn. intros H. injection H as <-. cbn. repeat split; reflexivity.
  - destruct (Query.grammar_parse key_letters stack_exhausted (String c rest))
      as [tree|[]] eqn:Hparse; cbn [bind]; try discriminate.
    apply grammar_parse_returns in Hparse. destruct Hparse as [_ Hmatch].
    destruct (Query.visit json_loads tree) as [d|[]] eqn:Hvisit; cbn [bind];
      try discriminate.
    destruct (get_sqlalchemy_clause d) as [cl|] eqn:Hcl; cbn [bind];
      [|discriminate].
    intros H. injection H as <-. cbn.
    split; [reflexivity|]. split; [reflexivity|]. split; [reflexivity|].
    split; [discriminate|]. exists tree, d. repeat split; assumption.
Qed.

End Store.

Lemma any_filter_exists_witness :
  exists c,
    get_sqlalchemy_clause (compound_dict "counts" ":any" "" ":eq" (VInt 42))
    = Ok c /\
    Samples.eval (VDict [("counts", VList [VInt 7; VInt 42])]) SNull c
    = Ok (Some true).
Proof.
  destruct (any_filter_exists Samples.extract_path Samples.jsonb_text
              Samples.sql_compare
              (VDict [("counts", VList [VInt 7; VInt 42])])
              "counts" "" ":eq" (VInt 42) [VInt 7; VInt 42] false Ceq
              eq_refl eq_refl)
    as (c & b & Hc & Hb & Hany & _).
  exists c. split; [exact Hc|].
  assert (Htrue : b = true).
  { apply Hany. exists (VInt 42). split; [right; left|]; reflexivity. }
  unfold Samples.eval. rewrite Hb, Htrue. reflexivity.
Defined.

Lemma scalar_filter_compares_witness :
  exists c,
    get_sqlalchemy_clause (scalar_dict "a.b" ":eq" (VInt 3)) = Ok c /\
    Samples.eval (VDict [("a", VDict [("b", VInt 3)])]) SNull c
    = Ok (Some true).
Proof.
  destruct (scalar_filter_compares Samples.extract_path Samples.jsonb_text
              Samples.sql_compare
              (VDict [("a", VDict [("b", VInt 3)])]) SNull
              "a.b" ":eq" (VInt 3) false Ceq eq_refl)
    as (c & Hc & Hv & _).
  exists c. split; [exact Hc|].
  unfold Samples.eval. rewrite Hv. reflexivity.
Defined.

Lemma boolean_filter_combines_witness :
  exists c,
    get_sqlalchemy_clause
      (boolean_dict "or"
         [scalar_dict "a" ":eq" (VInt 1); scalar_dict "a" ":eq" (VInt 2)])
    = Ok c /\
    Samples.eval (VDict [("a", VInt 2)]) SNull c = Ok (Some true).
Proof.
  destruct (boolean_filter_combines Samples.extract_path Samples.jsonb_text
              Samples.sql_compare (VDict [("a", VInt 2)]) SNull "or"
              [scalar_dict "a" ":eq" (VInt 1); scalar_dict "a" ":eq" (VInt 2)]
              [compare Ceq (json_object ["a"]) (cast_JSONB (VInt 1));
               compare Ceq (json_object ["a"]) (cast_JSONB (VInt 2))]
              [Some false; Some true] eq_refl)
    as (c & Hc & Hv & _).
  - repeat constructor.
  - repeat constructor.
  - exists c. split; [exact Hc|].
    unfold Samples.eval. rewrite Hv. reflexivity.
Defined.

Lemma helper_builds_query_witness :
  true = true /\
  2000%Z = Z.min 5000 2000 /\
  6000%Z = (3 * Z.min 5000 2000)%Z /\
  "(a,:eq,1)" <> EmptyString /\
  exists tree d,
    Query.grammar_match Samples.key_letters "(a,:eq,1)" = Ok tree /\
    Query.visit Samples.json_loads tree = Ok d /\
    get_sqlalchemy_clause d
    = Ok (compare Ceq (json_object ["a"]) (cast_JSONB (VInt 1))).
Proof.
  apply (helper_builds_query Samples.key_letters Samples.stack_exhausted
           Samples.json_loads true 3 5000 "(a,:eq,1)"
           {| with_data := true;
              where_ :=
                Some (compare Ceq (json_object ["a"]) (cast_JSONB (VInt 1)));
              query_offset := 6000;
              query_limit := 2000 |}).
  reflexivity.
Defined.

End CompilerSpec.

(* ================================================================== *)
(** * query.py: the text of a parse tree and the plain search *)
(* ================================================================== *)

Module TreeTextSpec.

Import Query Search PyFacts.

Lemma append_assoc (a b c : string) :
  ((a ++ b) ++ c)%string = (a ++ (b ++ c))%string.
Proof. induction a as [|x a IH]; simpl; congruence. Qed.

Lemma strip_prefix_app (t s r : string) :
  strip_prefix t s = Some r -> s = (t ++ r)%string.
Proof.
  revert s. induction t as [|a t IH]; intros s; simpl.
  - intros H. injection H as ->. reflexivity.
  - destruct s as [|b s]; [discriminate|].
    destruct (Ascii.eqb_spec a b) as [->|]; [|discriminate].
    intros H. rewrite (IH _ H). reflexivity.
Qed.

Lemma splits_literal (t : string) : splits (literal t).
Proof.
  intros s m r. unfold literal.
  destruct (strip_prefix t s) as [rest|] eqn:E; [|discriminate].
  intros H. injection H as <- <-. apply strip_prefix_app, E.
Qed.

Lemma take_while_app (p : ascii -> bool) (s : string) :
  s = (fst (take_while p s) ++ snd (take_while p s))%string.
Proof.
  induction s as [|c s IH]; simpl; [reflexivity|].
  destruct (p c); [|reflexivity].
  destruct (take_while p s); simpl in *. congruence.
Qed.

Lemma splits_seq (p q : matcher) : splits p -> splits q -> splits (seq p q).
Proof.
  intros Hp Hq s m r. unfold seq.
  destruct (p s) as [[a r1]|] eqn:E1; [|discriminate].
  destruct (q r1) as [[b r2]|] eqn:E2; [|discriminate].
  intros H. injection H as <- <-.
  rewrite (Hp _ _ _ E1), (Hq _ _ _ E2), append_assoc. reflexivity.
Qed.

Lemma splits_alt (p q : matcher) : splits p -> splits q -> splits (alt p q).
Proof.
  intros Hp Hq s m r. unfold alt.
  destruct (p s) as [[a r1]|] eqn:E1.
  - intros H. injection H as <- <-. apply (Hp _ _ _ E1).
  - apply Hq.
Qed.

Lemma splits_optional (p : matcher) : splits p -> splits (optional p).
Proof.
  intros Hp s m r. unfold optional.
  destruct (p s) as [[a r1]|] eqn:E1; intros H; injection H as <- <-.
  - apply (Hp _ _ _ E1).
  - reflexivity.
Qed.

Lemma splits_one_of (p : ascii -> bool) : splits (one_of p).
Proof.
  intros [|c s] m r; simpl; [discriminate|].
  destruct (p c); [|discriminate]. intros H. injection H as <- <-.
  reflexivity.
Qed.

Lemma splits_digits : splits digits.
Proof.
  intros s m r. unfold digits.
  pose proof (take_while_app is_digit s) as Happ.
  destruct (take_while is_digit s) as [[|c m'] r']; [discriminate|].
  intros H. injection H as <- <-. exact Happ.
Qed.

Lemma key_scan_app (letters : list string) (s : string) (skip : nat) :
  s = (fst (key_scan letters s skip) ++ snd (key_scan letters s skip))%string.
Proof.
  revert skip. induction s as [|c s IH]; intros skip; simpl; [reflexivity|].
  destruct skip as [|n].
  - destruct (is_ascii_key_char c).
    + specialize (IH 0). destruct (key_scan letters s 0); simpl in *.
      congruence.
    + destruct (key_letter letters (String c s)) as [[|n]|];
        try reflexivity.
      specialize (IH n). destruct (key_scan letters s n); simpl in *.
      congruence.
  - specialize (IH n). destruct (key_scan letters s n); simpl in *.
    congruence.
Qed.

Create HintDb split.

Section Engine.

Variable key_letters : list string.
Variable stack_exhausted : string -> bool.

Abbreviation json_key := (Query.json_key key_letters).
Abbreviation scalar_filter := (Query.scalar_filter key_letters).
Abbreviation compound_filter := (Query.compound_filter key_letters).
Abbreviation choice := (Query.choice key_letters).
Abbreviation specific_filter := (Query.specific_filter key_letters).
Abbreviation grammar_parse :=
  (Query.grammar_parse key_letters stack_exhausted).

Lemma splits_json_key : splits json_key.
Proof.
  intros s m r. unfold Query.json_key.
  pose proof (key_scan_app key_letters s 0) as Happ.
  destruct (key_scan key_letters s 0). intros H. injection H as <- <-.
  exact Happ.
Qed.

Lemma splits_double_string : splits double_string.
Proof.
  intros s m r. unfold double_string.
  destruct s as [|c rest]; [discriminate|].
  destruct (Ascii.eqb_spec c dquote) as [->|]; [|discriminate].
  pose proof (take_while_app (fun x => negb (Ascii.eqb x dquote)) rest)
    as Happ.
  destruct (take_while _ rest) as [body after].
  destruct after as [|c' rest']; [discriminate|].
  destruct (Ascii.eqb_spec c' dquote) as [->|]; [|discriminate].
  intros H. injection H as <- <-. simpl in *.
  rewrite Happ, append_assoc. reflexivity.
Qed.

#[local] Hint Resolve splits_literal splits_seq splits_alt splits_optional
  splits_one_of splits_digits splits_json_key splits_double_string : split.

Lemma splits_json_value : splits json_value.
Proof.
  unfold json_value, true_false_null, number, int, frac, exp, e, digit,
    digit1to9.
  auto 20 with split.
Qed.

Lemma splits_scalar_operator : splits scalar_operator.
Proof. unfold scalar_operator. auto 20 with split. Qed.

Lemma splits_compound_operator : splits compound_operator.
Proof. unfold compound_operator. auto with split. Qed.

Lemma splits_boolean : splits boolean.
Proof. unfold boolean. auto with split. Qed.

Lemma literal_app (t s m r : string) :
  literal t s = Some (m, r) -> s = (t ++ r)%string.
Proof.
  intros H. pose proof (splits_literal t _ _ _ H) as Hs.
  apply GrammarSpec.literal_length in H. destruct H as [-> _]. exact Hs.
Qed.

Lemma scalar_filter_text (s : string) sc r :
  scalar_filter s = Some (sc, r) -> s = (scalar_text sc ++ r)%string.
Proof.
  unfold scalar_filter, open, close, separator.
  destruct (literal "(" s) as [[m1 r1]|] eqn:E1; [|discriminate].
  destruct (json_key r1) as [[k r2]|] eqn:E2; [|discriminate].
  destruct (literal "," r2) as [[m3 r3]|] eqn:E3; [|discriminate].
  destruct (scalar_operator r3) as [[op r4]|] eqn:E4; [|discriminate].
  destruct (literal "," r4) as [[m5 r5]|] eqn:E5; [|discriminate].
  destruct (json_value r5) as [[v r6]|] eqn:E6; [|discriminate].
  destruct (literal ")" r6) as [[m7 r7]|] eqn:E7; [|discriminate].
  intros H. injection H as <- <-.
  apply literal_app in E1, E3, E5, E7.
  apply splits_json_key in E2. apply splits_scalar_operator in E4.
  apply splits_json_value in E6. subst.
  unfold scalar_text. cbn [node_key node_operator node_value].
  rewrite !append_assoc. reflexivity.
Qed.

Lemma compound_filter_text : splits_tree compound_filter.
Proof.
  intros s x r. unfold compound_filter, open, close, separator.
  destruct (literal "(" s) as [[m1 r1]|] eqn:E1; [|discriminate].
  destruct (json_key r1) as [[k r2]|] eqn:E2; [|discriminate].
  destruct (literal "," r2) as [[m3 r3]|] eqn:E3; [|discriminate].
  destruct (compound_operator r3) as [[op r4]|] eqn:E4; [|discriminate].
  destruct (literal "," r4) as [[m5 r5]|] eqn:E5; [|discriminate].
  destruct (scalar_filter r5) as [[v r6]|] eqn:E6; [|discriminate].
  destruct (literal ")" r6) as [[m7 r7]|] eqn:E7; [|discriminate].
  intros H. injection H as <- <-.
  apply literal_app in E1, E3, E5, E7.
  apply splits_json_key in E2. apply splits_compound_operator in E4.
  apply scalar_filter_text in E6. subst.
  cbn [tree_text]. rewrite !append_assoc. reflexivity.
Qed.

Lemma operands_star_text f n :
  splits_tree f ->
  forall s xs r,
    operands_star f n s = (xs, r) ->
    s = ((fix each (l : list node) : string :=
            match l with
            | [] => EmptyString
            | x :: rest => "," ++ tree_text x ++ each rest
            end) xs ++ r)%string.
Proof.
  intros Hf. induction n as [|n IH]; intros s xs r; simpl.
  - intros H. injection H as <- <-. reflexivity.
  - unfold boolean_operand, separator.
    destruct (literal "," s) as [[m r1]|] eqn:E.
    + destruct (f r1) as [[x rest]|] eqn:Ef.
      * destruct (operands_star f n rest) as [ys rest'] eqn:E'.
        intros H. injection H as <- <-.
        apply literal_app in E. apply Hf in Ef. apply IH in E'.
        rewrite E, Ef, E' at 1. simpl. rewrite !append_assoc. reflexivity.
      * intros H. injection H as <- <-. reflexivity.
    + intros H. injection H as <- <-. reflexivity.
Qed.

Lemma boolean_filter_text f n :
  splits_tree f -> splits_tree (boolean_filter f n).
Proof.
  intros Hf s x r. unfold boolean_filter, boolean_operands, open, close.
  destruct (literal "(" s) as [[m1 r1]|] eqn:E1; [|discriminate].
  destruct (boolean r1) as [[b r2]|] eqn:E2; [|discriminate].
  destruct (operands_star f n r2) as [xs r3] eqn:E3.
  destruct xs as [|y ys]; [discriminate|].
  destruct (literal ")" r3) as [[m4 r4]|] eqn:E4; [|discriminate].
  intros H. injection H as <- <-.
  apply literal_app in E1, E4. apply splits_boolean in E2.
  apply (operands_star_text f n Hf) in E3.
  rewrite E1, E2, E3, E4 at 1. cbn [tree_text].
  rewrite !append_assoc. reflexivity.
Qed.

Lemma choice_text f n : splits_tree f -> splits_tree (choice f n).
Proof.
  intros Hf s x r. unfold choice.
  destruct (scalar_filter s) as [[sc r1]|] eqn:E1.
  - intros H. injection H as <- <-. apply (scalar_filter_text _ _ _ E1).
  - destruct (compound_filter s) as [[c r2]|] eqn:E2.
    + intros H. injection H as <- <-. apply (compound_filter_text _ _ _ E2).
    + apply boolean_filter_text, Hf.
Qed.

Lemma specific_filter_text n : splits_tree (specific_filter n).
Proof.
  induction n as [|n IH]; [intros s x r; discriminate|].
  apply choice_text, IH.
Qed.

(** X18: the parse tree of a filter string keeps all of it: writing the
    tree out, each filter in its parentheses with its parts between
    commas, gives the filter string back, so that two filter strings
    with the same parse tree are the same string. *)
Theorem grammar_parse_keeps_text (text : string) (tree : node) :
  grammar_parse text = Ok tree -> tree_text tree = text.
Proof.
  intros H. apply (GrammarSpec.grammar_parse_returns _ _ _ _) in H.
  destruct H as [_ H]. revert H.
  unfold Query.grammar_match, Query.filter.
  destruct (Query.choice _ _ _ text) as [[x [|c r]]|] eqn:E;
    try discriminate.
  intros H. injection H as <-.
  apply (choice_text _ _ (specific_filter_text _)) in E.
  rewrite E. clear E.
  induction (tree_text x) as [|a t IH]; simpl; congruence.
Qed.

End Engine.

Lemma grammar_parse_keeps_text_witness :
  tree_text
    (scalar_filter_node
       {| node_key := "a.b"; node_operator := ":eq"; node_value := "1" |})
  = "(a.b,:eq,1)".
Proof.
  apply (grammar_parse_keeps_text Samples.key_letters Samples.stack_exhausted).
  reflexivity.
Defined.

End TreeTextSpec.

Module SearchSpec.

Import Query Search PyFacts DictFacts CompilerSpec.

Lemma queries_of_app (a b : list (string * string)) (acc : dict (list string)) :
  fold_left
    (fun queries kv =>
       if reserved (fst kv) then queries
       else
         dict_set (fst kv)
           (match dict_get (fst kv) queries with
            | Some values => values ++ [snd kv]
            | None => [snd kv]
            end)
           queries)
    (a ++ b) acc
  = fold_left
      (fun queries kv =>
         if reserved (fst kv) then queries
         else
           dict_set (fst kv)
             (match dict_get (fst kv) queries with
              | Some values => values ++ [snd kv]
              | None => [snd kv]
              end)
             queries)
      b (fold_left
           (fun queries kv =>
              if reserved (fst kv) then queries
              else
                dict_set (fst kv)
                  (match dict_get (fst kv) queries with
                   | Some values => values ++ [snd kv]
                   | None => [snd kv]
                   end)
                  queries)
           a acc).
Proof. apply fold_left_app. Qed.

Lemma queries_of_snoc (params : list (string * string)) (kv : string * string) :
  queries_of (params ++ [kv])
  = if reserved (fst kv) then queries_of params
    else
      dict_set (fst kv)
        (match dict_get (fst kv) (queries_of params) with
         | Some values => values ++ [snd kv]
         | None => [snd kv]
         end)
        (queries_of params).
Proof. unfold queries_of. rewrite queries_of_app. reflexivity. Qed.

Lemma values_of_snoc (key : string) (params : list (string * string))
  (kv : string * string) :
  values_of key (params ++ [kv])
  = values_of key params ++ (if String.eqb key (fst kv) then [snd kv] else []).
Proof.
  unfold values_of. rewrite filter_app, map_app. simpl.
  destruct (String.eqb key (fst kv)); reflexivity.
Qed.

Lemma queries_of_get (params : list (string * string)) (key : string) :
  dict_get key (queries_of params)
  = if reserved key then None
    else match values_of key params with
         | [] => None
         | values => Some values
         end.
Proof.
  induction params as [|kv params IH] using rev_ind.
  - destruct (reserved key); reflexivity.
  - rewrite queries_of_snoc, values_of_snoc.
    destruct (reserved (fst kv)) eqn:Er.
    + rewrite IH. destruct (String.eqb_spec key (fst kv)) as [->|].
      * rewrite Er. reflexivity.
      * rewrite app_nil_r. reflexivity.
    + rewrite dict_get_set.
      destruct (String.eqb_spec key (fst kv)) as [->|].
      * rewrite Er in *. rewrite IH.
        destruct (values_of (fst kv) params); reflexivity.
      * rewrite IH, app_nil_r. reflexivity.
Qed.

Lemma queries_of_keys (params : list (string * string)) :
  NoDup (dict_keys (queries_of params)).
Proof.
  induction params as [|kv params IH] using rev_ind; [constructor|].
  rewrite queries_of_snoc. destruct (reserved (fst kv)); [exact IH|].
  apply NoDup_dict_set, IH.
Qed.

Lemma In_dict_get {V} (k : string) (v : V) (d : dict V) :
  NoDup (dict_keys d) -> In (k, v) d -> dict_get k d = Some v.
Proof.
  induction d as [|[k0 v0] d IH]; [intros _ []|].
  intros Hnd [H|H]; simpl in *.
  - injection H as -> ->. rewrite String.eqb_refl. reflexivity.
  - inversion Hnd as [|? ? Hnot Hd]; subst.
    destruct (String.eqb_spec k k0) as [->|].
    + exfalso. apply Hnot. apply (in_map fst) in H. exact H.
    + apply IH; assumption.
Qed.

Lemma dict_get_In {V} (k : string) (v : V) (d : dict V) :
  dict_get k d = Some v -> In (k, v) d.
Proof.
  induction d as [|[k0 v0] d IH]; [discriminate|]. simpl.
  destruct (String.eqb_spec k k0) as [->|].
  - intros H. injection H as ->. left. reflexivity.
  - intros H. right. apply IH, H.
Qed.

(** X19: the plain search groups the query parameters by key: the values
    of a key are those given for it, in the order given; [data], [limit]
    and [offset] are never filters; no key comes twice. *)
Theorem queries_of_groups (params : list (string * string)) :
  NoDup (dict_keys (queries_of params)) /\
  forall key values,
    In (key, values) (queries_of params) <->
    reserved key = false /\ values = values_of key params /\ values <> [].
Proof.
  split; [apply queries_of_keys|]. intros key values. split.
  - intros H. apply (In_dict_get _ _ _ (queries_of_keys params)) in H.
    rewrite queries_of_get in H.
    destruct (reserved key); [discriminate|].
    destruct (values_of key params) as [|v vs]; [discriminate|].
    injection H as <-. repeat split. discriminate.
  - intros (Hr & -> & Hne). apply dict_get_In.
    rewrite queries_of_get, Hr.
    destruct (values_of key params); [contradiction|reflexivity].
Qed.

Lemma forallb_map {A B} (p : B -> bool) (g : A -> B) (l : list A) :
  forallb p (map g l) = forallb (fun x => p (g x)) l.
Proof. induction l as [|a l IH]; simpl; congruence. Qed.

Section Store.

Variable extract_path : pyvalue -> list string -> option pyvalue.
Variable jsonb_text : pyvalue -> option string.
Variable sql_compare : comparator -> sqlval -> sqlval -> option bool.

Abbreviation eval := (Query.eval extract_path jsonb_text sql_compare).

Lemma any_of_eval (doc : pyvalue) (row : sqlval) (path : string)
  (values : list string) :
  eval doc row (any_of path values)
  = Ok (sql_or
          (map (fun v =>
                  sql_compare Ceq (eval_column extract_path jsonb_text doc row
                                     (astext (split "." path)))
                    (SBound (VStr v)))
             values)).
Proof.
  unfold any_of. cbn [Query.eval]. rewrite map_map.
  cbn [Query.eval eval_operand].
  rewrite (QuerySpec.sequence_map_ok
             (fun v => sql_compare Ceq
                         (eval_column extract_path jsonb_text doc row
                            (astext (split "." path)))
                         (SBound (VStr v)))).
  reflexivity.
Qed.

(** X20: where the store compares a text with a bound string for
    equality, as strings, and NULL with anything as NULL, the plain
    search selects a document exactly when, for every key given that is
    not [data], [limit] or [offset], the field at the dotted path of the
    key has a text, and that text is one of the values given for the
    key; it has no [where] clause exactly when no such key is given. *)
Theorem search_metadata_matches (doc : pyvalue) (data : bool)
  (limit offset : Z) (params : list (string * string)) :
  (forall a b, sql_compare Ceq (SText a) (SBound (VStr b))
               = Some (String.eqb a b)) ->
  (forall b, sql_compare Ceq SNull (SBound b) = None) ->
  (where_ (search_metadata data limit offset params) = None <->
   forall kv, In kv params -> reserved (fst kv) = true) /\
  forall w,
    where_ (search_metadata data limit offset params) = Some w ->
    exists v,
      eval doc SNull w = Ok v /\
      (is_true v = true <->
       forall key,
         reserved key = false -> values_of key params <> [] ->
         exists field t,
           extract_path doc (split "." key) = Some field /\
           jsonb_text field = Some t /\
           In t (values_of key params)).
Proof.
  intros Htext Hnull. cbn [search_metadata where_]. split.
  - destruct (queries_of params) as [|[k0 v0] qs] eqn:Eq.
    + split; [|reflexivity]. intros _ kv Hin.
      destruct (reserved (fst kv)) eqn:Er; [reflexivity|]. exfalso.
      assert (H : dict_get (fst kv) (queries_of params) = None)
        by (rewrite Eq; reflexivity).
      rewrite queries_of_get, Er in H.
      assert (Hv : In (snd kv) (values_of (fst kv) params)).
      { unfold values_of. apply in_map, filter_In. split; [exact Hin|].
        apply String.eqb_refl. }
      destruct (values_of (fst kv) params); [destruct Hv | discriminate].
    + split; [discriminate|]. intros Hall. exfalso.
      assert (H : dict_get k0 (queries_of params) = Some v0)
        by (rewrite Eq; simpl; rewrite String.eqb_refl; reflexivity).
      rewrite queries_of_get in H.
      destruct (reserved k0) eqn:Er; [discriminate|].
      destruct (values_of k0 params) as [|x xs] eqn:Ev; [discriminate|].
      assert (Hx : In x (values_of k0 params)) by (rewrite Ev; left; reflexivity).
      unfold values_of in Hx. apply in_map_iff in Hx.
      destruct Hx as (kv & _ & Hkv). apply filter_In in Hkv.
      destruct Hkv as [Hin Hk]. apply String.eqb_eq in Hk.
      specialize (Hall kv Hin). congruence.
  - intros w Hw.
    destruct (queries_of params) as [|q0 qs] eqn:Eq; [discriminate|].
    injection Hw as <-.
    change (any_of (fst q0) (snd q0)
            :: map (fun pv : string * list string => any_of (fst pv) (snd pv))
                 qs)
      with (map (fun pv : string * list string => any_of (fst pv) (snd pv))
              (q0 :: qs)).
    rewrite <- Eq. clear q0 qs Eq.
    set (matches := fun pv : string * list string =>
           sql_or
             (map (fun v =>
                     sql_compare Ceq
                       (eval_column extract_path jsonb_text doc SNull
                          (astext (split "." (fst pv))))
                       (SBound (VStr v)))
                (snd pv))).
    exists (sql_and (map matches (queries_of params))). split.
    + cbn [Query.eval]. rewrite map_map.
      rewrite (map_ext _ (fun pv => Ok (matches pv)))
        by (intros pv; apply any_of_eval).
      rewrite (QuerySpec.sequence_map_ok matches). reflexivity.
    + rewrite is_true_sql_and, forallb_map. rewrite forallb_forall.
      assert (Hone : forall key values,
                is_true (matches (key, values)) = true <->
                exists field t,
                  extract_path doc (split "." key) = Some field /\
                  jsonb_text field = Some t /\ In t values).
      { intros key values. unfold matches. cbn [fst snd eval_column].
        rewrite is_true_sql_or, existsb_map, existsb_exists.
        unfold text_value.
        destruct (extract_path doc (split "." key)) as [field|].
        - destruct (jsonb_text field) as [t|] eqn:Et.
          + split.
            * intros (x & Hin & Hx). rewrite Htext in Hx. simpl in Hx.
              destruct (String.eqb_spec t x) as [<-|]; [|discriminate].
              exists field, t. repeat split; assumption.
            * intros (f & t' & Hf & Ht & Hin). injection Hf as <-.
              rewrite Et in Ht. injection Ht as <-.
              exists t. split; [exact Hin|].
              rewrite Htext. simpl. rewrite String.eqb_refl. reflexivity.
          + split.
            * intros (x & _ & Hx). rewrite Hnull in Hx. discriminate.
            * intros (f & t' & Hf & Ht & _). injection Hf as <-.
              congruence.
        - split.
          + intros (x & _ & Hx). rewrite Hnull in Hx. discriminate.
          + intros (f & t' & Hf & _). discriminate. }
      split.
      * intros Hall key Hr Hne. apply Hone, (Hall (key, _)).
        apply dict_get_In. rewrite queries_of_get, Hr.
        destruct (values_of key params); [contradiction | reflexivity].
      * intros Hall [key values] Hin.
        apply (In_dict_get _ _ _ (queries_of_keys params)) in Hin.
        rewrite queries_of_get in Hin.
        destruct (reserved key) eqn:Hr; [discriminate|].
        destruct (values_of key params) as [|v vs] eqn:Hv; [discriminate|].
        injection Hin as <-. apply Hone. rewrite <- Hv.
        apply Hall; [exact Hr | rewrite Hv; discriminate].
Qed.

End Store.

Lemma search_metadata_matches_witness :
  (where_
     (search_metadata false 10 0 [("a.b", "3"); ("limit", "5"); ("a.b", "33")])
   = None <->
   forall kv,
     In kv [("a.b", "3"); ("limit", "5"); ("a.b", "33")] ->
     reserved (fst kv) = true) /\
  exists v,
    Query.eval Samples.extract_path Samples.jsonb_text
      (fun c l r =>
         match c, l, r with
         | Ceq, SText a, SBound (VStr b) => Some (String.eqb a b)
         | _, _, _ => None
         end)
      (VDict [("a", VDict [("b", VStr "3")])]) SNull
      (and_ [any_of "a.b" ["3"; "33"]])
    = Ok v /\
    (is_true v = true <->
     forall key,
       reserved key = false ->
       values_of key [("a.b", "3"); ("limit", "5"); ("a.b", "33")] <> [] ->
       exists field t,
         Samples.extract_path (VDict [("a", VDict [("b", VStr "3")])])
           (split "." key) = Some field /\
         Samples.jsonb_text field = Some t /\
         In t (values_of key [("a.b", "3"); ("limit", "5"); ("a.b", "33")])).
Proof.
  destruct (search_metadata_matches Samples.extract_path Samples.jsonb_text
           (fun c l r =>
              match c, l, r with
              | Ceq, SText a, SBound (VStr b) => Some (String.eqb a b)
              | _, _, _ => None
              end)
           (VDict [("a", VDict [("b", VStr "3")])]) false 10 0
           [("a.b", "3"); ("limit", "5"); ("a.b", "33")]
           ltac:(intros; reflexivity) ltac:(intros; reflexivity))
    as [Hnone Hsome].
  split; [exact Hnone|]. apply Hsome. reflexivity.
Defined.

End SearchSpec.

(* ================================================================== *)
(** * populate.py: filter_entries *)
(* ================================================================== *)

Module PopulateSpec.

Import Populate PyFacts.

Section Equality.

Variable py_eq : pyvalue -> pyvalue -> bool.

Abbreviation keeps := (Populate.keeps py_eq).
Abbreviation filter_entries := (Populate.filter_entries py_eq).
Abbreviation kept := (Populate.kept py_eq).

Lemma filter_entries_loop (common : select_config)
  (mds_arr acc out : list (string * pyvalue)) :
  for_each
    (fun filtered x =>
       keep <- keeps common (snd x) ;;
       Ok (if keep then filtered ++ [x] else filtered))
    mds_arr acc = Ok out ->
  out = acc ++ List.filter (kept common) mds_arr.
Proof.
  revert acc. induction mds_arr as [|x l IH]; intros acc; cbn [for_each].
  - intros H. injection H as <-. simpl. rewrite app_nil_r. reflexivity.
  - cbn [List.filter].
    assert (Hk : kept common x
                 = match keeps common (snd x) with
                   | Ok keep => keep
                   | Raise _ => false
                   end) by reflexivity.
    rewrite Hk. clear Hk.
    destruct (keeps common (snd x)) as [[|]|err]; cbn [bind];
      [| |discriminate]; intros H; apply IH in H; [|exact H].
    rewrite <- app_assoc in H. exact H.
Qed.

Lemma filter_entries_all (common : select_config)
  (l acc : list (string * pyvalue)) :
  Forall (fun x => keeps common (snd x) = Ok true) l ->
  for_each
    (fun filtered x =>
       keep <- keeps common (snd x) ;;
       Ok (if keep then filtered ++ [x] else filtered))
    l acc = Ok (acc ++ l).
Proof.
  intros H. revert acc.
  induction H as [|x l Hx _ IH]; intros acc; cbn [for_each].
  - rewrite app_nil_r. reflexivity.
  - rewrite Hx. cbn [bind]. rewrite IH, <- app_assoc. reflexivity.
Qed.

Lemma keeps_true (common : select_config) (entry : pyvalue) :
  keeps common entry = Ok true ->
  exists study value,
    py_subscript entry (study_data_field common) = Ok study /\
    py_get study (field_name common) VNone = Ok value /\
    value <> VNone /\
    py_eq (field_value common) value = true.
Proof.
  unfold Populate.keeps.
  destruct (py_contains (study_data_field common) entry) as [[|]|];
    cbn [bind negb]; try discriminate.
  destruct (py_subscript entry (study_data_field common)) as [study|];
    cbn [bind]; [|discriminate].
  destruct (py_get study (field_name common) VNone) as [value|] eqn:Eget;
    cbn [bind]; [|discriminate].
  intros H. exists study, value.
  split; [reflexivity|]. split; [exact Eget|]. split.
  - intros ->. discriminate.
  - destruct value; try discriminate; injection H as H; exact H.
Qed.

(** X21: when [filter_entries] returns, it returns the entries it keeps
    in the order they came in; every one of them has the study data
    field, with the selected field in it, set to a value that is not
    [None] and equals the selected value; filtering what it returned
    again changes nothing. *)
Theorem filter_entries_selects (common : select_config)
  (mds_arr out : list (string * pyvalue)) :
  filter_entries common mds_arr = Ok out ->
  out = List.filter (kept common) mds_arr /\
  (forall x, In x out ->
     exists study value,
       py_subscript (snd x) (study_data_field common) = Ok study /\
       py_get study (field_name common) VNone = Ok value /\
       value <> VNone /\
       py_eq (field_value common) value = true) /\
  filter_entries common out = Ok out.
Proof.
  intros H. apply filter_entries_loop in H. simpl in H. subst out.
  assert (Hall : Forall (fun x => keeps common (snd x) = Ok true)
                   (List.filter (kept common) mds_arr)).
  { apply Forall_forall. intros x Hx. apply filter_In in Hx.
    destruct Hx as [_ Hx]. unfold kept in Hx.
    destruct (keeps common (snd x)) as [[|]|]; congruence. }
  split; [reflexivity|]. split.
  - intros x Hx. apply keeps_true.
    rewrite Forall_forall in Hall. apply Hall, Hx.
  - unfold Populate.filter_entries.
    rewrite (filter_entries_all common _ [] Hall). reflexivity.
Qed.

(** X22: an entry that has the study data field, but not as a dict,
    makes [filter_entries] raise an [AttributeError] when the entries
    before it raise nothing: nothing is returned for the entries that
    were kept. *)
Theorem filter_entries_malformed_entry (common : select_config)
  (before after : list (string * pyvalue)) (key : string) (entry : pyvalue)
  (study : pyvalue) :
  Forall (fun x => is_ok (keeps common (snd x)) = true) before ->
  py_contains (study_data_field common) entry = Ok true ->
  py_subscript entry (study_data_field common) = Ok study ->
  (forall d, study <> VDict d) ->
  filter_entries common (before ++ (key, entry) :: after)
  = Raise AttributeError.
Proof.
  intros Hbefore Hin Hsub Hnot. unfold Populate.filter_entries.
  rewrite for_each_app.
  assert (Hok : forall start, exists acc,
            for_each
              (fun filtered x =>
                 keep <- keeps common (snd x) ;;
                 Ok (if keep then filtered ++ [x] else filtered))
              before start = Ok acc).
  { induction Hbefore as [|x l Hx _ IH]; intros acc; cbn [for_each].
    - exists acc. reflexivity.
    - destruct (keeps common (snd x)) as [keep|]; [|discriminate].
      cbn [bind]. apply IH. }
  destruct (Hok []) as [acc ->]. cbn [bind for_each snd].
  unfold Populate.keeps. rewrite Hin. cbn [bind negb]. rewrite Hsub.
  cbn [bind]. destruct study; try reflexivity.
  exfalso. apply (Hnot d). reflexivity.
Qed.

End Equality.

Lemma filter_entries_selects_witness :
  Populate.filter_entries
    (fun a b =>
       match a, b with
       | VStr x, VStr y => String.eqb x y
       | _, _ => false
       end)
    {| study_data_field := "gen3_discovery"; field_name := "commons";
       field_value := VStr "PDC" |}
    [("g2", VDict [("gen3_discovery", VDict [("commons", VStr "PDC")])])]
  = Ok [("g2", VDict [("gen3_discovery", VDict [("commons", VStr "PDC")])])].
Proof.
  apply (filter_entries_selects
           (fun a b =>
              match a, b with
              | VStr x, VStr y => String.eqb x y
              | _, _ => false
              end)
           {| study_data_field := "gen3_discovery"; field_name := "commons";
              field_value := VStr "PDC" |}
           [("g1", VDict [("gen3_discovery", VDict [("commons", VStr "HEAL")])]);
            ("g2", VDict [("gen3_discovery", VDict [("commons", VStr "PDC")])]);
            ("g3", VDict [("other", VNone)])]
           [("g2", VDict [("gen3_discovery", VDict [("commons", VStr "PDC")])])]).
  reflexivity.
Defined.

Lemma filter_entries_malformed_entry_witness :
  Populate.filter_entries
    (fun a b =>
       match a, b with
       | VStr x, VStr y => String.eqb x y
       | _, _ => false
       end)
    {| study_data_field := "gen3_discovery"; field_name := "commons";
       field_value := VStr "PDC" |}
    ([("g1", VDict [("gen3_discovery", VDict [("commons", VStr "PDC")])])]
     ++ ("g2", VDict [("gen3_discovery", VStr "PDC")]) :: [])
  = Raise AttributeError.
Proof.
  apply (filter_entries_malformed_entry _ _ _ _ _ _ (VStr "PDC")).
  - repeat constructor.
  - reflexivity.
  - reflexivity.
  - intros d. discriminate.
Defined.

End PopulateSpec.
